(** * XML reader and writer of the AirScan backend (airscan-xml.c)

    A shallow embedding of [src/airscan-xml.c]: the depth-tracking reader
    cursor with its namespace substitution cache, the tree-building writer
    with its serializer, and the stand-alone formatter.

    Conventions of the embedding:
    - a C string is a [string]; a [NULL] pointer is [None];
    - [unsigned int] values are [Z] with the wrap-around at [2^32] written
      out; [unsigned long] is the 64-bit type of LP64 platforms;
    - lengths and offsets of in-memory buffers ([size_t]) are [nat];
    - a [NULL]-terminated array of [xml_ns] or [xml_attr] is the list of the
      entries that precede the terminator;
    - the libxml2 parse tree is immutable while a reader walks it; a node
      pointer is the position of the node in the tree (child indices,
      innermost first), the document node being the empty position. *)

From Stdlib Require Import ZArith Ascii String Lia Bool.
From stdpp Require Import base list strings.

Set Warnings "-register-all".

(** ** C integer types *)

Record int_type := IntType { it_signed : bool; it_bits : Z }.

(** Conversion of an integer value to the C type [t]. *)
Definition int_cast (t : int_type) (v : Z) : Z :=
  let m := (2 ^ it_bits t)%Z in
  if it_signed t then ((v + m / 2) mod m - m / 2)%Z else (v mod m)%Z.

Definition unsigned_int : int_type := IntType false 32.
Definition unsigned_long : int_type := IntType false 64.
Definition UINT_MAX : Z := (2 ^ 32 - 1)%Z.
Definition ULONG_MAX : Z := (2 ^ 64 - 1)%Z.

(** Largest value of the C type [t]. *)
Definition int_max (t : int_type) : Z :=
  if it_signed t then (2 ^ (it_bits t - 1) - 1)%Z else (2 ^ it_bits t - 1)%Z.

(** ** Strings and [GString] buffers *)

Fixpoint string_take (n : nat) (s : string) : string :=
  match n, s with
  | S n', String c s' => String c (string_take n' s')
  | _, _ => ""
  end.

Fixpoint string_drop (n : nat) (s : string) : string :=
  match n, s with
  | S n', String c s' => string_drop n' s'
  | _, _ => s
  end.

(** [g_string_truncate]: cuts the buffer to [len] bytes, no change when it
    is shorter already. *)
Definition g_string_truncate (buf : string) (len : nat) : string :=
  string_take len buf.

Definition g_string_append (buf s : string) : string := buf +:+ s.

(** The double quote, and a string between double quotes. *)
Definition dquote : ascii := "034"%char.

Definition quoted (s : string) : string :=
  String dquote "" +:+ s +:+ String dquote "".

Definition g_string_append_c (buf : string) (c : ascii) : string :=
  buf +:+ String c "".

(** [g_ascii_isspace]: space, tab, line feed, form feed, carriage return. *)
Definition g_ascii_isspace (c : ascii) : bool :=
  match c with
  | " " | "009" | "010" | "012" | "013" => true
  | _ => false
  end%char.

(** [g_strchug]: removes leading whitespace. *)
Fixpoint g_strchug (s : string) : string :=
  match s with
  | String c s' => if g_ascii_isspace c then g_strchug s' else s
  | EmptyString => ""
  end.

(** [g_strchomp]: removes trailing whitespace. *)
Fixpoint g_strchomp (s : string) : string :=
  match s with
  | String c s' =>
      match g_strchomp s' with
      | EmptyString => if g_ascii_isspace c then "" else String c ""
      | r => String c r
      end
  | EmptyString => ""
  end.

Definition g_strstrip (s : string) : string := g_strchomp (g_strchug s).

(** ** libc: [strtoul] and [sprintf ("%u")] *)

(** [isspace] in the C locale. *)
Definition isspace (c : ascii) : bool :=
  match c with
  | " " | "009" | "010" | "011" | "012" | "013" => true
  | _ => false
  end%char.

(** The value of a decimal digit: [c - '0'] when [c] is between ['0']
    (code 48) and ['9'] (code 57). *)
Definition digit_of (c : ascii) : option Z :=
  let code := Z.of_N (N_of_ascii c) in
  if (48 <=? code)%Z && (code <=? 57)%Z then Some (code - 48)%Z else None.

Fixpoint skip_spaces (s : string) : nat :=
  match s with
  | String c s' => if isspace c then S (skip_spaces s') else 0
  | EmptyString => 0
  end.

(** Longest run of decimal digits at the head of [s]: the number it
    denotes, continuing from [acc], and the count of digits. *)
Fixpoint scan_digits (s : string) (acc : Z) : Z * nat :=
  match s with
  | String c s' =>
      match digit_of c with
      | Some d => let '(v, n) := scan_digits s' (acc * 10 + d)%Z in (v, S n)
      | None => (acc, 0)
      end
  | EmptyString => (acc, 0)
  end.

(** [strtoul (s, &end, 10)]: the converted value and the offset of [end]
    in [s].  Leading white space and one sign are accepted; without a digit
    nothing is converted and [end] is [s]; a number above [ULONG_MAX] gives
    [ULONG_MAX]; after a minus sign the value is negated in the type. *)
Definition strtoul (s : string) : Z * nat :=
  let sp := skip_spaces s in
  let s1 := string_drop sp s in
  let '(neg, sg) :=
    match s1 with
    | String "-" _ => (true, 1)
    | String "+" _ => (false, 1)
    | _ => (false, 0)
    end in
  let '(v, n) := scan_digits (string_drop sg s1) 0 in
  match n with
  | 0 => (0%Z, 0)
  | _ =>
      let r :=
        if (ULONG_MAX <? v)%Z then ULONG_MAX
        else if neg then int_cast unsigned_long (- v) else v in
      (r, sp + sg + n)
  end.

Definition digit_char (d : Z) : ascii :=
  match d with
  | 0 => "0" | 1 => "1" | 2 => "2" | 3 => "3" | 4 => "4"
  | 5 => "5" | 6 => "6" | 7 => "7" | 8 => "8" | _ => "9"
  end%char%Z.

(** Decimal digits of [v], most significant first, in front of [acc]. *)
Fixpoint format_digits (fuel : nat) (v : Z) (acc : string) : string :=
  let acc' := String (digit_char (v mod 10)) acc in
  match fuel with
  | 0 => acc'
  | S f => if (v / 10 =? 0)%Z then acc' else format_digits f (v / 10) acc'
  end.

(** [sprintf (buf, "%u", value)] for an [unsigned int] argument (at most
    ten digits). *)
Definition sprintf_u (value : Z) : string :=
  format_digits 9 (int_cast unsigned_int value) "".

(** ** The libxml2 parse tree *)

Inductive xmlElementType :=
  | XML_ELEMENT_NODE
  | XML_TEXT_NODE
  | XML_CDATA_SECTION_NODE
  | XML_PI_NODE
  | XML_COMMENT_NODE.

Global Instance xmlElementType_eq_dec : EqDecision xmlElementType.
Proof. solve_decision. Defined.

(** Kinds of nodes without children. *)
Inductive xmlLeafType := LeafText | LeafCData | LeafPI | LeafComment.

Record xmlNs := XmlNs { ns_href : string; ns_prefix : option string }.

Inductive xmlNode :=
  | xmlElement (name : string) (ns : option xmlNs) (children : list xmlNode)
  | xmlLeaf (kind : xmlLeafType) (content : string).

Record xmlDoc := XmlDoc { doc_children : list xmlNode }.

Definition xmlNode_type (n : xmlNode) : xmlElementType :=
  match n with
  | xmlElement _ _ _ => XML_ELEMENT_NODE
  | xmlLeaf LeafText _ => XML_TEXT_NODE
  | xmlLeaf LeafCData _ => XML_CDATA_SECTION_NODE
  | xmlLeaf LeafPI _ => XML_PI_NODE
  | xmlLeaf LeafComment _ => XML_COMMENT_NODE
  end.

Definition xmlNode_name (n : xmlNode) : string :=
  match n with xmlElement name _ _ => name | xmlLeaf _ _ => "" end.

Definition xmlNode_ns (n : xmlNode) : option xmlNs :=
  match n with xmlElement _ ns _ => ns | xmlLeaf _ _ => None end.

Definition xmlNode_kids (n : xmlNode) : list xmlNode :=
  match n with xmlElement _ _ cs => cs | xmlLeaf _ _ => [] end.

(** [xmlNodeGetContent]: the text of a leaf; for an element, the text and
    CDATA content of its descendants, concatenated in document order. *)
Fixpoint xmlNodeGetContent (n : xmlNode) : string :=
  match n with
  | xmlElement _ _ cs =>
      (fix go (l : list xmlNode) : string :=
         match l with
         | [] => ""
         | xmlLeaf LeafText s :: l' => s +:+ go l'
         | xmlLeaf LeafCData s :: l' => s +:+ go l'
         | xmlLeaf _ _ :: l' => go l'
         | c :: l' => xmlNodeGetContent c +:+ go l'
         end) cs
  | xmlLeaf _ s => s
  end.

(** A node pointer: child indices from the node up to the document. *)
Definition xmlNodePtr := list nat.

(** Children of the node reached from the list [l] of top-level nodes
    along [p], outermost index first. *)
Fixpoint kids_along (l : list xmlNode) (p : list nat) : list xmlNode :=
  match p with
  | [] => l
  | i :: p' =>
      match l !! i with
      | Some n => kids_along (xmlNode_kids n) p'
      | None => []
      end
  end.

(** Children of the node at [q] (of the document when [q] is empty). *)
Definition xml_children (doc : xmlDoc) (q : xmlNodePtr) : list xmlNode :=
  kids_along (doc_children doc) (rev q).

Definition xml_deref (doc : xmlDoc) (p : xmlNodePtr) : option xmlNode :=
  match p with
  | [] => None
  | i :: q => xml_children doc q !! i
  end.

(** [node->next] *)
Definition xmlNode_next (doc : xmlDoc) (p : xmlNodePtr) : option xmlNodePtr :=
  match p with
  | [] => None
  | i :: q =>
      if decide (S i < length (xml_children doc q)) then Some (S i :: q)
      else None
  end.

(** [node->children] *)
Definition xmlNode_children (doc : xmlDoc) (p : xmlNodePtr)
  : option xmlNodePtr :=
  match xml_children doc p with
  | [] => None
  | _ :: _ => Some (0 :: p)
  end.

(** [node->parent]; the parent of a top-level node is the document. *)
Definition xmlNode_parent (p : xmlNodePtr) : option xmlNodePtr :=
  match p with
  | [] => None
  | _ :: q => Some q
  end.

(** [node->type != XML_ELEMENT_NODE] *)
Definition xml_is_dummy (doc : xmlDoc) (p : xmlNodePtr) : bool :=
  match xml_deref doc p with
  | Some n => bool_decide (xmlNode_type n ≠ XML_ELEMENT_NODE)
  | None => true
  end.

(** [xmlDocGetRootElement]: the first element among the children of the
    document. *)
Fixpoint first_element (l : list xmlNode) (i : nat) : option nat :=
  match l with
  | [] => None
  | n :: l' =>
      if decide (xmlNode_type n = XML_ELEMENT_NODE) then Some i
      else first_element l' (S i)
  end.

Definition xmlDocGetRootElement (doc : xmlDoc) : option xmlNodePtr :=
  (λ i, [i]) <$> first_element (doc_children doc) 0.

(** ** Outcomes of fallible operations *)

(** An [error] of the backend is a message. *)
Definition error := string.

(** A call returns a value, or returns an error, or does not return at
    all because a [log_assert] failed. *)
Inductive outcome (A : Type) :=
  | Done (a : A)
  | Failed (e : error)
  | Aborted.
Arguments Done {A} a.
Arguments Failed {A} e.
Arguments Aborted {A}.

(** ** XML reader *)

(** Namespace table entry; in the substitution rules [ns_uri] is a
    glob-style pattern. *)
Record xml_ns := XmlNsRule { xn_prefix : string; xn_uri : string }.

Record xml_rd := XmlRd {
  rd_doc : xmlDoc;                      (* XML document *)
  rd_node : option xmlNodePtr;          (* Current node *)
  rd_parent : option xmlNodePtr;        (* Parent node *)
  rd_name : option nat;                 (* Name of current node: its offset
                                           in the path buffer *)
  rd_path : string;                     (* Path to current node *)
  rd_pathlen : list nat;                (* Stack of path lengths *)
  rd_pathlen_cap : nat;                 (* pathlen capacity *)
  rd_text : option string;              (* Textual value of current node *)
  rd_depth : Z;                         (* Depth of current node *)
  rd_subst_rules : option (list xml_ns);(* Substitution rules *)
  rd_subst_cache : list xml_ns;         (* The subst_cache_len entries *)
  rd_subst_cache_cap : nat              (* subst_cache capacity *)
}.

Definition set_node (v : option xmlNodePtr) (x : xml_rd) : xml_rd :=
  XmlRd (rd_doc x) v (rd_parent x) (rd_name x) (rd_path x) (rd_pathlen x)
    (rd_pathlen_cap x) (rd_text x) (rd_depth x) (rd_subst_rules x)
    (rd_subst_cache x) (rd_subst_cache_cap x).

Definition set_parent (v : option xmlNodePtr) (x : xml_rd) : xml_rd :=
  XmlRd (rd_doc x) (rd_node x) v (rd_name x) (rd_path x) (rd_pathlen x)
    (rd_pathlen_cap x) (rd_text x) (rd_depth x) (rd_subst_rules x)
    (rd_subst_cache x) (rd_subst_cache_cap x).

Definition set_name (v : option nat) (x : xml_rd) : xml_rd :=
  XmlRd (rd_doc x) (rd_node x) (rd_parent x) v (rd_path x) (rd_pathlen x)
    (rd_pathlen_cap x) (rd_text x) (rd_depth x) (rd_subst_rules x)
    (rd_subst_cache x) (rd_subst_cache_cap x).

Definition set_path (v : string) (x : xml_rd) : xml_rd :=
  XmlRd (rd_doc x) (rd_node x) (rd_parent x) (rd_name x) v (rd_pathlen x)
    (rd_pathlen_cap x) (rd_text x) (rd_depth x) (rd_subst_rules x)
    (rd_subst_cache x) (rd_subst_cache_cap x).

Definition set_pathlen (v : list nat) (cap : nat) (x : xml_rd) : xml_rd :=
  XmlRd (rd_doc x) (rd_node x) (rd_parent x) (rd_name x) (rd_path x) v
    cap (rd_text x) (rd_depth x) (rd_subst_rules x)
    (rd_subst_cache x) (rd_subst_cache_cap x).

Definition set_text (v : option string) (x : xml_rd) : xml_rd :=
  XmlRd (rd_doc x) (rd_node x) (rd_parent x) (rd_name x) (rd_path x)
    (rd_pathlen x) (rd_pathlen_cap x) v (rd_depth x) (rd_subst_rules x)
    (rd_subst_cache x) (rd_subst_cache_cap x).

Definition set_depth (v : Z) (x : xml_rd) : xml_rd :=
  XmlRd (rd_doc x) (rd_node x) (rd_parent x) (rd_name x) (rd_path x)
    (rd_pathlen x) (rd_pathlen_cap x) (rd_text x) v (rd_subst_rules x)
    (rd_subst_cache x) (rd_subst_cache_cap x).

Definition set_subst_cache (v : list xml_ns) (cap : nat) (x : xml_rd)
  : xml_rd :=
  XmlRd (rd_doc x) (rd_node x) (rd_parent x) (rd_name x) (rd_path x)
    (rd_pathlen x) (rd_pathlen_cap x) (rd_text x) (rd_depth x)
    (rd_subst_rules x) v cap.

(** [g_realloc] of an array to [cap] entries: the old entries are kept,
    the new ones hold no meaningful value. *)
Definition realloc_array (a : list nat) (cap : nat) : list nat :=
  take cap a ++ replicate (cap - length a) 0.

Section Backend.

(** External collaborators of the module and the types it takes from
    headers outside this file. *)

(** [fnmatch (pattern, string, flags)] of libc: 0 when the string matches. *)
Variable fnmatch : string -> string -> Z -> Z.

(** [xmlParseMemory (buffer, size)] of libxml2: the document, or [NULL]
    when the buffer is not well-formed XML. *)
Variable xmlParseMemory : string -> nat -> option xmlDoc.

(** [xmlDocDumpFormatMemory (doc, &out_data, &out_size, format)] of
    libxml2: the bytes and the size it stores. *)
Variable xmlDocDumpFormatMemory : xmlDoc -> Z -> string * Z.

(** The integer type [SANE_Word] of the SANE headers. *)
Variable SANE_Word : int_type.

(** Skip dummy nodes: [while (node != NULL && node->type !=
    XML_ELEMENT_NODE) node = node->next].  One unit of [fuel] per
    iteration. *)
Fixpoint skip_dummy_loop (doc : xmlDoc) (fuel : nat)
    (node : option xmlNodePtr) : option xmlNodePtr :=
  match node with
  | None => None
  | Some p =>
      if xml_is_dummy doc p then
        match fuel with
        | 0 => node
        | S f => skip_dummy_loop doc f (xmlNode_next doc p)
        end
      else node
  end.

(** The siblings of [node] bound the number of iterations. *)
Definition skip_dummy_fuel (doc : xmlDoc) (node : option xmlNodePtr) : nat :=
  match node with
  | Some (_ :: q) => length (xml_children doc q)
  | _ => 0
  end.

Definition xml_rd_skip_dummy (xml : xml_rd) : xml_rd :=
  let node := rd_node xml in
  let node :=
    skip_dummy_loop (rd_doc xml) (skip_dummy_fuel (rd_doc xml) node) node in
  set_node node xml.

(** Invalidate cached value *)
Definition xml_rd_node_invalidate_value (xml : xml_rd) : xml_rd :=
  set_text None xml.

(** Scan of the cache: the first entry whose URI is [href]. *)
Fixpoint subst_cache_find (cache : list xml_ns) (href : string)
  : option xml_ns :=
  match cache with
  | [] => None
  | e :: cache' =>
      if String.eqb href (xn_uri e) then Some e
      else subst_cache_find cache' href
  end.

(** Scan of the rules: the first rule whose pattern matches [href]. *)
Fixpoint subst_rules_find (rules : list xml_ns) (href : string)
  : option xml_ns :=
  match rules with
  | [] => None
  | r :: rules' =>
      if (fnmatch (xn_uri r) href 0 =? 0)%Z then Some r
      else subst_rules_find rules' href
  end.

(** Perform namespace prefix substitution.  If substitution is not set up
    or no match was found, the original prefix is returned. *)
Definition xml_rd_ns_subst_lookup (xml : xml_rd) (prefix : option string)
    (href : string) : xml_rd * option string :=
  match rd_subst_rules xml with
  | None => (xml, prefix)
  | Some rules =>
      match subst_cache_find (rd_subst_cache xml) href with
      | Some e => (xml, Some (xn_prefix e))
      | None =>
          match subst_rules_find rules href with
          | Some r =>
              let len := length (rd_subst_cache xml) in
              let cap := rd_subst_cache_cap xml in
              let cap :=
                if decide (len = cap) then
                  if decide (cap = 0) then 4 else cap * 2
                else cap in
              (set_subst_cache
                 (rd_subst_cache xml ++ [XmlNsRule (xn_prefix r) href])
                 cap xml,
               Some (xn_prefix r))
          | None => (xml, prefix)
          end
      end
  end.

(** [xml->node->ns] and [xml->node->name] of the current node. *)
Definition rd_node_ns (xml : xml_rd) (p : xmlNodePtr) : option xmlNs :=
  xml_deref (rd_doc xml) p ≫= xmlNode_ns.

Definition rd_node_name (xml : xml_rd) (p : xmlNodePtr) : string :=
  from_option xmlNode_name "" (xml_deref (rd_doc xml) p).

(** Called when the current node is switched: invalidates the cached
    value and updates the node name. *)
Definition xml_rd_node_switched (xml : xml_rd) : xml_rd :=
  let xml := xml_rd_node_invalidate_value xml in
  let pathlen :=
    if decide (rd_depth xml = 0%Z) then 0
    else rd_pathlen xml !!! Z.to_nat (rd_depth xml - 1) in
  let xml := set_path (g_string_truncate (rd_path xml) pathlen) xml in
  match rd_node xml with
  | None => set_name None xml
  | Some node =>
      let '(xml, prefix) :=
        match rd_node_ns xml node with
        | Some ns => xml_rd_ns_subst_lookup xml (ns_prefix ns) (ns_href ns)
        | None => (xml, None)
        end in
      let xml :=
        match prefix with
        | Some pfx =>
            let xml := set_path (g_string_append (rd_path xml) pfx) xml in
            set_path (g_string_append_c (rd_path xml) ":") xml
        | None => xml
        end in
      let xml :=
        set_path (g_string_append (rd_path xml) (rd_node_name xml node)) xml in
      set_name (Some pathlen) xml
  end.

(** Parse XML text and initialize the reader to iterate starting from the
    root node. *)
Definition xml_rd_begin (xml_text : string) (xml_len : nat)
    (ns : option (list xml_ns)) : error + xml_rd :=
  match xmlParseMemory xml_text xml_len with
  | None => inl "Failed to parse XML"
  | Some doc =>
      let xml :=
        XmlRd doc (xmlDocGetRootElement doc) None None "" (replicate 8 0) 8
          None 0 ns [] 0 in
      let xml := xml_rd_skip_dummy xml in
      inr (xml_rd_node_switched xml)
  end.

(** Get current node depth in the tree.  Root depth is 0. *)
Definition xml_rd_depth (xml : xml_rd) : Z := rd_depth xml.

(** Check for end-of-document condition. *)
Definition xml_rd_end (xml : xml_rd) : bool :=
  bool_decide (rd_node xml = None).

(** Shift to the next node. *)
Definition xml_rd_next (xml : xml_rd) : xml_rd :=
  match rd_node xml with
  | Some node =>
      let xml := set_node (xmlNode_next (rd_doc xml) node) xml in
      let xml := xml_rd_skip_dummy xml in
      xml_rd_node_switched xml
  | None => xml
  end.

(** Enter the current node - iterate its children. *)
Definition xml_rd_enter (xml : xml_rd) : xml_rd :=
  match rd_node xml with
  | Some node =>
      (* Save current path length into pathlen stack *)
      let xml :=
        if decide (rd_depth xml = Z.of_nat (rd_pathlen_cap xml)) then
          let cap := rd_pathlen_cap xml * 2 in
          set_pathlen (realloc_array (rd_pathlen xml) cap) cap xml
        else xml in
      let xml := set_path (g_string_append_c (rd_path xml) "/") xml in
      let xml :=
        set_pathlen
          (<[Z.to_nat (rd_depth xml) := String.length (rd_path xml)]>
             (rd_pathlen xml))
          (rd_pathlen_cap xml) xml in
      (* Enter the node *)
      let xml := set_parent (Some node) xml in
      let xml := set_node (xmlNode_children (rd_doc xml) node) xml in
      let xml := xml_rd_skip_dummy xml in
      (* Increment depth and recompute node name *)
      let xml :=
        set_depth (int_cast unsigned_int (rd_depth xml + 1)) xml in
      let xml := xml_rd_skip_dummy xml in
      xml_rd_node_switched xml
  | None => xml
  end.

(** Leave the current node - return to its parent. *)
Definition xml_rd_leave (xml : xml_rd) : xml_rd :=
  if decide (0 < rd_depth xml)%Z then
    let xml := set_depth (rd_depth xml - 1) xml in
    let xml := set_node (rd_parent xml) xml in
    let xml :=
      match rd_node xml with
      | Some node => set_parent (xmlNode_parent node) xml
      | None => xml
      end in
    xml_rd_node_switched xml
  else xml.

(** The loop of [xml_rd_deep_next]; one unit of [fuel] per iteration. *)
Fixpoint deep_next_loop (fuel : nat) (xml : xml_rd) (depth : Z) : xml_rd :=
  if xml_rd_end xml
     && bool_decide (int_cast unsigned_int (depth + 1) < xml_rd_depth xml)%Z
  then
    match fuel with
    | 0 => xml
    | S f => deep_next_loop f (xml_rd_next (xml_rd_leave xml)) depth
    end
  else xml.

(** Shift to the next node, visiting the nested nodes on the way.  If
    depth > 0, it will not return from nested nodes upper the specified
    depth.  Every iteration of the loop decrements the reader's depth, so
    the depth reached by [xml_rd_enter] bounds their number. *)
Definition xml_rd_deep_next (xml : xml_rd) (depth : Z) : xml_rd :=
  let xml := xml_rd_enter xml in
  deep_next_loop (Z.to_nat (xml_rd_depth xml)) xml depth.

(** Get name of the current node. *)
Definition xml_rd_node_name (xml : xml_rd) : option string :=
  (λ off, string_drop off (rd_path xml)) <$> rd_name xml.

(** Get full path to the current node, '/'-separated. *)
Definition xml_rd_node_path (xml : xml_rd) : option string :=
  match rd_node xml with
  | Some _ => Some (rd_path xml)
  | None => None
  end.

(** Match name of the current node against the pattern ([g_strcmp0]). *)
Definition xml_rd_node_name_match (xml : xml_rd) (pattern : option string)
  : bool :=
  bool_decide (xml_rd_node_name xml = pattern).

(** Get value of the current node as text. *)
Definition xml_rd_node_value (xml : xml_rd) : xml_rd * option string :=
  let xml :=
    match rd_text xml, rd_node xml with
    | None, Some node =>
        set_text
          (g_strstrip <$> (xmlNodeGetContent <$> xml_deref (rd_doc xml) node))
          xml
    | _, _ => xml
    end in
  (xml, rd_text xml).

(** [eloop_eprintf ("%s: invalid numerical value", name)] *)
Definition invalid_numerical_value (name : option string) : error :=
  default "(null)" name +:+ ": invalid numerical value".

(** Get value of the current node as unsigned integer. *)
Definition xml_rd_node_value_uint (xml : xml_rd) : xml_rd * outcome Z :=
  let '(xml, s) := xml_rd_node_value xml in
  match s with
  | None => (xml, Aborted)               (* log_assert (NULL, s != NULL) *)
  | Some s =>
      let '(v, end_) := strtoul s in
      if bool_decide (end_ = 0)
         || negb (String.eqb (string_drop end_ s) "")
         || negb (v =? int_cast unsigned_long (int_cast SANE_Word v))%Z
      then (xml, Failed (invalid_numerical_value (xml_rd_node_name xml)))
      else (xml, Done (int_cast SANE_Word v))
  end.

(** ** XML writer *)

Record xml_attr := XmlAttr { attr_name : string; attr_value : string }.

(** XML writer node.  The [next] links starting at [children] are the list
    [wn_children]; the [parent] links are kept by the writer (below). *)
Inductive xml_wr_node :=
  XmlWrNode (name : string) (value : option string)
    (attrs : option (list xml_attr)) (children : list xml_wr_node).

Definition wn_name (n : xml_wr_node) : string :=
  match n with XmlWrNode name _ _ _ => name end.
Definition wn_value (n : xml_wr_node) : option string :=
  match n with XmlWrNode _ value _ _ => value end.
Definition wn_attrs (n : xml_wr_node) : option (list xml_attr) :=
  match n with XmlWrNode _ _ attrs _ => attrs end.
Definition wn_children (n : xml_wr_node) : list xml_wr_node :=
  match n with XmlWrNode _ _ _ children => children end.
Definition wn_set_children (n : xml_wr_node) (cs : list xml_wr_node)
  : xml_wr_node :=
  match n with XmlWrNode name value attrs _ => XmlWrNode name value attrs cs end.

(** XML writer.  [wr_current] is the current node with everything below
    it; [wr_parents] is the chain of its [parent] links up to the root,
    each parent without the child the chain passes through, which is the
    first of its children. *)
Record xml_wr := XmlWr {
  wr_current : xml_wr_node;
  wr_parents : list xml_wr_node;
  wr_ns : list xml_ns
}.

(** Puts [child] back at the head of the children of [parent]. *)
Definition wr_plug (child parent : xml_wr_node) : xml_wr_node :=
  wn_set_children parent (child :: wn_children parent).

(** [xml->root] *)
Definition wr_root (xml : xml_wr) : xml_wr_node :=
  foldl wr_plug (wr_current xml) (wr_parents xml).

(** Create XML writer node. *)
Definition xml_wr_node_new (name : string) (value : option string)
    (attrs : option (list xml_attr)) : xml_wr_node :=
  XmlWrNode name value attrs [].

(** Begin writing XML document.  Root node is created automatically. *)
Definition xml_wr_begin (root : string) (ns : list xml_ns) : xml_wr :=
  XmlWr (xml_wr_node_new root None None) [] ns.

Definition newline : ascii := "010"%char.

(** Format indentation space. *)
Definition xml_wr_format_indent (buf : string) (level : Z) : string :=
  Nat.iter (Z.to_nat level)
    (λ buf, g_string_append_c (g_string_append_c buf " ") " ") buf.

(** Format node's value. *)
Fixpoint xml_wr_format_value (buf : string) (value : string) : string :=
  match value with
  | String c value' =>
      match c with
      | "&" => xml_wr_format_value (g_string_append buf "&amp;") value'
      | "<" => xml_wr_format_value (g_string_append buf "&lt;") value'
      | ">" => xml_wr_format_value (g_string_append buf "&gt;") value'
      | "034" => xml_wr_format_value (g_string_append buf "&quot;") value'
      | "'" => xml_wr_format_value (g_string_append buf "&apos;") value'
      | "000" => buf
      | _ => xml_wr_format_value (g_string_append_c buf c) value'
      end%char
  | EmptyString => buf
  end.

(** The namespace declarations of the root node. *)
Fixpoint xml_wr_format_ns (buf : string) (ns : list xml_ns) : string :=
  match ns with
  | [] => buf
  | n :: ns' =>
      xml_wr_format_ns
        (buf +:+ " xmlns:" +:+ xn_prefix n +:+ "=" +:+ quoted (xn_uri n))
        ns'
  end.

(** The attributes of a node. *)
Fixpoint xml_wr_format_attrs (buf : string) (attrs : list xml_attr)
  : string :=
  match attrs with
  | [] => buf
  | a :: attrs' =>
      xml_wr_format_attrs
        (buf +:+ " " +:+ attr_name a +:+ "=" +:+ quoted (attr_value a))
        attrs'
  end.

(** Format node with its children, recursively. *)
Fixpoint xml_wr_format_node (ns : list xml_ns) (buf : string)
    (node : xml_wr_node) (level : Z) (compact : bool) : string :=
  match node with
  | XmlWrNode name value attrs children =>
      let buf := if compact then buf else xml_wr_format_indent buf level in
      let buf := buf +:+ "<" +:+ name in
      let buf :=
        if decide (level = 0%Z) then xml_wr_format_ns buf ns else buf in
      let buf :=
        match attrs with
        | Some attrs => xml_wr_format_attrs buf attrs
        | None => buf
        end in
      let buf := g_string_append_c buf ">" in
      match children with
      | _ :: _ =>
          let buf := if compact then buf else g_string_append_c buf newline in
          let buf :=
            (fix loop (node2 : list xml_wr_node) (buf : string) : string :=
               match node2 with
               | [] => buf
               | n :: next =>
                   loop next
                     (xml_wr_format_node ns buf n
                        (int_cast unsigned_int (level + 1)) compact)
               end) children buf in
          let buf := if compact then buf else xml_wr_format_indent buf level in
          let buf := buf +:+ "</" +:+ name +:+ ">" in
          if negb compact && bool_decide (level ≠ 0%Z)
          then g_string_append_c buf newline else buf
      | [] =>
          let buf :=
            match value with
            | Some value => xml_wr_format_value buf value
            | None => buf
            end in
          let buf := buf +:+ "</" +:+ name +:+ ">" in
          if compact then buf else g_string_append_c buf newline
      end
  end.

(** Revert list of node's children, recursively. *)
Fixpoint xml_wr_revert_children (node : xml_wr_node) : xml_wr_node :=
  match node with
  | XmlWrNode name value attrs children =>
      XmlWrNode name value attrs
        ((fix loop (node2 prev : list xml_wr_node) : list xml_wr_node :=
            match node2 with
            | [] => prev
            | n :: next => loop next (xml_wr_revert_children n :: prev)
            end) children [])
  end.

(** [<?xml version="1.0" encoding="UTF-8"?>] *)
Definition xml_declaration : string :=
  "<?xml version=" +:+ quoted "1.0" +:+ " encoding=" +:+ quoted "UTF-8"
  +:+ "?>".

(** xml_wr_finish(), internal version. *)
Definition xml_wr_finish_internal (xml : xml_wr) (compact : bool) : string :=
  let buf := xml_declaration in
  let buf := if compact then buf else g_string_append_c buf newline in
  let root := xml_wr_revert_children (wr_root xml) in
  xml_wr_format_node (wr_ns xml) buf root 0 compact.

(** Finish writing, generate document string. *)
Definition xml_wr_finish (xml : xml_wr) : string :=
  xml_wr_finish_internal xml false.

(** Like xml_wr_finish, but returns the compact representation. *)
Definition xml_wr_finish_compact (xml : xml_wr) : string :=
  xml_wr_finish_internal xml true.

(** Add XML writer node to the current node's children. *)
Definition xml_wr_add_node (xml : xml_wr) (node : xml_wr_node) : xml_wr :=
  XmlWr (wr_plug node (wr_current xml)) (wr_parents xml) (wr_ns xml).

(** Add text node with attributes. *)
Definition xml_wr_add_text_attr (xml : xml_wr) (name : string)
    (value : option string) (attrs : option (list xml_attr)) : xml_wr :=
  xml_wr_add_node xml (xml_wr_node_new name value attrs).

(** Add node with textual value. *)
Definition xml_wr_add_text (xml : xml_wr) (name : string)
    (value : option string) : xml_wr :=
  xml_wr_add_text_attr xml name value None.

(** Add node with unsigned integer value and attributes. *)
Definition xml_wr_add_uint_attr (xml : xml_wr) (name : string) (value : Z)
    (attrs : option (list xml_attr)) : xml_wr :=
  let buf := sprintf_u value in
  xml_wr_add_text_attr xml name (Some buf) attrs.

(** Add node with unsigned integer value. *)
Definition xml_wr_add_uint (xml : xml_wr) (name : string) (value : Z)
  : xml_wr :=
  xml_wr_add_uint_attr xml name value None.

(** Add node with boolean value and attributes. *)
Definition xml_wr_add_bool_attr (xml : xml_wr) (name : string) (value : bool)
    (attrs : option (list xml_attr)) : xml_wr :=
  xml_wr_add_text_attr xml name (Some (if value then "true" else "false"))
    attrs.

(** Add node with boolean value. *)
Definition xml_wr_add_bool (xml : xml_wr) (name : string) (value : bool)
  : xml_wr :=
  xml_wr_add_bool_attr xml name value None.

(** [xml->current = node] for the node just added: the first child of the
    current node. *)
Definition wr_enter_first (xml : xml_wr) : xml_wr :=
  match wn_children (wr_current xml) with
  | node :: rest =>
      XmlWr node (wn_set_children (wr_current xml) rest :: wr_parents xml)
        (wr_ns xml)
  | [] => xml
  end.

(** xml_wr_enter with attributes. *)
Definition xml_wr_enter_attr (xml : xml_wr) (name : string)
    (attrs : option (list xml_attr)) : xml_wr :=
  let node := xml_wr_node_new name None attrs in
  let xml := xml_wr_add_node xml node in
  wr_enter_first xml.

(** Create node with children and enter newly added node. *)
Definition xml_wr_enter (xml : xml_wr) (name : string) : xml_wr :=
  xml_wr_enter_attr xml name None.

(** Leave the current node. *)
Definition xml_wr_leave (xml : xml_wr) : outcome xml_wr :=
  match wr_parents xml with
  | [] => Aborted          (* log_assert (NULL, xml->current->parent != NULL) *)
  | parent :: parents =>
      Done (XmlWr (wr_plug (wr_current xml) parent) parents (wr_ns xml))
  end.

(** ** Formatter *)

(** [fwrite (data, size, 1, fp)] on a stream that holds the bytes written
    so far. *)
Definition fwrite (data : string) (size : Z) (fp : string) : string :=
  fp +:+ string_take (Z.to_nat size) data.

(** Format XML to file.  It either succeeds, writes a formatted XML and
    returns true, or fails, writes nothing to file and returns false. *)
Definition xml_format (fp : string) (xml_text : string) (xml_len : nat)
  : string * bool :=
  match xmlParseMemory xml_text xml_len with
  | None => (fp, false)
  | Some doc =>
      let '(out_data, out_size) := xmlDocDumpFormatMemory doc 1 in
      let fp := if decide (0 < out_size)%Z then fwrite out_data out_size fp
                else fp in
      (fp, bool_decide (0 < out_size)%Z)
  end.

End Backend.

(** ** Sequences of cursor operations *)

Inductive rd_op :=
  | OpNext
  | OpEnter
  | OpLeave
  | OpDeepNext (depth : Z)
  | OpValue
  | OpValueUint (SANE_Word : int_type).

Definition rd_step (fnmatch : string -> string -> Z -> Z) (xml : xml_rd)
    (op : rd_op) : xml_rd :=
  match op with
  | OpNext => xml_rd_next fnmatch xml
  | OpEnter => xml_rd_enter fnmatch xml
  | OpLeave => xml_rd_leave fnmatch xml
  | OpDeepNext depth => xml_rd_deep_next fnmatch xml depth
  | OpValue => fst (xml_rd_node_value xml)
  | OpValueUint w => fst (xml_rd_node_value_uint w xml)
  end.

(** The reader after the calls [ops], in order. *)
Definition rd_run (fnmatch : string -> string -> Z -> Z) (xml : xml_rd)
    (ops : list rd_op) : xml_rd :=
  foldl (rd_step fnmatch) xml ops.

(** ** Namespace substitution, as a function of the rules alone *)

(** The prefix the rules give to a namespace: that of the first rule whose
    pattern matches the URI, the document's own prefix without one. *)
Definition subst_prefix (fnmatch : string -> string -> Z -> Z)
    (rules : option (list xml_ns)) (prefix : option string) (href : string)
  : option string :=
  match rules with
  | None => prefix
  | Some rs =>
      match subst_rules_find fnmatch rs href with
      | Some r => Some (xn_prefix r)
      | None => prefix
      end
  end.

(** Every cache entry memoizes what the rules say about its URI. *)
Definition cache_valid (fnmatch : string -> string -> Z -> Z)
    (rules : option (list xml_ns)) (cache : list xml_ns) : Prop :=
  match rules with
  | None => cache = []
  | Some rs =>
      Forall (λ e, ∃ r, subst_rules_find fnmatch rs (xn_uri e) = Some r
                        ∧ xn_prefix r = xn_prefix e) cache
  end.

(** [x] is the first element of [l] with [P], at index [i]. *)
Definition first_at {A} (P : A -> Prop) (l : list A) (i : nat) (x : A)
  : Prop :=
  l !! i = Some x ∧ P x ∧ ∀ j y, j < i -> l !! j = Some y -> ¬ P y.

(** ** Invariants of the reader *)

(** The length the path is cut to when the node is switched. *)
Definition base_len (xml : xml_rd) : nat :=
  if decide (rd_depth xml = 0%Z) then 0
  else rd_pathlen xml !!! Z.to_nat (rd_depth xml - 1).

(** The name of the node at [p] with its substituted prefix. *)
Definition qualified_name (fnmatch : string -> string -> Z -> Z)
    (xml : xml_rd) (p : xmlNodePtr) : string :=
  match rd_node_ns xml p with
  | Some ns =>
      match subst_prefix fnmatch (rd_subst_rules xml) (ns_prefix ns)
              (ns_href ns) with
      | Some pfx => pfx +:+ ":"
      | None => ""
      end
  | None => ""
  end +:+ rd_node_name xml p.

(** What holds whenever [xml_rd_node_switched] is called. *)
Record rd_pre (fnmatch : string -> string -> Z -> Z) (xml : xml_rd)
  : Prop := RdPre {
  pre_cache : cache_valid fnmatch (rd_subst_rules xml) (rd_subst_cache xml);
  pre_nodup : NoDup (xn_uri <$> rd_subst_cache xml);
  pre_cap : length (rd_pathlen xml) = rd_pathlen_cap xml
            ∧ 0 < rd_pathlen_cap xml;
  pre_depth : (0 ≤ rd_depth xml ≤ Z.of_nat (rd_pathlen_cap xml))%Z;
  pre_uint : (rd_depth xml ≤ UINT_MAX)%Z;
  pre_stack : ∀ i, (Z.of_nat (S i) < rd_depth xml)%Z ->
                   rd_pathlen xml !!! i ≤ rd_pathlen xml !!! S i;
  pre_base : base_len xml ≤ String.length (rd_path xml)
}.

(** What holds between the calls of the reader's interface. *)
Record rd_inv (fnmatch : string -> string -> Z -> Z) (xml : xml_rd)
  : Prop := RdInv {
  inv_pre : rd_pre fnmatch xml;
  inv_path : rd_path xml
             = string_take (base_len xml) (rd_path xml)
               +:+ from_option (qualified_name fnmatch xml) "" (rd_node xml);
  inv_name : rd_name xml = (λ _, base_len xml) <$> rd_node xml
}.

(** The cached value, when there is one, is the stripped content of the
    current node. *)
Definition text_inv (xml : xml_rd) : Prop :=
  ∀ t, rd_text xml = Some t ->
       ∃ p n, rd_node xml = Some p ∧ xml_deref (rd_doc xml) p = Some n
              ∧ t = g_strstrip (xmlNodeGetContent n).

(** ** Traversal in document order *)

(** The nodes a loop [for (; !xml_rd_end (xml); xml_rd_deep_next (xml,
    depth))] stops at, for at most [fuel] rounds. *)
Fixpoint rd_visit (fnmatch : string -> string -> Z -> Z) (fuel : nat)
    (xml : xml_rd) (depth : Z) : list xmlNodePtr :=
  match fuel with
  | 0 => []
  | S f =>
      match rd_node xml with
      | None => []
      | Some p => p :: rd_visit fnmatch f (xml_rd_deep_next fnmatch xml depth) depth
      end
  end.

(** The element nodes of the subtree of [n], which sits at [p], in
    document order. *)
Fixpoint elements_of (n : xmlNode) (p : xmlNodePtr) : list xmlNodePtr :=
  match n with
  | xmlElement _ _ cs =>
      p :: (fix go (l : list xmlNode) (i : nat) : list xmlNodePtr :=
              match l with
              | [] => []
              | c :: l' => elements_of c (i :: p) ++ go l' (S i)
              end) cs 0
  | xmlLeaf _ _ => []
  end.

(** The element nodes below the siblings [l], the first of which is child
    number [i] of the node at [q]. *)
Fixpoint elements_forest (l : list xmlNode) (i : nat) (q : xmlNodePtr)
  : list xmlNodePtr :=
  match l with
  | [] => []
  | c :: l' => elements_of c (i :: q) ++ elements_forest l' (S i) q
  end.

(** All element nodes of a document, in document order. *)
Definition doc_elements (doc : xmlDoc) : list xmlNodePtr :=
  elements_forest (doc_children doc) 0 [].

Definition is_element (n : xmlNode) : bool :=
  bool_decide (xmlNode_type n = XML_ELEMENT_NODE).

(** The node reached from the siblings [l] along the child indices [t],
    outermost first. *)
Fixpoint walk (l : list xmlNode) (t : list nat) : option xmlNode :=
  match t with
  | [] => None
  | k :: t' =>
      match l !! k with
      | Some c => match t' with [] => Some c | _ => walk (xmlNode_kids c) t' end
      | None => None
      end
  end.

(** A well-formed document has one root element. *)
Definition single_root (doc : xmlDoc) : Prop :=
  length (filter (λ n, is_element n = true) (doc_children doc)) ≤ 1.

(** The part of the reader that decides where it goes. *)
Record cursor := Cursor {
  cur_node : option xmlNodePtr;
  cur_parent : option xmlNodePtr;
  cur_depth : Z
}.

Definition rd_cursor (xml : xml_rd) : cursor :=
  Cursor (rd_node xml) (rd_parent xml) (rd_depth xml).

Definition nav_skip (doc : xmlDoc) (node : option xmlNodePtr)
  : option xmlNodePtr :=
  skip_dummy_loop doc (skip_dummy_fuel doc node) node.

Definition nav_next (doc : xmlDoc) (c : cursor) : cursor :=
  match cur_node c with
  | Some p =>
      Cursor (nav_skip doc (xmlNode_next doc p)) (cur_parent c) (cur_depth c)
  | None => c
  end.

Definition nav_enter (doc : xmlDoc) (c : cursor) : cursor :=
  match cur_node c with
  | Some p =>
      Cursor (nav_skip doc (nav_skip doc (xmlNode_children doc p))) (Some p)
        (int_cast unsigned_int (cur_depth c + 1))
  | None => c
  end.

Definition nav_leave (c : cursor) : cursor :=
  if decide (0 < cur_depth c)%Z then
    Cursor (cur_parent c)
      (match cur_parent c with
       | Some q => xmlNode_parent q
       | None => None
       end)
      (cur_depth c - 1)
  else c.

Fixpoint nav_deep_next_loop (doc : xmlDoc) (fuel : nat) (c : cursor)
    (depth : Z) : cursor :=
  if bool_decide (cur_node c = None)
     && bool_decide (int_cast unsigned_int (depth + 1) < cur_depth c)%Z
  then
    match fuel with
    | 0 => c
    | S f => nav_deep_next_loop doc f (nav_next doc (nav_leave c)) depth
    end
  else c.

(** The loop of [xml_rd_deep_next] with the fuel [xml_rd_deep_next] gives
    it. *)
Definition nav_unwind (doc : xmlDoc) (c : cursor) (depth : Z) : cursor :=
  nav_deep_next_loop doc (Z.to_nat (cur_depth c)) c depth.

Definition nav_deep_next (doc : xmlDoc) (c : cursor) (depth : Z) : cursor :=
  nav_unwind doc (nav_enter doc c) depth.

Fixpoint nav_visit (doc : xmlDoc) (fuel : nat) (c : cursor) (depth : Z)
  : list xmlNodePtr :=
  match fuel with
  | 0 => []
  | S f =>
      match cur_node c with
      | None => []
      | Some p => p :: nav_visit doc f (nav_deep_next doc c depth) depth
      end
  end.

(** Walking the siblings [l] below the node at [q] with the cursor stops
    at their element nodes in document order, then goes on as from the end
    of the siblings. *)
Definition visits_forest (doc : xmlDoc) (floor : Z) (l : list xmlNode)
  : Prop :=
  ∀ (q : xmlNodePtr) (pre : list xmlNode) (m : nat),
    xml_children doc q = pre ++ l ->
    (0 ≤ floor < Z.of_nat (length q))%Z ->
    (∀ r, r ∈ elements_forest l (length pre) q ->
          (Z.of_nat (length r) ≤ UINT_MAX)%Z) ->
    nav_visit doc (length (elements_forest l (length pre) q) + m)
      (nav_unwind doc
         (Cursor ((λ j, j :: q) <$> first_element l (length pre)) (Some q)
            (Z.of_nat (length q))) floor) floor
    = elements_forest l (length pre) q
      ++ nav_visit doc m
           (nav_unwind doc (Cursor None (Some q) (Z.of_nat (length q))) floor)
           floor.

(** Induction on a node with its children. *)
Fixpoint xmlNode_forall (P : xmlNode -> Prop)
    (Helem : ∀ name ns cs, Forall P cs -> P (xmlElement name ns cs))
    (Hleaf : ∀ kind content, P (xmlLeaf kind content))
    (n : xmlNode) : P n :=
  match n with
  | xmlElement name ns cs =>
      Helem name ns cs
        ((fix go (l : list xmlNode) : Forall P l :=
            match l with
            | [] => @List.Forall_nil _ P
            | c :: l' =>
                @List.Forall_cons _ P c l' (xmlNode_forall P Helem Hleaf c)
                  (go l')
            end) cs)
  | xmlLeaf kind content => Hleaf kind content
  end.

(** ** Decimal numerals *)

Fixpoint all_digits (s : string) : bool :=
  match s with
  | String c s' => bool_decide (is_Some (digit_of c)) && all_digits s'
  | EmptyString => true
  end.

(** The number a string of digits denotes, continuing from [acc]. *)
Fixpoint digits_value (s : string) (acc : Z) : Z :=
  match s with
  | String c s' => digits_value s' (acc * 10 + default 0%Z (digit_of c))
  | EmptyString => acc
  end.

(** The text starts with something [strtoul] cannot begin a number with. *)
Definition no_number (s : string) : bool :=
  match s with
  | String c _ =>
      bool_decide (digit_of c = None) && negb (isspace c)
      && negb (Ascii.eqb c "+") && negb (Ascii.eqb c "-")
  | EmptyString => true
  end.

(** ** Entity substitution, character by character *)

(** The standard XML entity of a character, the character itself when it
    has none. *)
Definition xml_entity (c : ascii) : string :=
  match c with
  | "&"%char => "&amp;"
  | "<"%char => "&lt;"
  | ">"%char => "&gt;"
  | "034"%char => "&quot;"
  | "'"%char => "&apos;"
  | _ => String c ""
  end.

Fixpoint xml_escape (s : string) : string :=
  match s with
  | String c s' => xml_entity c +:+ xml_escape s'
  | EmptyString => ""
  end.

(** A C string holds no NUL character. *)
Fixpoint is_c_string (s : string) : bool :=
  match s with
  | String c s' => negb (Ascii.eqb c "000") && is_c_string s'
  | EmptyString => true
  end.

Fixpoint str_concat (l : list string) : string :=
  match l with
  | [] => ""
  | s :: l' => s +:+ str_concat l'
  end.

(** Attributes and namespace declarations, values copied as they are. *)
Definition attrs_verbatim (attrs : list xml_attr) : string :=
  str_concat
    ((λ a, " " +:+ attr_name a +:+ "=" +:+ quoted (attr_value a))
       <$> attrs).

Definition ns_verbatim (ns : list xml_ns) : string :=
  str_concat
    ((λ n, " xmlns:" +:+ xn_prefix n +:+ "=" +:+ quoted (xn_uri n)) <$> ns).

(** ** The writer scenario *)

Definition outcome_bind {A B} (o : outcome A) (f : A -> outcome B)
  : outcome B :=
  match o with
  | Done a => f a
  | Failed e => Failed e
  | Aborted => Aborted
  end.

(** [begin ("root", [])], [enter ("a")], [addLeaf ("b", "x")], [leave ()],
    [addLeaf ("c", "y")], [finish (compact)]. *)
Definition root_a_b_c (compact : bool) : outcome string :=
  let xml := xml_wr_begin "root" [] in
  let xml := xml_wr_enter xml "a" in
  let xml := xml_wr_add_text xml "b" (Some "x") in
  outcome_bind (xml_wr_leave xml) (λ xml,
    let xml := xml_wr_add_text xml "c" (Some "y") in
    Done (xml_wr_finish_internal xml compact)).

(** A text with the five special characters: [<a&b>], a double quote and
    an apostrophe. *)
Definition five_special : string := "<a&b>" +:+ String dquote "'".


(** ** Positions of the cursor *)

(** [p] points to an element node of the document. *)
Definition elem_at (doc : xmlDoc) (p : xmlNodePtr) : Prop :=
  ∃ n, xml_deref doc p = Some n ∧ is_element n = true.

(** The current node is an element node that lies deeper than the depth
    counter says; below depth 0 the parent is an element node too, and it
    is the parent of the current node. *)
Record cur_ok (doc : xmlDoc) (c : cursor) : Prop := CurOk {
  ok_depth : (0 ≤ cur_depth c)%Z;
  ok_node : ∀ p, cur_node c = Some p ->
      elem_at doc p ∧ (cur_depth c < Z.of_nat (length p))%Z
      ∧ ((0 < cur_depth c)%Z -> cur_parent c = xmlNode_parent p);
  ok_parent : (0 < cur_depth c)%Z ->
      ∃ q, cur_parent c = Some q ∧ elem_at doc q
           ∧ (cur_depth c ≤ Z.of_nat (length q))%Z
}.

(** The depth counter is the number of ancestors of the current node. *)
Definition cur_tight (c : cursor) : Prop :=
  (∀ p, cur_node c = Some p -> Z.of_nat (length p) = (cur_depth c + 1)%Z)
  ∧ ((0 < cur_depth c)%Z ->
     ∀ q, cur_parent c = Some q -> Z.of_nat (length q) = cur_depth c).

(** No element of the document is nested [2^32] deep. *)
Definition nesting_bound (doc : xmlDoc) : Prop :=
  ∀ p, p ∈ doc_elements doc -> (Z.of_nat (length p) ≤ UINT_MAX)%Z.

(** A reader whose cursor is in order; with [bound], on a document nested
    less than [2^32] deep, where the depth counter is exact. *)
Definition rd_pos (bound : bool) (xml : xml_rd) : Prop :=
  cur_ok (rd_doc xml) (rd_cursor xml)
  ∧ (bound = true ->
     nesting_bound (rd_doc xml) ∧ cur_tight (rd_cursor xml)).

(** ** Paths *)

(** The path of the children of the node at [q]: the qualified names of
    the node and of its ancestors, outermost first, a slash after each. *)
Fixpoint dir_path (fnmatch : string -> string -> Z -> Z) (xml : xml_rd)
    (q : xmlNodePtr) : string :=
  match q with
  | [] => ""
  | i :: q' =>
      dir_path fnmatch xml q' +:+ qualified_name fnmatch xml (i :: q') +:+ "/"
  end.

(** The path of the node at [p]: the qualified names of its ancestors and
    its own, outermost first, separated by slashes. *)
Definition node_path (fnmatch : string -> string -> Z -> Z) (xml : xml_rd)
    (p : xmlNodePtr) : string :=
  match p with
  | [] => ""
  | _ :: q => dir_path fnmatch xml q +:+ qualified_name fnmatch xml p
  end.

(** The node whose children the reader iterates: the parent below depth
    0, the document at depth 0. *)
Definition rd_dir (xml : xml_rd) : xmlNodePtr :=
  if decide (rd_depth xml = 0%Z) then [] else default [] (rd_parent xml).

(** Entry [k] of the stack of path lengths is the length of the path of
    the children of the ancestor at depth [k]. *)
Definition stack_inv (fnmatch : string -> string -> Z -> Z) (xml : xml_rd)
  : Prop :=
  ∀ k, (Z.of_nat k < rd_depth xml)%Z ->
       rd_pathlen xml !!! k
       = String.length
           (dir_path fnmatch xml
              (drop (Z.to_nat (rd_depth xml) - 1 - k) (rd_dir xml))).

Definition path_inv (fnmatch : string -> string -> Z -> Z) (xml : xml_rd)
  : Prop :=
  stack_inv fnmatch xml
  ∧ rd_path xml
    = dir_path fnmatch xml (rd_dir xml)
      +:+ from_option (qualified_name fnmatch xml) "" (rd_node xml).

(** All that holds of a reader on a document nested less than [2^32]
    deep. *)
Definition rd_full (fnmatch : string -> string -> Z -> Z) (xml : xml_rd)
  : Prop :=
  rd_inv fnmatch xml ∧ rd_pos true xml ∧ path_inv fnmatch xml.

(** ** Iterating the children of a node *)

(** The nodes a loop [for (; !xml_rd_end (xml); xml_rd_next (xml))] stops
    at, for at most [fuel] rounds. *)
Fixpoint rd_scan (fnmatch : string -> string -> Z -> Z) (fuel : nat)
    (xml : xml_rd) : list xmlNodePtr :=
  match fuel with
  | 0 => []
  | S f =>
      match rd_node xml with
      | None => []
      | Some p => p :: rd_scan fnmatch f (xml_rd_next fnmatch xml)
      end
  end.

Fixpoint nav_scan (doc : xmlDoc) (fuel : nat) (c : cursor)
  : list xmlNodePtr :=
  match fuel with
  | 0 => []
  | S f =>
      match cur_node c with
      | None => []
      | Some p => p :: nav_scan doc f (nav_next doc c)
      end
  end.

(** The positions of the element nodes among the siblings [l], the first
    of which is child number [i]. *)
Fixpoint element_indices (l : list xmlNode) (i : nat) : list nat :=
  match l with
  | [] => []
  | c :: l' =>
      if is_element c then i :: element_indices l' (S i)
      else element_indices l' (S i)
  end.

(** ** Capacities *)

(** The entries of the substitution cache fit its allocation. *)
Definition cache_fits (xml : xml_rd) : Prop :=
  length (rd_subst_cache xml) ≤ rd_subst_cache_cap xml.

(** ** White space around a number *)

Fixpoint all_space (s : string) : bool :=
  match s with
  | String c s' => g_ascii_isspace c && all_space s'
  | EmptyString => true
  end.

(** ** Resuming a traversal *)

(** The element nodes that come after the subtree of the node at [q],
    inside the subtree of its ancestor at depth [floor], in document
    order: the following siblings of the node with what is below them,
    then those of its parent, and so on up to depth [floor]. *)
Fixpoint elements_after (doc : xmlDoc) (floor : nat) (q : xmlNodePtr)
  : list xmlNodePtr :=
  match q with
  | [] => []
  | j :: q' =>
      if decide (length q' ≤ floor) then []
      else elements_forest (drop (S j) (xml_children doc q')) (S j) q'
           ++ elements_after doc floor q'
  end.

(** ** Sequences of writer operations *)

(** [xml_wr_add_text_attr] (and, with the text they make, the calls for
    numbers and booleans), [xml_wr_enter_attr] and [xml_wr_leave]. *)
Inductive wr_op :=
  | WrAdd (name : string) (value : option string)
      (attrs : option (list xml_attr))
  | WrEnter (name : string) (attrs : option (list xml_attr))
  | WrLeave.

Definition wr_step (xml : xml_wr) (op : wr_op) : outcome xml_wr :=
  match op with
  | WrAdd name value attrs => Done (xml_wr_add_text_attr xml name value attrs)
  | WrEnter name attrs => Done (xml_wr_enter_attr xml name attrs)
  | WrLeave => xml_wr_leave xml
  end.

(** The writer after the calls [ops], in order. *)
Fixpoint wr_run (xml : xml_wr) (ops : list wr_op) : outcome xml_wr :=
  match ops with
  | [] => Done xml
  | op :: ops' => outcome_bind (wr_step xml op) (λ xml', wr_run xml' ops')
  end.

(** The number of nodes that are open after the calls [ops], starting
    with [d] open nodes; none when a call leaves with no node open. *)
Fixpoint wr_depth (d : nat) (ops : list wr_op) : option nat :=
  match ops with
  | [] => Some d
  | WrAdd _ _ _ :: ops' => wr_depth d ops'
  | WrEnter _ _ :: ops' => wr_depth (S d) ops'
  | WrLeave :: ops' =>
      match d with
      | 0 => None
      | S d' => wr_depth d' ops'
      end
  end.

(** ** The tree of a writer *)

(** No node of the tree has both a value and children. *)
Fixpoint wn_wf (n : xml_wr_node) : bool :=
  match n with
  | XmlWrNode _ value _ children =>
      match value, children with
      | Some _, _ :: _ => false
      | _, _ => true
      end && forallb wn_wf children
  end.

(** The number of levels of the tree. *)
Fixpoint wn_height (n : xml_wr_node) : nat :=
  match n with
  | XmlWrNode _ _ _ children => S (foldr Nat.max 0 (wn_height <$> children))
  end.

(** The values of the tree are C strings. *)
Fixpoint wn_c_strings (n : xml_wr_node) : bool :=
  match n with
  | XmlWrNode _ value _ children =>
      from_option is_c_string true value && forallb wn_c_strings children
  end.

(** ** The document of a tree *)

Definition indent (level : nat) : string :=
  Nat.iter level (λ s, s +:+ "  ") "".

Definition line_end (compact : bool) : string :=
  if compact then "" else String newline "".

(** The text of a node, the children of which are listed newest first:
    the open tag with the declarations [decl] and the attributes, then
    the escaped value or, on lines of their own unless [compact], the
    children, oldest first, and the closing tag. *)
Fixpoint wn_render (compact : bool) (decl : string) (level : nat)
    (n : xml_wr_node) : string :=
  match n with
  | XmlWrNode name value attrs children =>
      (if compact then "" else indent level)
      +:+ "<" +:+ name +:+ decl +:+ from_option attrs_verbatim "" attrs
      +:+ ">"
      +:+ match children with
          | [] =>
              from_option xml_escape "" value
              +:+ "</" +:+ name +:+ ">" +:+ line_end compact
          | _ :: _ =>
              line_end compact
              +:+ str_concat (rev (wn_render compact "" (S level) <$> children))
              +:+ (if compact then "" else indent level)
              +:+ "</" +:+ name +:+ ">"
              +:+ (if level is 0 then "" else line_end compact)
          end
  end.

(** Induction on a writer node with its children. *)
Fixpoint xml_wr_node_forall (P : xml_wr_node -> Prop)
    (Hnode : ∀ name value attrs cs,
        Forall P cs -> P (XmlWrNode name value attrs cs))
    (n : xml_wr_node) : P n :=
  match n with
  | XmlWrNode name value attrs cs =>
      Hnode name value attrs cs
        ((fix go (l : list xml_wr_node) : Forall P l :=
            match l with
            | [] => @List.Forall_nil _ P
            | c :: l' =>
                @List.Forall_cons _ P c l' (xml_wr_node_forall P Hnode c)
                  (go l')
            end) cs)
  end.

(** What [xml_wr_format_node] appends for a node whose children have been
    put in order by [xml_wr_revert_children]. *)
Definition renders (compact : bool) (n : xml_wr_node) : Prop :=
  ∀ (ns : list xml_ns) (buf : string) (level : nat),
    (Z.of_nat (level + wn_height n) ≤ 2 ^ 32)%Z ->
    wn_c_strings n = true ->
    xml_wr_format_node ns buf (xml_wr_revert_children n) (Z.of_nat level)
      compact
    = buf +:+ wn_render compact (if level is 0 then ns_verbatim ns else "")
                level n.

(** The current node and the nodes above it have no value; no node has
    both a value and children. *)
Definition wr_wf (xml : xml_wr) : Prop :=
  wn_wf (wr_current xml) = true ∧ wn_value (wr_current xml) = None
  ∧ Forall (λ p, wn_wf p = true ∧ wn_value p = None) (wr_parents xml).

(** ** Markup characters in a text *)

(** [c] occurs in [s]. *)
Fixpoint str_mem (c : ascii) (s : string) : bool :=
  match s with
  | String d s' => Ascii.eqb c d || str_mem c s'
  | EmptyString => false
  end.

(** [s] begins with [p]. *)
Fixpoint begins_with (p s : string) : bool :=
  match p, s with
  | EmptyString, _ => true
  | String a p', String b s' => Ascii.eqb a b && begins_with p' s'
  | String _ _, EmptyString => false
  end.

(** Every ampersand of [s] begins one of the five entities. *)
Fixpoint amp_ok (s : string) : bool :=
  match s with
  | String c s' =>
      (if Ascii.eqb c "&" then
         begins_with "amp;" s' || begins_with "lt;" s'
         || begins_with "gt;" s' || begins_with "quot;" s'
         || begins_with "apos;" s'
       else true) && amp_ok s'
  | EmptyString => true
  end.

(** ** Sample collaborators and documents *)

(** A small shell-style matcher: [*] matches any run of characters, [?]
    any single character. *)
Fixpoint glob (p : string) : string -> bool :=
  match p with
  | EmptyString => λ s, bool_decide (s = "")
  | String "*" p' =>
      fix star (s : string) : bool :=
        glob p' s || match s with String _ s' => star s' | EmptyString => false end
  | String "?" p' =>
      λ s, match s with String _ s' => glob p' s' | EmptyString => false end
  | String c p' =>
      λ s, match s with
           | String d s' => bool_decide (c = d) && glob p' s'
           | EmptyString => false
           end
  end.

Definition sample_fnmatch (pattern s : string) (flags : Z) : Z :=
  if glob pattern s then 0%Z else 1%Z.

(** A parser that knows the documents of a table. *)
Fixpoint table_parse (table : list (string * xmlDoc)) (text : string)
    (len : nat) : option xmlDoc :=
  match table with
  | [] => None
  | (t, doc) :: table' =>
      if String.eqb t (string_take len text) then Some doc
      else table_parse table' text len
  end.

Definition urn_x_1 : xmlNs := XmlNs "urn:x:1" (Some "a").

(** [<a:Foo xmlns:a="urn:x:1"><a:Bar>42</a:Bar></a:Foo>] *)
Definition foo_bar_text : string :=
  "<a:Foo xmlns:a=" +:+ quoted "urn:x:1" +:+ "><a:Bar>42</a:Bar></a:Foo>".

Definition foo_bar_doc : xmlDoc :=
  XmlDoc
    [xmlElement "Foo" (Some urn_x_1)
       [xmlElement "Bar" (Some urn_x_1) [xmlLeaf LeafText "42"]]].

Definition scan_rules : list xml_ns := [XmlNsRule "scan" "urn:x:*"].

(** One namespace under two prefixes:
    [<a:x xmlns:a="urn:y"><b:y xmlns:b="urn:y"/></a:x>] *)
Definition two_prefix_text : string :=
  "<a:x xmlns:a=" +:+ quoted "urn:y" +:+ "><b:y xmlns:b=" +:+ quoted "urn:y"
  +:+ "/></a:x>".

Definition two_prefix_doc : xmlDoc :=
  XmlDoc
    [xmlElement "x" (Some (XmlNs "urn:y" (Some "a")))
       [xmlElement "y" (Some (XmlNs "urn:y" (Some "b"))) []]].

(** A negative number: [<n>-18446744073709551615</n>] *)
Definition negative_text : string := "<n>-18446744073709551615</n>".

Definition negative_doc : xmlDoc :=
  XmlDoc [xmlElement "n" None [xmlLeaf LeafText "-18446744073709551615"]].

(** What the writer makes of [addUint ("n", 42)] under the root. *)
Definition uint_42_wr : xml_wr := xml_wr_add_uint (xml_wr_begin "root" []) "n" 42.

Definition uint_42_doc : xmlDoc :=
  XmlDoc [xmlElement "root" None [xmlElement "n" None [xmlLeaf LeafText "42"]]].

(** [<r><a><b/></a><!-- --><c/></r>] *)
Definition r_a_b_c_text : string := "<r><a><b/></a><!-- --><c/></r>".

Definition r_a_b_c_doc : xmlDoc :=
  XmlDoc
    [xmlElement "r" None
       [xmlElement "a" None [xmlElement "b" None []];
        xmlLeaf LeafComment " ";
        xmlElement "c" None []]].

Definition sample_parse : string -> nat -> option xmlDoc :=
  table_parse
    [(foo_bar_text, foo_bar_doc);
     (two_prefix_text, two_prefix_doc);
     (negative_text, negative_doc);
     (xml_wr_finish_compact uint_42_wr, uint_42_doc);
     (r_a_b_c_text, r_a_b_c_doc)].

Definition empty_rd : xml_rd :=
  XmlRd (XmlDoc []) None None None "" [] 0 None 0 None [] 0.

(** The reader [xml_rd_begin] returns for a sample text. *)
Definition sample_begin (text : string) (rules : option (list xml_ns))
  : xml_rd :=
  match xml_rd_begin sample_fnmatch sample_parse text (String.length text)
          rules with
  | inr xml => xml
  | inl _ => empty_rd
  end.

Definition foo_bar_rd : xml_rd :=
  Eval vm_compute in sample_begin foo_bar_text (Some scan_rules).

Definition two_prefix_rd : xml_rd :=
  Eval vm_compute in sample_begin two_prefix_text (Some scan_rules).

Definition negative_rd : xml_rd :=
  Eval vm_compute in sample_begin negative_text None.

Definition uint_42_rd : xml_rd :=
  Eval vm_compute in sample_begin (xml_wr_finish_compact uint_42_wr) None.

Definition r_a_b_c_rd : xml_rd :=
  Eval vm_compute in sample_begin r_a_b_c_text None.

Definition int32 : int_type := IntType true 32.
Definition uint32 : int_type := IntType false 32.

(** A reader on the root element [<n>s</n>]. *)
Definition leaf_rd (s : string) : xml_rd :=
  XmlRd (XmlDoc [xmlElement "n" None [xmlLeaf LeafText s]]) (Some [0]) None
    (Some 0) "n" (replicate 8 0) 8 None 0 None [] 0.

(** A formatter stand-in: one line per top-level node. *)
Definition sample_dump (doc : xmlDoc) (format : Z) : string * Z :=
  let out := str_concat ((λ _, "<node/>") <$> doc_children doc) in
  (out, Z.of_nat (String.length out)).

(** A number between spaces: [<n> 42 </n>] *)
Definition spaced_text : string := "<n> 42 </n>".

Definition spaced_doc : xmlDoc :=
  XmlDoc [xmlElement "n" None [xmlLeaf LeafText " 42 "]].

Definition spaced_parse : string -> nat -> option xmlDoc :=
  table_parse [(spaced_text, spaced_doc)].

Definition spaced_rd : xml_rd :=
  Eval vm_compute in
    match xml_rd_begin sample_fnmatch spaced_parse spaced_text
            (String.length spaced_text) None with
    | inr xml => xml
    | inl _ => empty_rd
    end.

(** [enter ("a")], [addLeaf ("b", "x")], [leave ()], [addLeaf ("c", "y")]
    and the writer they make of [begin ("root", [])]. *)
Definition wr_sample_ops : list wr_op :=
  [WrEnter "a" None; WrAdd "b" (Some "x") None; WrLeave;
   WrAdd "c" (Some "y") None].

Definition wr_sample : xml_wr :=
  Eval vm_compute in
    match wr_run (xml_wr_begin "root" []) wr_sample_ops with
    | Done xml => xml
    | _ => xml_wr_begin "root" []
    end.

(** * Properties *)

Section Properties.

Context (fnmatch : string -> string -> Z -> Z).
Context (xmlParseMemory : string -> nat -> option xmlDoc).
Context (xmlDocDumpFormatMemory : xmlDoc -> Z -> string * Z).

Local Abbreviation lookup := (xml_rd_ns_subst_lookup fnmatch).
Local Abbreviation switched := (xml_rd_node_switched fnmatch).
Local Abbreviation rd_begin := (xml_rd_begin fnmatch xmlParseMemory).
Local Abbreviation rd_next := (xml_rd_next fnmatch).
Local Abbreviation rd_enter := (xml_rd_enter fnmatch).
Local Abbreviation rd_leave := (xml_rd_leave fnmatch).
Local Abbreviation rd_deep_next := (xml_rd_deep_next fnmatch).
Local Abbreviation run := (rd_run fnmatch).

(** *** Strings *)

Lemma str_app_cons (c : ascii) (s t : string) :
  String c s +:+ t = String c (s +:+ t).
Proof. reflexivity. Qed.

Lemma str_app_nil_l (s : string) : "" +:+ s = s.
Proof. reflexivity. Qed.

Lemma str_app_nil_r (s : string) : s +:+ "" = s.
Proof. induction s as [|c s IH]; [done|]. by rewrite str_app_cons, IH. Qed.

Lemma str_app_assoc (a b c : string) : (a +:+ b) +:+ c = a +:+ (b +:+ c).
Proof.
  induction a as [|x a IH]; [done|]. by rewrite !str_app_cons, IH.
Qed.

Lemma str_length_app (a b : string) :
  String.length (a +:+ b) = String.length a + String.length b.
Proof.
  induction a as [|x a IH]; [done|]. rewrite str_app_cons. simpl. by rewrite IH.
Qed.

Lemma string_take_length (n : nat) (s : string) :
  n ≤ String.length s -> String.length (string_take n s) = n.
Proof.
  revert s. induction n as [|n IH]; intros [|c s] Hn; simpl in *; try done.
  - lia.
  - rewrite IH; [done|lia].
Qed.

Lemma string_take_app (a b : string) :
  string_take (String.length a) (a +:+ b) = a.
Proof.
  induction a as [|x a IH]; simpl.
  - by destruct b.
  - by rewrite IH.
Qed.

Lemma string_take_app_le (n : nat) (a b : string) :
  n ≤ String.length a -> string_take n (a +:+ b) = string_take n a.
Proof.
  revert a. induction n as [|n IH]; intros [|x a] Hn; simpl in *; try done.
  - lia.
  - by rewrite IH by lia.
Qed.

Lemma string_drop_app (a b : string) :
  string_drop (String.length a) (a +:+ b) = b.
Proof. induction a as [|x a IH]; simpl; [by destruct b|done]. Qed.

Lemma string_take_take_app (n : nat) (s t : string) :
  n ≤ String.length s ->
  string_take n (string_take n s +:+ t) = string_take n s.
Proof.
  intros Hn. rewrite <- (string_take_length n s Hn) at 1.
  apply string_take_app.
Qed.

(** *** The substitution cache *)

Lemma subst_cache_find_first (cache : list xml_ns) (href : string) e :
  subst_cache_find cache href = Some e ->
  ∃ i, first_at (λ e, xn_uri e = href) cache i e.
Proof.
  induction cache as [|x cache IH]; simpl; [done|].
  destruct (String.eqb_spec href (xn_uri x)) as [Heq|Hne].
  - intros [= <-]. exists 0. split; [done|]. split; [done|]. intros; lia.
  - intros [i (Hi & HP & Hmin)]%IH. exists (S i).
    split; [done|]. split; [done|].
    intros [|j] y Hj Hy; simpl in Hy.
    + injection Hy as <-. congruence.
    + apply (Hmin j); [lia|done].
Qed.

Lemma subst_cache_find_None (cache : list xml_ns) (href : string) :
  subst_cache_find cache href = None <->
  ∀ e, e ∈ cache -> xn_uri e ≠ href.
Proof.
  induction cache as [|x cache IH]; simpl.
  - split; [|done]. intros _ e He. by apply elem_of_nil in He.
  - destruct (String.eqb_spec href (xn_uri x)) as [Heq|Hne].
    + split; [done|]. intros H. exfalso. apply (H x); [left|done].
    + rewrite IH. split.
      * intros H e [->|He]%elem_of_cons; [congruence|by apply H].
      * intros H e He. apply H. by right.
Qed.

Lemma first_at_unique {A} (P : A -> Prop) (l : list A) i x j y :
  first_at P l i x -> first_at P l j y -> i = j ∧ x = y.
Proof.
  intros (Hi & Px & Hmi) (Hj & Py & Hmj).
  assert (i = j) as ->.
  { destruct (Nat.lt_trichotomy i j) as [Hlt|[->|Hlt]]; [|done|].
    - exfalso. by apply (Hmj i x).
    - exfalso. by apply (Hmi j y). }
  split; [done|congruence].
Qed.

Lemma subst_rules_find_first (rules : list xml_ns) (href : string) r :
  subst_rules_find fnmatch rules href = Some r ->
  ∃ i, first_at (λ r, fnmatch (xn_uri r) href 0 = 0%Z) rules i r.
Proof.
  induction rules as [|x rules IH]; simpl; [done|].
  destruct (Z.eqb_spec (fnmatch (xn_uri x) href 0) 0) as [Heq|Hne].
  - intros [= <-]. exists 0. split; [done|]. split; [done|]. intros; lia.
  - intros [i (Hi & HP & Hmin)]%IH. exists (S i).
    split; [done|]. split; [done|].
    intros [|j] y Hj Hy; simpl in Hy.
    + injection Hy as <-. congruence.
    + apply (Hmin j); [lia|done].
Qed.

Lemma subst_rules_find_None (rules : list xml_ns) (href : string) :
  subst_rules_find fnmatch rules href = None <->
  ∀ r, r ∈ rules -> fnmatch (xn_uri r) href 0 ≠ 0%Z.
Proof.
  induction rules as [|x rules IH]; simpl.
  - split; [|done]. intros _ e He. by apply elem_of_nil in He.
  - destruct (Z.eqb_spec (fnmatch (xn_uri x) href 0) 0) as [Heq|Hne].
    + split; [done|]. intros H. exfalso. apply (H x); [left|done].
    + rewrite IH. split.
      * intros H e [->|He]%elem_of_cons; [congruence|by apply H].
      * intros H e He. apply H. by right.
Qed.

(** C5: [xml_rd_ns_subst_lookup] without a rule set returns the document's
    prefix unchanged.  With rules it returns the prefix of the first cache
    entry whose URI is [href]; without such an entry it takes the first
    rule, in declaration order, whose pattern matches [href], appends the
    entry ([href], prefix of the rule) to the cache and returns that
    prefix; when no rule matches it returns the document's prefix and
    leaves the reader, and so the cache, as it was. *)
Theorem xml_rd_ns_subst_lookup_spec (xml : xml_rd) (prefix : option string)
    (href : string) :
  (rd_subst_rules xml = None -> lookup xml prefix href = (xml, prefix))
  ∧ (∀ rules, rd_subst_rules xml = Some rules ->
       (∀ i e, first_at (λ e, xn_uri e = href) (rd_subst_cache xml) i e ->
               lookup xml prefix href = (xml, Some (xn_prefix e)))
       ∧ ((∀ e, e ∈ rd_subst_cache xml -> xn_uri e ≠ href) ->
            (∀ i r,
               first_at (λ r, fnmatch (xn_uri r) href 0 = 0%Z) rules i r ->
               snd (lookup xml prefix href) = Some (xn_prefix r)
               ∧ ∃ cap,
                   fst (lookup xml prefix href)
                   = set_subst_cache
                       (rd_subst_cache xml ++ [XmlNsRule (xn_prefix r) href])
                       cap xml)
            ∧ ((∀ r, r ∈ rules -> fnmatch (xn_uri r) href 0 ≠ 0%Z) ->
               lookup xml prefix href = (xml, prefix)))).
Proof.
  unfold xml_rd_ns_subst_lookup. split.
  { by intros ->. }
  intros rules ->. split.
  - intros i e Hfirst.
    destruct (subst_cache_find (rd_subst_cache xml) href) as [e'|] eqn:Hfind.
    + apply subst_cache_find_first in Hfind as [i' Hfirst'].
      by destruct (first_at_unique _ _ _ _ _ _ Hfirst Hfirst') as [_ ->].
    + destruct Hfirst as (Hi & He & _).
      rewrite subst_cache_find_None in Hfind.
      exfalso. apply (Hfind e); [|done]. by eapply list_elem_of_lookup_2.
  - intros Hmiss. apply subst_cache_find_None in Hmiss. rewrite Hmiss. split.
    + intros i r Hfirst.
      destruct (subst_rules_find fnmatch rules href) as [r'|] eqn:Hfind.
      * apply subst_rules_find_first in Hfind as [i' Hfirst'].
        destruct (first_at_unique _ _ _ _ _ _ Hfirst Hfirst') as [_ ->].
        simpl. split; [done|]. eauto.
      * destruct Hfirst as (Hi & Hr & _).
        rewrite subst_rules_find_None in Hfind.
        exfalso. apply (Hfind r); [|done]. by eapply list_elem_of_lookup_2.
    + intros Hnone. apply subst_rules_find_None in Hnone. by rewrite Hnone.
Qed.

(** With a valid cache the lookup computes [subst_prefix], keeps the cache
    valid and free of duplicates, and touches nothing but the cache. *)
Lemma lookup_correct (xml : xml_rd) (prefix : option string) (href : string) :
  cache_valid fnmatch (rd_subst_rules xml) (rd_subst_cache xml) ->
  NoDup (xn_uri <$> rd_subst_cache xml) ->
  let xml' := fst (lookup xml prefix href) in
  snd (lookup xml prefix href)
  = subst_prefix fnmatch (rd_subst_rules xml) prefix href
  ∧ cache_valid fnmatch (rd_subst_rules xml) (rd_subst_cache xml')
  ∧ NoDup (xn_uri <$> rd_subst_cache xml')
  ∧ xml' = set_subst_cache (rd_subst_cache xml') (rd_subst_cache_cap xml') xml.
Proof.
  intros Hvalid Hnodup. unfold xml_rd_ns_subst_lookup, subst_prefix.
  destruct xml as [doc node parent name path pathlen cap text depth rules
                     cache ccap]; simpl in *.
  destruct rules as [rules|]; simpl; [|done].
  destruct (subst_cache_find cache href) as [e|] eqn:Hfind; simpl.
  - apply subst_cache_find_first in Hfind as [i (Hi & He & _)].
    pose proof (proj1 (Forall_lookup _ _) Hvalid i e Hi) as (r & Hr & Hpre).
    simpl in He. subst href. by rewrite Hr, Hpre.
  - destruct (subst_rules_find fnmatch rules href) as [r|] eqn:Hrule;
      simpl; [|done].
    split; [done|]. split; [|split; [|done]].
    + apply Forall_app. split; [done|]. apply Forall_singleton. eauto.
    + rewrite fmap_app. apply NoDup_app. split; [done|]. split.
      * intros u (e & -> & He)%list_elem_of_fmap [Heq|Hin]%elem_of_cons.
        -- rewrite subst_cache_find_None in Hfind. by apply (Hfind e).
        -- by apply elem_of_nil in Hin.
      * apply NoDup_singleton.
Qed.

Lemma lookup_rules (xml : xml_rd) (prefix : option string) (href : string) :
  rd_subst_rules (fst (lookup xml prefix href)) = rd_subst_rules xml.
Proof.
  unfold xml_rd_ns_subst_lookup.
  destruct (rd_subst_rules xml) eqn:E; [|done].
  destruct (subst_cache_find _ _); [done|].
  by destruct (subst_rules_find _ _ _).
Qed.

(** *** Invariants of the reader *)

Lemma int_cast_unsigned_int (v : Z) :
  int_cast unsigned_int v = (v mod 2 ^ 32)%Z.
Proof. reflexivity. Qed.

Lemma switched_inv (xml : xml_rd) :
  rd_pre fnmatch xml -> rd_inv fnmatch (switched xml).
Proof.
  intros [Hc Hn Hcap Hd Hu Hs Hb].
  destruct xml as [doc node parent name path pathlen cap text depth rules
                     cache ccap].
  unfold xml_rd_node_switched, base_len in *. simpl in *.
  set (pl := if decide (depth = 0%Z) then 0
             else pathlen !!! Z.to_nat (depth - 1)) in *.
  destruct node as [p|]; simpl.
  - set (x0 := set_path _ (xml_rd_node_invalidate_value _)).
    assert (∃ c cc pfx,
      match rd_node_ns x0 p with
      | Some ns => lookup x0 (ns_prefix ns) (ns_href ns)
      | None => (x0, None)
      end = (set_subst_cache c cc x0, pfx)
      ∧ cache_valid fnmatch rules c ∧ NoDup (xn_uri <$> c)
      ∧ pfx = match rd_node_ns x0 p with
              | Some ns => subst_prefix fnmatch rules (ns_prefix ns) (ns_href ns)
              | None => None
              end) as (c & cc & pfx & -> & Hc' & Hn' & Hpfx).
    { destruct (rd_node_ns x0 p) as [ns|].
      - destruct (lookup_correct x0 (ns_prefix ns) (ns_href ns) Hc Hn)
          as (Hr & Hv & Hnd & Hfr).
        destruct (lookup x0 (ns_prefix ns) (ns_href ns)) as [x1 r].
        simpl in *. exists (rd_subst_cache x1), (rd_subst_cache_cap x1), r.
        by rewrite <- Hfr.
      - exists cache, ccap, None. done. }
    assert (String.length (g_string_truncate path pl) = pl) as Hlen
      by (by apply string_take_length).
    destruct pfx as [pfx|]; simpl.
    + split; [split; simpl; try done|..]; simpl;
        change (base_len _) with pl;
        unfold g_string_append, g_string_append_c, qualified_name;
        change (rd_node_name _ p) with (rd_node_name x0 p).
      * rewrite !str_length_app, Hlen. lia.
      * change (rd_node_ns _ p) with (rd_node_ns x0 p).
        change (rd_subst_rules _) with rules.
        destruct (rd_node_ns x0 p) as [ns|]; [|done].
        rewrite <- Hpfx. rewrite !str_app_assoc.
        rewrite <- Hlen at 2. by rewrite string_take_app.
      * done.
    + split; [split; simpl; try done|..]; simpl;
        change (base_len _) with pl;
        unfold g_string_append, g_string_append_c, qualified_name;
        change (rd_node_name _ p) with (rd_node_name x0 p).
      * rewrite !str_length_app, Hlen. lia.
      * change (rd_node_ns _ p) with (rd_node_ns x0 p).
        change (rd_subst_rules _) with rules.
        destruct (rd_node_ns x0 p) as [ns|]; rewrite <- ?Hpfx;
          rewrite str_app_nil_l; rewrite <- Hlen at 2;
          by rewrite string_take_app.
      * done.
  - assert (String.length (g_string_truncate path pl) = pl) as Hlen
      by (by apply string_take_length).
    split; [split; simpl; try done|..]; simpl; change (base_len _) with pl.
    + lia.
    + rewrite str_app_nil_r. unfold g_string_truncate.
      rewrite <- (str_app_nil_r (string_take pl path)) at 2.
      by rewrite string_take_take_app.
    + done.
Qed.

(** The path and the name after [xml_rd_node_switched], from the reader
    before it. *)
Lemma switched_path (xml : xml_rd) :
  rd_pre fnmatch xml ->
  rd_path (switched xml)
  = string_take (base_len xml) (rd_path xml)
    +:+ from_option (qualified_name fnmatch xml) "" (rd_node xml)
  ∧ rd_name (switched xml) = (λ _, base_len xml) <$> rd_node xml.
Proof.
  intros [Hc Hn Hcap Hd Hu Hs Hb].
  destruct xml as [doc node parent name path pathlen cap text depth rules
                     cache ccap].
  unfold xml_rd_node_switched, base_len in *. simpl in *.
  set (pl := if decide (depth = 0%Z) then 0
             else pathlen !!! Z.to_nat (depth - 1)) in *.
  destruct node as [p|]; simpl; [|by rewrite str_app_nil_r].
  set (x0 := set_path _ (xml_rd_node_invalidate_value _)).
  unfold qualified_name.
  change (rd_node_ns (XmlRd _ _ _ _ _ _ _ _ _ _ _ _) p)
    with (rd_node_ns x0 p).
  change (rd_node_name (XmlRd _ _ _ _ _ _ _ _ _ _ _ _) p)
    with (rd_node_name x0 p).
  change (rd_subst_rules (XmlRd _ _ _ _ _ _ _ _ _ _ _ _)) with rules.
  destruct (rd_node_ns x0 p) as [ns|].
  - destruct (lookup_correct x0 (ns_prefix ns) (ns_href ns) Hc Hn)
      as (Hr & _ & _ & Hfr).
    destruct (lookup x0 (ns_prefix ns) (ns_href ns)) as [x1 r].
    simpl in Hr, Hfr. rewrite Hfr. rewrite <- Hr.
    destruct r as [pfx|]; simpl.
    + unfold g_string_append, g_string_append_c, g_string_truncate.
      change (rd_node_name _ p) with (rd_node_name x0 p).
      by rewrite !str_app_assoc.
    + done.
  - simpl. done.
Qed.

Lemma qualified_name_ext (x y : xml_rd) (p : xmlNodePtr) :
  rd_doc x = rd_doc y -> rd_subst_rules x = rd_subst_rules y ->
  qualified_name fnmatch x p = qualified_name fnmatch y p.
Proof.
  intros Hd Hr. unfold qualified_name, rd_node_ns, rd_node_name.
  by rewrite Hd, Hr.
Qed.

Lemma lookup_frame (xml : xml_rd) (prefix : option string) (href : string) :
  ∃ c cc, fst (lookup xml prefix href) = set_subst_cache c cc xml.
Proof.
  unfold xml_rd_ns_subst_lookup.
  assert (xml = set_subst_cache (rd_subst_cache xml) (rd_subst_cache_cap xml)
                  xml) as Heta by (by destruct xml).
  destruct (rd_subst_rules xml); [|by eauto].
  destruct (subst_cache_find _ _); [by eauto|].
  destruct (subst_rules_find _ _ _); simpl; eauto.
Qed.

(** [xml_rd_node_switched] moves nothing: document, node, parent, depth,
    path-length stack and rules stay. *)
Lemma switched_frame (xml : xml_rd) :
  let xml' := switched xml in
  rd_doc xml' = rd_doc xml ∧ rd_node xml' = rd_node xml
  ∧ rd_parent xml' = rd_parent xml ∧ rd_depth xml' = rd_depth xml
  ∧ rd_pathlen xml' = rd_pathlen xml
  ∧ rd_pathlen_cap xml' = rd_pathlen_cap xml
  ∧ rd_subst_rules xml' = rd_subst_rules xml
  ∧ rd_text xml' = None.
Proof.
  unfold xml_rd_node_switched.
  destruct xml as [doc node parent name path pathlen cap text depth rules
                     cache ccap]; simpl.
  destruct node as [p|]; simpl; [|done].
  set (x0 := set_path _ (xml_rd_node_invalidate_value _)).
  destruct (rd_node_ns x0 p) as [ns|].
  - destruct (lookup_frame x0 (ns_prefix ns) (ns_href ns)) as (c & cc & Hfr).
    destruct (lookup x0 (ns_prefix ns) (ns_href ns)) as [x1 [pfx|]];
      simpl in Hfr; subst x1; done.
  - done.
Qed.

Lemma rd_pre_set_node (xml : xml_rd) (n : option xmlNodePtr) :
  rd_pre fnmatch xml -> rd_pre fnmatch (set_node n xml).
Proof. by intros []. Qed.

Lemma rd_pre_skip_dummy (xml : xml_rd) :
  rd_pre fnmatch xml -> rd_pre fnmatch (xml_rd_skip_dummy xml).
Proof. apply rd_pre_set_node. Qed.

Lemma next_inv (xml : xml_rd) :
  rd_inv fnmatch xml -> rd_inv fnmatch (rd_next xml).
Proof.
  intros Hinv. unfold xml_rd_next. destruct (rd_node xml) as [p|]; [|done].
  apply switched_inv, rd_pre_skip_dummy, rd_pre_set_node, Hinv.
Qed.

Lemma realloc_array_length (a : list nat) (cap : nat) :
  length (realloc_array a cap) = Nat.max cap (Nat.min cap (length a)).
Proof.
  unfold realloc_array. rewrite length_app, length_take, length_replicate. lia.
Qed.

Lemma realloc_array_lookup (a : list nat) (cap i : nat) :
  i < length a -> length a ≤ cap -> realloc_array a cap !!! i = a !!! i.
Proof.
  intros Hi Hcap. unfold realloc_array.
  rewrite take_ge by done. by rewrite lookup_total_app_l.
Qed.

(** [xml_rd_enter] on a node: the reader on which it calls
    [xml_rd_node_switched]. *)
Lemma enter_shape (xml : xml_rd) (p : xmlNodePtr) :
  rd_inv fnmatch xml -> rd_node xml = Some p ->
  ∃ x1, rd_enter xml = switched x1
    ∧ rd_pre fnmatch x1
    ∧ rd_doc x1 = rd_doc xml ∧ rd_subst_rules x1 = rd_subst_rules xml
    ∧ rd_parent x1 = Some p
    ∧ rd_depth x1 = int_cast unsigned_int (rd_depth xml + 1)
    ∧ rd_path x1 = rd_path xml +:+ "/"
    ∧ rd_pathlen x1 !!! Z.to_nat (rd_depth xml)
      = String.length (rd_path xml +:+ "/")
    ∧ ∀ i, i < Z.to_nat (rd_depth xml) ->
           rd_pathlen x1 !!! i = rd_pathlen xml !!! i.
Proof.
  intros Hinv Hp. unfold xml_rd_enter. rewrite Hp.
  eexists. split; [reflexivity|].
  rewrite (and_comm (rd_pre _ _)), <- !(assoc and).
  destruct Hinv as [[Hc Hn [Hlen Hcap] Hd Hu Hs Hb] _ _].
  destruct xml as [doc node parent name path pathlen cap text depth rules
                     cache ccap].
  unfold base_len in *. simpl in *.
  set (xml1 := if decide (depth = Z.of_nat cap) then _ else _).
  assert (∃ pl' cap', xml1 = XmlRd doc node parent name path pl' cap' text
                              depth rules cache ccap
            ∧ length pl' = cap' ∧ cap ≤ cap' ∧ (depth < Z.of_nat cap')%Z
            ∧ ∀ i, i < cap -> pl' !!! i = pathlen !!! i)
    as (pl' & cap' & -> & Hlen' & Hcap' & Hd' & Hpl').
  { subst xml1. destruct (decide (depth = Z.of_nat cap)) as [->|Hne].
    - eexists _, _. split; [reflexivity|]. simpl.
      rewrite realloc_array_length. repeat split; try lia.
      intros i Hi. apply realloc_array_lookup; lia.
    - exists pathlen, cap. repeat split; try done; lia. }
  simpl. rewrite int_cast_unsigned_int.
  assert (Z.to_nat depth < length pl') as Hin by lia.
  repeat (split; [done|]).
  split; [by apply list_lookup_total_insert_eq|].
  split.
  { intros i Hi. rewrite list_lookup_total_insert_ne by lia.
    apply Hpl'. lia. }
  apply rd_pre_skip_dummy.
  assert ((depth + 1) mod 2 ^ 32 = depth + 1
          ∨ (depth + 1) mod 2 ^ 32 = 0)%Z as Hwrap.
  { unfold UINT_MAX in Hu.
    destruct (decide (depth + 1 = 2 ^ 32)%Z) as [->|]; [by right|].
    left. apply Z.mod_small. lia. }
  split; simpl; try done.
  - rewrite length_insert. split; [done|lia].
  - destruct Hwrap as [-> | ->]; lia.
  - unfold UINT_MAX. pose proof (Z.mod_pos_bound (depth + 1) (2 ^ 32)). lia.
  - intros i Hi. destruct Hwrap as [Hw|Hw]; rewrite Hw in Hi; [|lia].
    destruct (decide (S i = Z.to_nat depth)) as [Heq|Hne].
    + rewrite Heq, list_lookup_total_insert_eq by done.
      rewrite list_lookup_total_insert_ne by lia.
      rewrite Hpl' by lia.
      unfold g_string_append_c. rewrite str_length_app.
      destruct (decide (depth = 0%Z)); [lia|].
      replace (Z.to_nat (depth - 1)) with i in Hb by lia. lia.
    + rewrite !list_lookup_total_insert_ne by lia.
      rewrite !Hpl' by lia. apply Hs. lia.
  - unfold base_len. simpl. destruct Hwrap as [-> | ->].
    + destruct (decide ((depth + 1)%Z = 0%Z)); [lia|].
      replace (Z.to_nat (depth + 1 - 1)) with (Z.to_nat depth) by lia.
      by rewrite list_lookup_total_insert_eq.
    + simpl. lia.
Qed.

Lemma enter_inv (xml : xml_rd) :
  rd_inv fnmatch xml -> rd_inv fnmatch (rd_enter xml).
Proof.
  intros Hinv. destruct (rd_node xml) as [p|] eqn:Hp.
  - destruct (enter_shape xml p Hinv Hp) as (x1 & -> & Hpre & _).
    by apply switched_inv.
  - unfold xml_rd_enter. by rewrite Hp.
Qed.

(** [xml_rd_leave] below the root: the reader on which it calls
    [xml_rd_node_switched]. *)
Lemma leave_shape (xml : xml_rd) :
  rd_inv fnmatch xml -> (0 < rd_depth xml)%Z ->
  ∃ x1, rd_leave xml = switched x1
    ∧ rd_pre fnmatch x1
    ∧ rd_doc x1 = rd_doc xml ∧ rd_subst_rules x1 = rd_subst_rules xml
    ∧ rd_node x1 = rd_parent xml
    ∧ rd_depth x1 = (rd_depth xml - 1)%Z
    ∧ rd_path x1 = rd_path xml
    ∧ rd_pathlen x1 = rd_pathlen xml.
Proof.
  intros Hinv Hpos. unfold xml_rd_leave.
  destruct (decide (0 < rd_depth xml)%Z) as [_|]; [|done].
  assert (rd_pre fnmatch (set_node (rd_parent xml)
                            (set_depth (rd_depth xml - 1) xml))) as Hpre.
  { destruct Hinv as [[Hc Hn [Hlen Hcap] Hd Hu Hs Hb] _ _].
    destruct xml as [doc node parent name path pathlen cap text depth rules
                       cache ccap].
    unfold base_len in *. simpl in *.
    split; simpl; try done; try lia.
    - intros i Hi. apply Hs. lia.
    - unfold base_len. simpl.
      destruct (decide (depth - 1 = 0)%Z); [lia|].
      destruct (decide (depth = 0%Z)); [lia|].
      specialize (Hs (Z.to_nat (depth - 1 - 1))).
      replace (S (Z.to_nat (depth - 1 - 1))) with (Z.to_nat (depth - 1))
        in Hs by lia.
      etrans; [apply Hs; lia|done]. }
  eexists. split; [reflexivity|]. simpl.
  destruct (rd_parent xml); simpl; split; try done.
  by destruct Hpre.
Qed.

Lemma leave_inv (xml : xml_rd) :
  rd_inv fnmatch xml -> rd_inv fnmatch (rd_leave xml).
Proof.
  intros Hinv. destruct (decide (0 < rd_depth xml)%Z) as [Hpos|Hz].
  - destruct (leave_shape xml Hinv Hpos) as (x1 & -> & Hpre & _).
    by apply switched_inv.
  - unfold xml_rd_leave. by destruct (decide _).
Qed.

Lemma deep_next_loop_inv (fuel : nat) (xml : xml_rd) (depth : Z) :
  rd_inv fnmatch xml -> rd_inv fnmatch (deep_next_loop fnmatch fuel xml depth).
Proof.
  revert xml. induction fuel as [|fuel IH]; intros xml Hinv; simpl.
  - by destruct (_ && _).
  - destruct (_ && _); [|done]. by apply IH, next_inv, leave_inv.
Qed.

Lemma deep_next_inv (xml : xml_rd) (depth : Z) :
  rd_inv fnmatch xml -> rd_inv fnmatch (rd_deep_next xml depth).
Proof. intros Hinv. by apply deep_next_loop_inv, enter_inv. Qed.

Lemma rd_inv_set_text (xml : xml_rd) (t : option string) :
  rd_inv fnmatch xml -> rd_inv fnmatch (set_text t xml).
Proof. by intros [[] ? ?]. Qed.

Lemma node_value_inv (xml : xml_rd) :
  rd_inv fnmatch xml -> rd_inv fnmatch (fst (xml_rd_node_value xml)).
Proof.
  intros Hinv. unfold xml_rd_node_value. simpl.
  destruct (rd_text xml); [done|].
  destruct (rd_node xml); [|done]. by apply rd_inv_set_text.
Qed.

Lemma node_value_uint_fst (w : int_type) (xml : xml_rd) :
  fst (xml_rd_node_value_uint w xml) = fst (xml_rd_node_value xml).
Proof.
  unfold xml_rd_node_value_uint.
  destruct (xml_rd_node_value xml) as [xml' [s|]]; [|done].
  destruct (strtoul s) as [v e]. by destruct (_ || _).
Qed.

Lemma rd_step_inv (xml : xml_rd) (op : rd_op) :
  rd_inv fnmatch xml -> rd_inv fnmatch (rd_step fnmatch xml op).
Proof.
  destruct op; simpl.
  - apply next_inv.
  - apply enter_inv.
  - apply leave_inv.
  - apply deep_next_inv.
  - apply node_value_inv.
  - rewrite node_value_uint_fst. apply node_value_inv.
Qed.

Lemma run_inv (xml : xml_rd) (ops : list rd_op) :
  rd_inv fnmatch xml -> rd_inv fnmatch (run xml ops).
Proof.
  revert xml. induction ops as [|op ops IH]; intros xml Hinv; [done|].
  simpl. by apply IH, rd_step_inv.
Qed.

Lemma begin_inv (text : string) (len : nat) (rules : option (list xml_ns))
    (xml : xml_rd) :
  rd_begin text len rules = inr xml -> rd_inv fnmatch xml.
Proof.
  unfold xml_rd_begin. destruct (xmlParseMemory text len) as [doc|]; [|done].
  intros [= <-]. apply switched_inv, rd_pre_skip_dummy.
  split; simpl.
  - unfold cache_valid. destruct rules; [constructor|done].
  - apply NoDup_nil_2.
  - split; [done|lia].
  - lia.
  - done.
  - intros i Hi. lia.
  - done.
Qed.

(** Every reader reached from [xml_rd_begin] satisfies the invariants. *)
Lemma reachable_inv (text : string) (len : nat)
    (rules : option (list xml_ns)) (xml0 : xml_rd) (ops : list rd_op) :
  rd_begin text len rules = inr xml0 -> rd_inv fnmatch (run xml0 ops).
Proof. intros Hbegin. eapply run_inv, begin_inv, Hbegin. Qed.

(** The rules and the document of a reader never change. *)
Lemma skip_dummy_frame (xml : xml_rd) :
  xml_rd_skip_dummy xml = set_node (rd_node (xml_rd_skip_dummy xml)) xml.
Proof. reflexivity. Qed.

Lemma next_frame (xml : xml_rd) :
  rd_doc (rd_next xml) = rd_doc xml
  ∧ rd_subst_rules (rd_next xml) = rd_subst_rules xml.
Proof.
  unfold xml_rd_next. destruct (rd_node xml); [|done].
  match goal with |- context [switched ?x] =>
    pose proof (switched_frame x) as (Hd & _ & _ & _ & _ & _ & Hr & _)
  end.
  by rewrite Hd, Hr.
Qed.

Lemma enter_frame (xml : xml_rd) :
  rd_doc (rd_enter xml) = rd_doc xml
  ∧ rd_subst_rules (rd_enter xml) = rd_subst_rules xml.
Proof.
  unfold xml_rd_enter. destruct (rd_node xml); [|done].
  match goal with |- context [switched ?x] =>
    pose proof (switched_frame x) as (Hd & _ & _ & _ & _ & _ & Hr & _)
  end.
  rewrite Hd, Hr. simpl. by destruct (decide _).
Qed.

Lemma leave_frame (xml : xml_rd) :
  rd_doc (rd_leave xml) = rd_doc xml
  ∧ rd_subst_rules (rd_leave xml) = rd_subst_rules xml.
Proof.
  unfold xml_rd_leave. destruct (decide _); [|done].
  match goal with |- context [switched ?x] =>
    pose proof (switched_frame x) as (Hd & _ & _ & _ & _ & _ & Hr & _)
  end.
  rewrite Hd, Hr. simpl. by destruct (rd_parent xml).
Qed.

Lemma deep_next_loop_frame (fuel : nat) (xml : xml_rd) (depth : Z) :
  rd_doc (deep_next_loop fnmatch fuel xml depth) = rd_doc xml
  ∧ rd_subst_rules (deep_next_loop fnmatch fuel xml depth)
    = rd_subst_rules xml.
Proof.
  revert xml. induction fuel as [|fuel IH]; intros xml; simpl.
  - by destruct (_ && _).
  - destruct (_ && _); [|done].
    destruct (IH (rd_next (rd_leave xml))) as [-> ->].
    destruct (next_frame (rd_leave xml)) as [-> ->].
    apply leave_frame.
Qed.

Lemma rd_step_frame (xml : xml_rd) (op : rd_op) :
  rd_doc (rd_step fnmatch xml op) = rd_doc xml
  ∧ rd_subst_rules (rd_step fnmatch xml op) = rd_subst_rules xml.
Proof.
  destruct op; simpl.
  - apply next_frame.
  - apply enter_frame.
  - apply leave_frame.
  - unfold xml_rd_deep_next.
    destruct (deep_next_loop_frame (Z.to_nat (xml_rd_depth (rd_enter xml)))
                (rd_enter xml) depth) as [-> ->].
    apply enter_frame.
  - unfold xml_rd_node_value. simpl.
    destruct (rd_text xml); [done|]. by destruct (rd_node xml).
  - rewrite node_value_uint_fst. unfold xml_rd_node_value. simpl.
    destruct (rd_text xml); [done|]. by destruct (rd_node xml).
Qed.

Lemma run_frame (xml : xml_rd) (ops : list rd_op) :
  rd_doc (run xml ops) = rd_doc xml
  ∧ rd_subst_rules (run xml ops) = rd_subst_rules xml.
Proof.
  revert xml. induction ops as [|op ops IH]; intros xml; [done|].
  simpl. destruct (IH (rd_step fnmatch xml op)) as [-> ->].
  apply rd_step_frame.
Qed.

Lemma begin_frame (text : string) (len : nat) (rules : option (list xml_ns))
    (xml : xml_rd) :
  rd_begin text len rules = inr xml ->
  xmlParseMemory text len = Some (rd_doc xml) ∧ rd_subst_rules xml = rules.
Proof.
  unfold xml_rd_begin. destruct (xmlParseMemory text len) as [doc|]; [|done].
  intros [= <-].
  match goal with |- context [switched ?x] =>
    pose proof (switched_frame x) as (Hd & _ & _ & _ & _ & _ & Hr & _)
  end.
  by rewrite Hd, Hr.
Qed.

(** *** The cursor of a reader *)

Lemma cursor_switched (xml : xml_rd) :
  rd_cursor (switched xml) = rd_cursor xml.
Proof.
  destruct (switched_frame xml) as (_ & Hn & Hp & Hd & _).
  unfold rd_cursor. by rewrite Hn, Hp, Hd.
Qed.

Lemma cursor_next (xml : xml_rd) :
  rd_cursor (rd_next xml) = nav_next (rd_doc xml) (rd_cursor xml).
Proof.
  unfold xml_rd_next, nav_next. simpl.
  destruct (rd_node xml) as [p|]; [|done]. by rewrite cursor_switched.
Qed.

Lemma cursor_enter (xml : xml_rd) :
  rd_cursor (rd_enter xml) = nav_enter (rd_doc xml) (rd_cursor xml).
Proof.
  unfold xml_rd_enter, nav_enter. simpl.
  destruct (rd_node xml) as [p|]; [|done]. rewrite cursor_switched.
  destruct xml as [doc node parent name path pathlen cap text depth rules
                     cache ccap]; simpl.
  by destruct (decide _).
Qed.

Lemma cursor_leave (xml : xml_rd) :
  rd_cursor (rd_leave xml) = nav_leave (rd_cursor xml).
Proof.
  unfold xml_rd_leave, nav_leave. simpl.
  destruct (decide _); [|done]. rewrite cursor_switched.
  destruct xml as [doc node parent name path pathlen cap text depth rules
                     cache ccap]; simpl.
  by destruct parent.
Qed.

Lemma cursor_deep_next_loop (fuel : nat) (xml : xml_rd) (depth : Z) :
  rd_cursor (deep_next_loop fnmatch fuel xml depth)
  = nav_deep_next_loop (rd_doc xml) fuel (rd_cursor xml) depth.
Proof.
  revert xml. induction fuel as [|fuel IH]; intros xml; simpl.
  - unfold xml_rd_end, xml_rd_depth. by destruct (_ && _).
  - unfold xml_rd_end, xml_rd_depth. destruct (_ && _); [|done].
    rewrite IH, cursor_next, cursor_leave.
    by rewrite (proj1 (next_frame _)), !(proj1 (leave_frame _)).
Qed.

Lemma cursor_deep_next (xml : xml_rd) (depth : Z) :
  rd_cursor (rd_deep_next xml depth)
  = nav_deep_next (rd_doc xml) (rd_cursor xml) depth.
Proof.
  unfold xml_rd_deep_next, nav_deep_next, nav_unwind.
  rewrite cursor_deep_next_loop, cursor_enter, (proj1 (enter_frame _)).
  unfold xml_rd_depth.
  by replace (rd_depth (rd_enter xml))
    with (cur_depth (rd_cursor (rd_enter xml))); [rewrite cursor_enter|].
Qed.

Lemma rd_visit_nav (fuel : nat) (xml : xml_rd) (depth : Z) :
  rd_visit fnmatch fuel xml depth
  = nav_visit (rd_doc xml) fuel (rd_cursor xml) depth.
Proof.
  revert xml. induction fuel as [|fuel IH]; intros xml; simpl; [done|].
  destruct (rd_node xml); [|done].
  rewrite IH, cursor_deep_next.
  pose proof (proj1 (rd_step_frame xml (OpDeepNext depth))) as Hdoc.
  simpl in Hdoc. by rewrite Hdoc.
Qed.

(** *** Pointers and children *)

Lemma kids_along_app (l : list xmlNode) (p : list nat) (i : nat) :
  kids_along l (p ++ [i])
  = from_option xmlNode_kids [] (kids_along l p !! i).
Proof.
  revert l. induction p as [|j p IH]; intros l; simpl.
  - by destruct (l !! i).
  - destruct (l !! j); [apply IH|]. by rewrite lookup_nil.
Qed.

Lemma xml_children_cons (doc : xmlDoc) (i : nat) (q : xmlNodePtr) :
  xml_children doc (i :: q)
  = from_option xmlNode_kids [] (xml_children doc q !! i).
Proof. unfold xml_children. simpl. apply kids_along_app. Qed.

Lemma first_element_Some (l : list xmlNode) (i j : nat) :
  first_element l i = Some j ->
  i ≤ j ∧ ∃ n, l !! (j - i) = Some n ∧ is_element n = true
  ∧ Forall (λ n, is_element n = false) (take (j - i) l).
Proof.
  revert i. induction l as [|c l IH]; intros i; simpl; [done|].
  destruct (decide (xmlNode_type c = XML_ELEMENT_NODE)) as [He|He].
  - intros [= <-]. split; [done|]. rewrite Nat.sub_diag. simpl.
    exists c. split; [done|]. split; [|constructor].
    unfold is_element. by apply bool_decide_eq_true.
  - intros Hj. destruct (IH (S i) Hj) as (Hle & n & Hn & Hel & Hpre).
    split; [lia|]. replace (j - i) with (S (j - S i)) by lia. simpl.
    exists n. split; [done|]. split; [done|]. constructor; [|done].
    unfold is_element. by apply bool_decide_eq_false.
Qed.

Lemma first_element_None (l : list xmlNode) (i : nat) :
  first_element l i = None -> Forall (λ n, is_element n = false) l.
Proof.
  revert i. induction l as [|c l IH]; intros i; simpl; [constructor|].
  destruct (decide (xmlNode_type c = XML_ELEMENT_NODE)) as [He|He]; [done|].
  intros Hl. constructor; [|by eapply IH].
  unfold is_element. by apply bool_decide_eq_false.
Qed.

(** The loop that skips dummy nodes stops at the first element among the
    node and its following siblings; the fuel it is given suffices. *)
Lemma skip_dummy_loop_first (doc : xmlDoc) (q : xmlNodePtr) (fuel i : nat) :
  i < length (xml_children doc q) ->
  length (xml_children doc q) - i ≤ fuel ->
  skip_dummy_loop doc fuel (Some (i :: q))
  = (λ j, j :: q) <$> first_element (drop i (xml_children doc q)) i.
Proof.
  set (cs := xml_children doc q).
  revert i. induction fuel as [|fuel IH]; intros i Hi Hfuel; [lia|].
  destruct (lookup_lt_is_Some_2 cs i Hi) as [n Hn].
  rewrite (drop_S _ _ _ Hn). simpl. unfold xml_is_dummy. simpl. fold cs.
  rewrite Hn.
  destruct (decide (xmlNode_type n = XML_ELEMENT_NODE)) as [He|He].
  - by rewrite bool_decide_eq_false_2 by (by intros ?).
  - rewrite bool_decide_eq_true_2 by done. fold cs.
    destruct (decide (S i < length cs)) as [Hlt|Hge].
    + apply IH; lia.
    + rewrite drop_ge by lia. by destruct fuel.
Qed.

Lemma nav_skip_next (doc : xmlDoc) (q : xmlNodePtr) (i : nat) :
  nav_skip doc (xmlNode_next doc (i :: q))
  = (λ j, j :: q) <$> first_element (drop (S i) (xml_children doc q)) (S i).
Proof.
  unfold nav_skip, xmlNode_next.
  destruct (decide (S i < length (xml_children doc q))) as [Hlt|Hge].
  - simpl. apply skip_dummy_loop_first; lia.
  - rewrite drop_ge by lia. done.
Qed.

Lemma nav_skip_children (doc : xmlDoc) (p : xmlNodePtr) :
  nav_skip doc (xmlNode_children doc p)
  = (λ j, j :: p) <$> first_element (xml_children doc p) 0.
Proof.
  unfold nav_skip, xmlNode_children.
  destruct (xml_children doc p) as [|c cs] eqn:Hcs; [done|].
  simpl skip_dummy_fuel. rewrite Hcs.
  rewrite skip_dummy_loop_first; rewrite Hcs; simpl; [done|lia|lia].
Qed.

(** Skipping again changes nothing. *)
Lemma nav_skip_element (doc : xmlDoc) (q : xmlNodePtr) (j : nat)
    (n : xmlNode) :
  xml_children doc q !! j = Some n -> is_element n = true ->
  nav_skip doc (Some (j :: q)) = Some (j :: q).
Proof.
  intros Hn He. unfold nav_skip. simpl.
  destruct (length (xml_children doc q)) eqn:Hlen.
  - apply lookup_lt_Some in Hn. lia.
  - simpl. unfold xml_is_dummy. simpl. rewrite Hn.
    apply bool_decide_eq_true in He.
    by rewrite bool_decide_eq_false_2 by (by intros ?).
Qed.

(** *** The traversal *)

Lemma elements_of_element (name : string) (ns : option xmlNs)
    (cs : list xmlNode) (p : xmlNodePtr) :
  elements_of (xmlElement name ns cs) p = p :: elements_forest cs 0 p.
Proof.
  simpl. f_equal. generalize 0.
  induction cs as [|c cs IH]; intros i; [done|]. simpl. by rewrite IH.
Qed.

Lemma nav_unwind_node (doc : xmlDoc) (c : cursor) (floor : Z) :
  cur_node c ≠ None -> nav_unwind doc c floor = c.
Proof.
  intros Hc. unfold nav_unwind.
  destruct (Z.to_nat (cur_depth c)); simpl;
    by rewrite bool_decide_eq_false_2.
Qed.

(** At the end of the children of a node below the floor, the loop of
    [xml_rd_deep_next] leaves the node and moves to its next sibling. *)
Lemma nav_unwind_end (doc : xmlDoc) (q : xmlNodePtr) (j : nat) (floor : Z) :
  (0 ≤ floor < Z.of_nat (length q))%Z ->
  (Z.of_nat (length (j :: q)) ≤ UINT_MAX)%Z ->
  nav_unwind doc (Cursor None (Some (j :: q)) (Z.of_nat (length (j :: q))))
    floor
  = nav_unwind doc
      (Cursor (nav_skip doc (xmlNode_next doc (j :: q))) (Some q)
         (Z.of_nat (length q))) floor.
Proof.
  intros Hfloor Hmax. unfold nav_unwind. cbn [cur_depth length].
  rewrite Nat2Z.id. cbn [nav_deep_next_loop cur_node cur_depth].
  rewrite bool_decide_eq_true_2 by done.
  rewrite int_cast_unsigned_int, Z.mod_small
    by (unfold UINT_MAX in Hmax; simpl in Hmax; lia).
  rewrite bool_decide_eq_true_2 by lia. cbn [andb].
  unfold nav_leave. cbn [cur_depth cur_parent].
  rewrite decide_True by lia.
  unfold nav_next. cbn [cur_node cur_parent cur_depth xmlNode_parent].
  replace (Z.of_nat (S (length q)) - 1)%Z with (Z.of_nat (length q)) by lia.
  by rewrite Nat2Z.id.
Qed.

Lemma visits_forest_step (doc : xmlDoc) (floor : Z) (l : list xmlNode) :
  Forall (λ c, visits_forest doc floor (xmlNode_kids c)) l ->
  visits_forest doc floor l.
Proof.
  induction l as [|c l IH]; intros HF q pre m Hcs Hfloor Hbound; [done|].
  apply Forall_cons in HF as [Hc HF]. specialize (IH HF q (pre ++ [c]) m).
  rewrite <- app_assoc, length_app, Nat.add_1_r in IH.
  specialize (IH Hcs Hfloor).
  assert (xml_children doc q !! length pre = Some c) as Hlook.
  { rewrite Hcs. by apply list_lookup_middle. }
  cbn [first_element elements_forest].
  destruct c as [name ns cs|kind content].
  - rewrite decide_True by done. cbn [fmap option_fmap option_map].
    set (p := length pre :: q) in *.
    rewrite elements_of_element.
    assert (∀ r, r ∈ p :: elements_forest cs 0 p
                       ++ elements_forest l (S (length pre)) q ->
                 (Z.of_nat (length r) ≤ UINT_MAX)%Z) as Hbound'.
    { intros r Hr. apply Hbound. cbn [elements_forest].
      by rewrite elements_of_element. }
    clear Hbound.
    assert (Z.of_nat (length p) ≤ UINT_MAX)%Z as Hp.
    { apply Hbound'. left. }
    rewrite nav_unwind_node by done.
    cbn [app length Nat.add nav_visit cur_node]. f_equal.
    (* the call of xml_rd_deep_next on the node *)
    unfold nav_deep_next, nav_enter. cbn [cur_node cur_depth].
    assert (xml_children doc p = cs) as Hkids.
    { subst p. by rewrite xml_children_cons, Hlook. }
    rewrite nav_skip_children, Hkids.
    assert (nav_skip doc ((λ j, j :: p) <$> first_element cs 0)
            = (λ j, j :: p) <$> first_element cs 0) as ->.
    { destruct (first_element cs 0) as [j|] eqn:Hfirst; [|done].
      destruct (first_element_Some _ _ _ Hfirst) as (_ & n & Hn & He & _).
      rewrite Nat.sub_0_r in Hn. simpl.
      apply (nav_skip_element doc p j n); [by rewrite Hkids|done]. }
    rewrite int_cast_unsigned_int, Z.mod_small
      by (unfold UINT_MAX in Hp; subst p; simpl in Hp; lia).
    replace (Z.of_nat (length q) + 1)%Z with (Z.of_nat (length p))
      by (subst p; simpl; lia).
    (* the children of the node *)
    rewrite length_app, <- Nat.add_assoc.
    rewrite (Hc p [] _ Hkids); cycle 1.
    { subst p. simpl. lia. }
    { intros r Hr. simpl in Hr. apply Hbound'. right. apply elem_of_app.
      by left. }
    rewrite <- app_assoc. f_equal.
    (* back to the siblings of the node *)
    subst p. rewrite nav_unwind_end by done.
    rewrite nav_skip_next, Hcs.
    rewrite (assoc_L app pre [_] l : pre ++ _ :: l = (pre ++ [_]) ++ l).
    rewrite drop_app_length' by (rewrite length_app; simpl; lia).
    apply IH. intros r Hr. apply Hbound'. right. apply elem_of_app. by right.
  - rewrite decide_False by (by destruct kind). simpl. apply IH.
    intros r Hr. apply Hbound. by destruct kind.
Qed.

Lemma visits_forest_all (doc : xmlDoc) (floor : Z) (l : list xmlNode) :
  visits_forest doc floor l.
Proof.
  apply visits_forest_step. apply Forall_forall. intros n _.
  induction n as [name ns cs IH|kind content] using xmlNode_forall.
  - by apply visits_forest_step.
  - by apply visits_forest_step.
Qed.

Lemma nav_visit_end (doc : xmlDoc) (m : nat) (c : cursor) (floor : Z) :
  cur_node c = None -> nav_visit doc m c floor = [].
Proof. intros Hc. destruct m; simpl; [done|]. by rewrite Hc. Qed.

(** From an element node at depth [d], with floor [d], the traversal stops
    at the element nodes of its subtree, in document order, and ends. *)
Lemma nav_visit_subtree (doc : xmlDoc) (p : xmlNodePtr) (n : xmlNode)
    (parent : option xmlNodePtr) (d : Z) (m : nat) :
  xml_deref doc p = Some n -> is_element n = true ->
  (d + 1 = Z.of_nat (length p))%Z ->
  (∀ r, r ∈ elements_of n p -> (Z.of_nat (length r) ≤ UINT_MAX)%Z) ->
  nav_visit doc (length (elements_of n p) + m) (Cursor (Some p) parent d) d
  = elements_of n p.
Proof.
  intros Hn He Hd Hbound.
  destruct n as [name ns cs|kind content]; [clear He|by destruct kind].
  rewrite elements_of_element in *.
  assert (Z.of_nat (length p) ≤ UINT_MAX)%Z as Hp by (apply Hbound; left).
  cbn [app length Nat.add nav_visit cur_node]. f_equal.
  unfold nav_deep_next, nav_enter. cbn [cur_node cur_depth].
  assert (xml_children doc p = cs) as Hkids.
  { destruct p as [|j q]; [done|]. simpl in Hn.
    by rewrite xml_children_cons, Hn. }
  rewrite nav_skip_children, Hkids.
  assert (nav_skip doc ((λ j, j :: p) <$> first_element cs 0)
          = (λ j, j :: p) <$> first_element cs 0) as ->.
  { destruct (first_element cs 0) as [j|] eqn:Hfirst; [|done].
    destruct (first_element_Some _ _ _ Hfirst) as (_ & c & Hc & He & _).
    rewrite Nat.sub_0_r in Hc. simpl.
    apply (nav_skip_element doc p j c); [by rewrite Hkids|done]. }
  rewrite int_cast_unsigned_int, Z.mod_small
    by (unfold UINT_MAX in Hp; lia).
  rewrite Hd.
  pose proof (visits_forest_all doc d cs p [] m Hkids) as Hvisit.
  simpl in Hvisit. rewrite Hvisit; cycle 1.
  { destruct p; [done|]. simpl in *. lia. }
  { intros r Hr. apply Hbound. by right. }
  rewrite nav_visit_end; [by rewrite app_nil_r|].
  unfold nav_unwind. cbn [cur_depth].
  destruct (Z.to_nat (Z.of_nat (length p))); simpl;
    rewrite int_cast_unsigned_int, Z.mod_small
      by (unfold UINT_MAX in Hp; lia);
    rewrite (bool_decide_eq_false_2 (_ < _)%Z) by lia;
    by rewrite ?andb_false_r.
Qed.

(** *** The element nodes of a document *)

Lemma elements_forest_dummies (l : list xmlNode) (i : nat) (q : xmlNodePtr) :
  Forall (λ n, is_element n = false) l -> elements_forest l i q = [].
Proof.
  revert i. induction l as [|c l IH]; intros i Hl; [done|].
  apply Forall_cons in Hl as [Hc Hl]. simpl. rewrite IH by done.
  destruct c as [| kind s]; [done|]. by destruct kind.
Qed.

Lemma elements_forest_app (l1 l2 : list xmlNode) (i : nat) (q : xmlNodePtr) :
  elements_forest (l1 ++ l2) i q
  = elements_forest l1 i q ++ elements_forest l2 (i + length l1) q.
Proof.
  revert i. induction l1 as [|c l1 IH]; intros i; simpl.
  - by rewrite Nat.add_0_r.
  - rewrite IH, <- app_assoc. do 3 f_equal. lia.
Qed.

Lemma filter_dummies (l : list xmlNode) :
  Forall (λ n, is_element n = false) l ->
  filter (λ n, is_element n = true) l = [].
Proof.
  induction 1 as [|c l Hc Hl IH]; [done|].
  rewrite filter_cons_False by (by rewrite Hc). done.
Qed.

(** In a document with one root element, the element nodes are those of
    the subtree of the root. *)
Lemma doc_elements_root (doc : xmlDoc) :
  single_root doc ->
  doc_elements doc
  = match first_element (doc_children doc) 0 with
    | Some i =>
        match doc_children doc !! i with
        | Some n => elements_of n [i]
        | None => []
        end
    | None => []
    end.
Proof.
  unfold single_root, doc_elements. intros Hsingle.
  destruct (first_element (doc_children doc) 0) as [i|] eqn:Hfirst.
  - destruct (first_element_Some _ _ _ Hfirst) as (_ & n & Hn & He & Hpre).
    rewrite Nat.sub_0_r in *. rewrite Hn.
    rewrite <- (take_drop_middle _ _ _ Hn) in Hsingle |- *.
    rewrite filter_app, filter_cons_True, length_app in Hsingle by done.
    rewrite filter_dummies in Hsingle by done. simpl in Hsingle.
    assert (Forall (λ n, is_element n = false) (drop (S i) (doc_children doc)))
      as Hpost.
    { apply Forall_forall. intros c Hc.
      destruct (is_element c) eqn:Hec; [|done].
      destruct (filter (λ n, is_element n = true)
                  (drop (S i) (doc_children doc))) as [|x f] eqn:Hf.
      - assert (c ∈ filter (λ n, is_element n = true)
                      (drop (S i) (doc_children doc))) as Hin
          by (by apply list_elem_of_filter).
        rewrite Hf in Hin. by apply elem_of_nil in Hin.
      - simpl in Hsingle. lia. }
    rewrite elements_forest_app. simpl.
    rewrite (elements_forest_dummies (take i _)) by done.
    rewrite (elements_forest_dummies (drop (S i) _)) by done.
    rewrite app_nil_r. simpl.
    rewrite length_take_le; [done|].
    apply lookup_lt_Some in Hn. lia.
  - by apply elements_forest_dummies, (first_element_None _ 0).
Qed.

Lemma begin_cursor (text : string) (len : nat) (rules : option (list xml_ns))
    (xml : xml_rd) :
  rd_begin text len rules = inr xml ->
  rd_cursor xml
  = Cursor ((λ i, [i]) <$> first_element (doc_children (rd_doc xml)) 0)
      None 0.
Proof.
  intros Hbegin. pose proof (begin_frame _ _ _ _ Hbegin) as [Hdoc _].
  unfold xml_rd_begin in Hbegin. rewrite Hdoc in Hbegin.
  injection Hbegin as <-. rewrite cursor_switched.
  match goal with |- context [switched ?x] =>
    pose proof (switched_frame x) as (-> & _)
  end.
  unfold rd_cursor. simpl. f_equal.
  set (doc := rd_doc xml). unfold xmlDocGetRootElement.
  destruct (first_element (doc_children doc) 0) as [i|] eqn:Hfirst; [|done].
  destruct (first_element_Some _ _ _ Hfirst) as (_ & n & Hn & He & _).
  rewrite Nat.sub_0_r in Hn.
  apply (nav_skip_element doc [] i n); done.
Qed.

(** The pointers of a subtree end with the pointer of its root, and no two
    of them are equal. *)
Lemma elements_forest_NoDup (l : list xmlNode) :
  Forall (λ n, ∀ p, NoDup (elements_of n p)
                    ∧ ∀ r, r ∈ elements_of n p -> ∃ r', r = r' ++ p) l ->
  ∀ i q, NoDup (elements_forest l i q)
         ∧ ∀ r, r ∈ elements_forest l i q ->
                ∃ r' j, r = r' ++ j :: q ∧ i ≤ j.
Proof.
  induction 1 as [|c l Hc Hl IH]; intros i q; simpl.
  - split; [constructor|]. intros r Hr. by apply elem_of_nil in Hr.
  - destruct (Hc (i :: q)) as [Hnd Hsuf].
    destruct (IH (S i) q) as [Hnd' Hsuf'].
    split.
    + apply NoDup_app. split; [done|]. split; [|done].
      intros r Hr Hr'.
      destruct (Hsuf r Hr) as [r1 ->].
      destruct (Hsuf' _ Hr') as (r2 & j & Heq & Hj).
      change (r1 ++ i :: q) with (r1 ++ [i] ++ q) in Heq.
      change (r2 ++ j :: q) with (r2 ++ [j] ++ q) in Heq.
      rewrite !app_assoc in Heq. apply app_inv_tail in Heq.
      apply app_inj_tail in Heq as [_ ->]. lia.
    + intros r [Hr|Hr]%elem_of_app.
      * destruct (Hsuf r Hr) as [r1 ->]. by exists r1, i.
      * destruct (Hsuf' r Hr) as (r2 & j & -> & Hj). exists r2, j.
        split; [done|lia].
Qed.

Lemma elements_of_NoDup (n : xmlNode) (p : xmlNodePtr) :
  NoDup (elements_of n p) ∧ ∀ r, r ∈ elements_of n p -> ∃ r', r = r' ++ p.
Proof.
  revert p.
  induction n as [name ns cs IH|kind content] using xmlNode_forall;
    intros p.
  - rewrite elements_of_element.
    destruct (elements_forest_NoDup cs IH 0 p) as [Hnd Hsuf]. split.
    + constructor; [|done]. intros Hp.
      destruct (Hsuf p Hp) as (r' & j & Heq & _).
      apply (f_equal length) in Heq. rewrite length_app in Heq.
      simpl in Heq. lia.
    + intros r [->|Hr]%elem_of_cons; [by exists []|].
      destruct (Hsuf r Hr) as (r' & j & -> & _).
      exists (r' ++ [j]). by rewrite <- app_assoc.
  - simpl. split; [constructor|]. intros r Hr. by apply elem_of_nil in Hr.
Qed.

Lemma doc_elements_NoDup (doc : xmlDoc) : NoDup (doc_elements doc).
Proof.
  apply elements_forest_NoDup. apply Forall_forall.
  intros n _ p. apply elements_of_NoDup.
Qed.

(** The listed pointers are those of the element nodes. *)
Lemma walk_snoc (l : list xmlNode) (t : list nat) (x : nat) :
  walk l (t ++ [x]) = kids_along l t !! x.
Proof.
  revert l. induction t as [|k t IH]; intros l; simpl.
  - by destruct (l !! x).
  - destruct (l !! k) as [c|]; [|by rewrite lookup_nil].
    rewrite <- IH. by destruct t.
Qed.

Lemma xml_deref_walk (doc : xmlDoc) (p : xmlNodePtr) :
  xml_deref doc p = walk (doc_children doc) (rev p).
Proof.
  destruct p as [|x q]; [done|]. simpl. by rewrite walk_snoc.
Qed.

Lemma walk_cons_cons (l : list xmlNode) (k k' : nat) (t : list nat) :
  walk l (k :: k' :: t)
  = l !! k ≫= λ c, walk (xmlNode_kids c) (k' :: t).
Proof. simpl. by destruct (l !! k). Qed.

Lemma elements_forest_member (l : list xmlNode) :
  Forall (λ c, ∀ p r,
            r ∈ elements_forest (xmlNode_kids c) 0 p <->
            ∃ k t n, r = rev t ++ k :: p
                     ∧ walk (xmlNode_kids c) (k :: t) = Some n
                     ∧ is_element n = true) l ->
  ∀ i q r,
    r ∈ elements_forest l i q <->
    ∃ k t n, r = rev t ++ (i + k) :: q ∧ walk l (k :: t) = Some n
             ∧ is_element n = true.
Proof.
  induction 1 as [|c l Hc Hl IH]; intros i q r.
  - simpl. split; [by intros ?%elem_of_nil|]. by intros (k & t & n & _ & ? & _).
  - cbn [elements_forest]. rewrite elem_of_app, IH. split.
    + intros [Hr|(k & t & n & -> & Hw & He)].
      * destruct c as [name ns cs|kind s]; [|by apply elem_of_nil in Hr].
        rewrite elements_of_element in Hr.
        apply elem_of_cons in Hr as [->|Hr].
        -- exists 0, [], (xmlElement name ns cs).
           by rewrite Nat.add_0_r.
        -- apply Hc in Hr as (k & t & n & -> & Hw & He).
           exists 0, (k :: t), n. rewrite Nat.add_0_r. simpl.
           rewrite <- app_assoc. split; [done|]. split; [|done].
           simpl in Hw. done.
      * exists (S k), t, n. split; [f_equal; f_equal; lia|]. by split.
    + intros (k & t & n & -> & Hw & He).
      destruct k as [|k].
      * left. rewrite Nat.add_0_r. destruct t as [|k' t].
        -- simpl in Hw. injection Hw as ->.
           destruct n as [name ns cs|kind s]; [|by destruct kind].
           rewrite elements_of_element. left.
        -- rewrite walk_cons_cons in Hw. simpl in Hw.
           destruct c as [name ns cs|kind s]; [|done].
           rewrite elements_of_element. right. apply Hc.
           exists k', t, n. simpl. by rewrite <- app_assoc.
      * right. exists k, t, n. split; [f_equal; f_equal; lia|]. by split.
Qed.

Lemma elements_forest_member_all (l : list xmlNode) (i : nat)
    (q r : xmlNodePtr) :
  r ∈ elements_forest l i q <->
  ∃ k t n, r = rev t ++ (i + k) :: q ∧ walk l (k :: t) = Some n
           ∧ is_element n = true.
Proof.
  apply elements_forest_member. apply Forall_forall. intros c _. clear.
  induction c as [name ns cs IH|kind content] using xmlNode_forall;
    intros p r.
  - apply (elements_forest_member cs IH 0 p r).
  - simpl. split; [by intros ?%elem_of_nil|]. by intros (k & t & n & _ & ? & _).
Qed.

Lemma doc_elements_member (doc : xmlDoc) (p : xmlNodePtr) :
  p ∈ doc_elements doc <->
  ∃ n, xml_deref doc p = Some n ∧ is_element n = true.
Proof.
  unfold doc_elements. rewrite elements_forest_member_all, xml_deref_walk.
  split.
  - intros (k & t & n & -> & Hw & He). exists n. split; [|done].
    by rewrite rev_app_distr, rev_involutive.
  - intros (n & Hw & He).
    destruct (rev p) as [|k t] eqn:Hrev; [done|].
    exists k, t, n. split; [|done].
    rewrite <- (rev_involutive p), Hrev. done.
Qed.

(** *** The floor of the traversal *)

Lemma nav_deep_next_loop_depth (doc : xmlDoc) (fuel : nat) (c : cursor)
    (floor : Z) :
  (0 ≤ floor < UINT_MAX)%Z ->
  (Z.min (cur_depth c) (floor + 1)
   ≤ cur_depth (nav_deep_next_loop doc fuel c floor))%Z.
Proof.
  intros Hfloor. revert c. induction fuel as [|fuel IH]; intros c; simpl.
  - destruct (_ && _); lia.
  - destruct (bool_decide (cur_node c = None)); simpl; [|lia].
    rewrite int_cast_unsigned_int, Z.mod_small
      by (unfold UINT_MAX in Hfloor; lia).
    destruct (bool_decide_reflect (floor + 1 < cur_depth c)%Z) as [Hlt|];
      [|lia].
    etrans; [|apply IH].
    unfold nav_leave. rewrite decide_True by lia.
    unfold nav_next. simpl. destruct (cur_parent c); simpl; lia.
Qed.

Lemma deep_next_floor (xml : xml_rd) (floor : Z) :
  (0 ≤ floor ≤ xml_rd_depth xml)%Z -> (xml_rd_depth xml < UINT_MAX)%Z ->
  (floor ≤ xml_rd_depth (rd_deep_next xml floor))%Z.
Proof.
  intros Hfloor Hmax. unfold xml_rd_depth in *.
  change (rd_depth (rd_deep_next xml floor))
    with (cur_depth (rd_cursor (rd_deep_next xml floor))).
  rewrite cursor_deep_next. unfold nav_deep_next, nav_unwind.
  etrans; [|apply nav_deep_next_loop_depth; lia].
  unfold nav_enter. simpl. destruct (rd_node xml); simpl; [|lia].
  rewrite int_cast_unsigned_int, Z.mod_small
    by (unfold UINT_MAX in Hmax; lia).
  lia.
Qed.

(** C4 (as amended): started at the root of a document with floor depth
    0, the loop over [xml_rd_deep_next] stops at every element node
    exactly once, in document order, and then ends: the nodes it stops
    at are the list [doc_elements], which holds the pointer of every
    element node of the document, each once.  And whatever the floor, a
    call of [xml_rd_deep_next] made at a depth not less than the floor
    leaves the reader at a depth not less than the floor.  The depth
    counter is an [unsigned int]: no node is nested [2^32] deep. *)
Theorem xml_rd_deep_next_document_order (text : string) (len : nat)
    (rules : option (list xml_ns)) (xml0 : xml_rd) :
  rd_begin text len rules = inr xml0 ->
  single_root (rd_doc xml0) ->
  (∀ p, p ∈ doc_elements (rd_doc xml0) ->
        (Z.of_nat (length p) ≤ UINT_MAX)%Z) ->
  (∀ fuel, length (doc_elements (rd_doc xml0)) < fuel ->
           rd_visit fnmatch fuel xml0 0 = doc_elements (rd_doc xml0))
  ∧ (∀ p, p ∈ doc_elements (rd_doc xml0) <->
          ∃ n, xml_deref (rd_doc xml0) p = Some n ∧ is_element n = true)
  ∧ NoDup (doc_elements (rd_doc xml0))
  ∧ xml_rd_depth xml0 = 0%Z
  ∧ (∀ (xml : xml_rd) (floor : Z),
       (0 ≤ floor ≤ xml_rd_depth xml)%Z -> (xml_rd_depth xml < UINT_MAX)%Z ->
       (floor ≤ xml_rd_depth (rd_deep_next xml floor))%Z).
Proof.
  intros Hbegin Hsingle Hbound.
  pose proof (begin_cursor _ _ _ _ Hbegin) as Hcur.
  split; [|split; [apply doc_elements_member|
                   split; [apply doc_elements_NoDup|split]]].
  - intros fuel Hfuel. rewrite rd_visit_nav, Hcur.
    rewrite (doc_elements_root _ Hsingle) in Hbound, Hfuel |- *.
    destruct (first_element (doc_children (rd_doc xml0)) 0) as [i|] eqn:Hfirst;
      [|by apply nav_visit_end].
    destruct (first_element_Some _ _ _ Hfirst) as (_ & n & Hn & He & _).
    rewrite Nat.sub_0_r in Hn. rewrite Hn in *. simpl.
    replace fuel
      with (length (elements_of n [i])
            + (fuel - length (elements_of n [i]))) by lia.
    by apply nav_visit_subtree.
  - unfold xml_rd_depth.
    change (rd_depth xml0) with (cur_depth (rd_cursor xml0)).
    by rewrite Hcur.
  - apply deep_next_floor.
Qed.

(** *** Entering and leaving a node *)

Lemma string_take_all (s : string) : string_take (String.length s) s = s.
Proof.
  rewrite <- (str_app_nil_r s) at 2. apply string_take_app.
Qed.

(** C2: at every position of a reader (the reader after any calls that
    follow [xml_rd_begin]) that has a current node, [xml_rd_enter] followed
    by [xml_rd_leave] restores the depth, the current node, its name and
    its path, whether or not the entered node has element children.  The
    depth counter is an [unsigned int]: the position is below its
    maximum. *)
Theorem xml_rd_enter_leave (text : string) (len : nat)
    (rules : option (list xml_ns)) (xml0 : xml_rd) (ops : list rd_op) :
  rd_begin text len rules = inr xml0 ->
  let xml := run xml0 ops in
  rd_node xml ≠ None ->
  (xml_rd_depth xml < UINT_MAX)%Z ->
  let xml' := rd_leave (rd_enter xml) in
  xml_rd_depth xml' = xml_rd_depth xml
  ∧ rd_node xml' = rd_node xml
  ∧ xml_rd_node_name xml' = xml_rd_node_name xml
  ∧ xml_rd_node_path xml' = xml_rd_node_path xml.
Proof.
  intros Hbegin xml Hnode Hdepth xml'. subst xml'.
  pose proof (reachable_inv text len rules xml0 ops Hbegin) as Hinv.
  fold xml in Hinv. unfold xml_rd_depth in *.
  destruct (rd_node xml) as [p|] eqn:Hp; [clear Hnode|done].
  destruct (enter_shape xml p Hinv Hp)
    as (x1 & He & Hpre1 & Hdoc1 & Hrules1 & Hpar1 & Hdep1 & Hpath1 & Hpl1
        & Hpls1).
  pose proof (switched_frame x1) as (Fd1 & Fn1 & Fp1 & Fdep1 & Fpl1 & _ & Fr1
                                     & _).
  pose proof (switched_path x1 Hpre1) as [Hpath_e _].
  pose proof (enter_inv xml Hinv) as Hinv_e.
  pose proof (pre_depth _ _ (inv_pre _ _ Hinv)) as Hd0.
  rewrite int_cast_unsigned_int in Hdep1. unfold UINT_MAX in Hdepth.
  rewrite Z.mod_small in Hdep1 by lia.
  rewrite He in *.
  assert (0 < rd_depth (switched x1))%Z as Hpos by (rewrite Fdep1; lia).
  destruct (leave_shape (switched x1) Hinv_e Hpos)
    as (x2 & Hl & Hpre2 & Hdoc2 & Hrules2 & Hnode2 & Hdep2 & Hpath2 & Hpl2).
  pose proof (switched_frame x2) as (Fd2 & Fn2 & _ & Fdep2 & _ & _ & Fr2 & _).
  pose proof (switched_path x2 Hpre2) as [Hpath_l Hname_l].
  rewrite Hl.
  assert (rd_depth x2 = rd_depth xml) as Hdep by (rewrite Hdep2, Fdep1; lia).
  assert (rd_node x2 = Some p) as Hn2 by (by rewrite Hnode2, Fp1).
  assert (base_len x2 = base_len xml) as Hbl.
  { unfold base_len. rewrite Hdep, Hpl2, Fpl1.
    destruct (decide (rd_depth xml = 0%Z)); [done|]. apply Hpls1. lia. }
  assert (rd_path (switched x2) = rd_path xml) as Hpath.
  { rewrite Hpath_l, Hbl, Hn2, Hpath2, Hpath_e. simpl.
    assert (base_len x1 = String.length (rd_path x1)) as ->.
    { unfold base_len. rewrite Hdep1.
      destruct (decide _); [lia|].
      replace (Z.to_nat (rd_depth xml + 1 - 1)) with (Z.to_nat (rd_depth xml))
        by lia.
      by rewrite Hpl1, Hpath1. }
    rewrite string_take_all, Hpath1, !str_app_assoc.
    rewrite string_take_app_le
      by apply (pre_base _ _ (inv_pre _ _ Hinv)).
    rewrite (qualified_name_ext x2 xml).
    - etrans; [|symmetry; apply (inv_path _ _ Hinv)]. by rewrite Hp.
    - by rewrite Hdoc2, Fd1.
    - by rewrite Hrules2, Fr1. }
  assert (rd_name (switched x2) = rd_name xml) as Hname.
  { rewrite Hname_l, Hbl, Hn2, (inv_name _ _ Hinv), Hp. done. }
  split; [by rewrite Fdep2|]. split; [by rewrite Fn2|].
  unfold xml_rd_node_name, xml_rd_node_path.
  by rewrite Hname, Hpath, Fn2, Hn2, Hp.
Qed.

(** *** Uniqueness of cached URIs *)

Lemma lookup_inv (xml : xml_rd) (prefix : option string) (href : string) :
  rd_inv fnmatch xml -> rd_inv fnmatch (fst (lookup xml prefix href)).
Proof.
  intros [[Hc Hn Hcap Hd Hu Hs Hb] Hpath Hname].
  destruct (lookup_correct xml prefix href Hc Hn) as (_ & Hc' & Hn' & Hfr).
  simpl in Hfr. rewrite Hfr.
  set (c := rd_subst_cache _) in *. set (cc := rd_subst_cache_cap _) in *.
  clearbody c cc. clear Hfr.
  destruct xml as [doc node parent name path pathlen cap text depth rules
                     cache ccap].
  done.
Qed.

(** C9 (as amended): the substitution cache of a reader never holds two
    entries with the same URI; and two resolutions of a namespace URI that
    some rule matches return the same prefix, whatever the prefixes in the
    document and whatever the reader did in between. *)
Theorem subst_cache_unique_uri (text : string) (len : nat)
    (rules : option (list xml_ns)) (xml0 : xml_rd) (ops : list rd_op) :
  rd_begin text len rules = inr xml0 ->
  let xml := run xml0 ops in
  NoDup (xn_uri <$> rd_subst_cache xml)
  ∧ ∀ (ops' : list rd_op) (prefix1 prefix2 : option string) (href : string)
      (rs : list xml_ns) (r : xml_ns),
      rules = Some rs -> r ∈ rs -> fnmatch (xn_uri r) href 0 = 0%Z ->
      snd (lookup xml prefix1 href)
      = snd (lookup (run (fst (lookup xml prefix1 href)) ops') prefix2 href).
Proof.
  intros Hbegin xml.
  pose proof (reachable_inv text len rules xml0 ops Hbegin) as Hinv.
  fold xml in Hinv. split; [apply Hinv|].
  intros ops' prefix1 prefix2 href rs r -> Hr Hmatch.
  assert (rd_subst_rules xml = Some rs) as Hrules.
  { subst xml. rewrite (proj2 (run_frame _ _)).
    apply (begin_frame _ _ _ _ Hbegin). }
  pose proof (pre_cache _ _ (inv_pre _ _ Hinv)) as Hc.
  pose proof (pre_nodup _ _ (inv_pre _ _ Hinv)) as Hn.
  destruct (lookup_correct xml prefix1 href Hc Hn) as (-> & _).
  pose proof (run_inv _ ops' (lookup_inv xml prefix1 href Hinv)) as Hinv'.
  pose proof (pre_cache _ _ (inv_pre _ _ Hinv')) as Hc'.
  pose proof (pre_nodup _ _ (inv_pre _ _ Hinv')) as Hn'.
  destruct (lookup_correct _ prefix2 href Hc' Hn') as (-> & _).
  rewrite (proj2 (run_frame _ _)), lookup_rules, Hrules.
  unfold subst_prefix.
  destruct (subst_rules_find fnmatch rs href) as [r'|] eqn:Hfind; [done|].
  rewrite subst_rules_find_None in Hfind. by destruct (Hfind r Hr).
Qed.

(** *** The formatter *)

(** C8: [xml_format] is all-or-nothing.  When the text does not parse it
    writes nothing and returns false.  When it parses, the whole formatted
    document that libxml2 hands back (the [out_size] bytes of [out_data])
    is written and the result is true, unless that document is empty: then
    nothing is written and the result is false. *)
Theorem xml_format_atomic (fp xml_text : string) (xml_len : nat) :
  (xmlParseMemory xml_text xml_len = None ->
   xml_format xmlParseMemory xmlDocDumpFormatMemory fp xml_text xml_len
   = (fp, false))
  ∧ (∀ doc out_data,
       xmlParseMemory xml_text xml_len = Some doc ->
       xmlDocDumpFormatMemory doc 1
       = (out_data, Z.of_nat (String.length out_data)) ->
       xml_format xmlParseMemory xmlDocDumpFormatMemory fp xml_text xml_len
       = (fp +:+ out_data, negb (String.eqb out_data ""))).
Proof.
  unfold xml_format. split.
  { by intros ->. }
  intros doc out_data -> ->. unfold fwrite.
  rewrite Nat2Z.id, string_take_all.
  destruct out_data as [|c out].
  - by rewrite str_app_nil_r.
  - rewrite decide_True by (simpl; lia).
    rewrite bool_decide_eq_true_2 by (simpl; lia). done.
Qed.

(** *** The writer *)

Lemma revert_loop_rev (cs prev : list xml_wr_node) :
  (fix loop (node2 prev : list xml_wr_node) : list xml_wr_node :=
     match node2 with
     | [] => prev
     | n :: next => loop next (xml_wr_revert_children n :: prev)
     end) cs prev
  = rev (xml_wr_revert_children <$> cs) ++ prev.
Proof.
  revert prev. induction cs as [|n cs IH]; intros prev; [done|].
  rewrite IH. simpl. by rewrite <- app_assoc.
Qed.

Lemma fmap_rev {A B} (f : A -> B) (l : list A) :
  f <$> rev l = rev (f <$> l).
Proof.
  induction l as [|x l IH]; [done|]. simpl. by rewrite fmap_app, IH.
Qed.

Lemma revert_children_rev (node : xml_wr_node) :
  wn_children (xml_wr_revert_children node)
  = rev (xml_wr_revert_children <$> wn_children node).
Proof.
  destruct node as [name value attrs cs]. simpl.
  by rewrite revert_loop_rev, app_nil_r.
Qed.

Lemma add_nodes_children (xml : xml_wr) (nodes : list xml_wr_node) :
  wn_children (wr_current (foldl xml_wr_add_node xml nodes))
  = rev nodes ++ wn_children (wr_current xml).
Proof.
  revert xml. induction nodes as [|n nodes IH]; intros xml; [done|].
  simpl. rewrite IH. unfold xml_wr_add_node, wr_plug. simpl.
  destruct (wr_current xml). simpl. by rewrite <- app_assoc.
Qed.

(** C3: the scenario [begin ("root", [])], [enter ("a")],
    [addLeaf ("b", "x")], [leave ()], [addLeaf ("c", "y")],
    [finish (compact = true)] produces exactly the string
    [<?xml version="1.0" encoding="UTF-8"?><root><a><b>x</b></a><c>y</c></root>],
    written out below character by character, the double quote being the
    character of code 34.  In general the reversal pass of [finish] turns
    the children of every node, stored newest first, into the order in
    which they were added: the children that were there, oldest first,
    then the added nodes in order. *)
Theorem xml_wr_children_in_order :
  root_a_b_c true
  = Done ("<?xml version="
          +:+ String "034"%char
                ("1.0"
                 +:+ String "034"%char
                       (" encoding="
                        +:+ String "034"%char
                              ("UTF-8"
                               +:+ String "034"%char
                                     "?><root><a><b>x</b></a><c>y</c></root>"))))
  ∧ (∀ node : xml_wr_node,
       wn_children (xml_wr_revert_children node)
       = rev (xml_wr_revert_children <$> wn_children node))
  ∧ (∀ (xml : xml_wr) (nodes : list xml_wr_node),
       wn_children
         (xml_wr_revert_children
            (wr_current (foldl xml_wr_add_node xml nodes)))
       = (xml_wr_revert_children <$> rev (wn_children (wr_current xml)))
         ++ (xml_wr_revert_children <$> nodes)).
Proof.
  split; [by vm_compute|]. split; [apply revert_children_rev|].
  intros xml nodes.
  rewrite revert_children_rev, add_nodes_children.
  by rewrite fmap_app, rev_app_distr, <- !fmap_rev, rev_involutive.
Qed.

Lemma format_value_escape (buf value : string) :
  is_c_string value = true ->
  xml_wr_format_value buf value = buf +:+ xml_escape value.
Proof.
  revert buf. induction value as [|c value IH]; intros buf Hc; simpl.
  - by rewrite str_app_nil_r.
  - simpl in Hc. apply andb_prop in Hc as [Hnul Hc].
    assert (∀ e, xml_wr_format_value (buf +:+ e) value
                 = buf +:+ e +:+ xml_escape value) as Hstep.
    { intros e. by rewrite IH, str_app_assoc. }
    unfold g_string_append, g_string_append_c.
    destruct c as [[] [] [] [] [] [] [] []]; simpl in Hnul |- *;
      try discriminate Hnul; apply Hstep.
Qed.

Lemma format_ns_verbatim (buf : string) (ns : list xml_ns) :
  xml_wr_format_ns buf ns = buf +:+ ns_verbatim ns.
Proof.
  revert buf. induction ns as [|n ns IH]; intros buf; simpl.
  - by rewrite str_app_nil_r.
  - rewrite IH. unfold ns_verbatim. simpl. by rewrite !str_app_assoc.
Qed.

Lemma format_attrs_verbatim (buf : string) (attrs : list xml_attr) :
  xml_wr_format_attrs buf attrs = buf +:+ attrs_verbatim attrs.
Proof.
  revert buf. induction attrs as [|a attrs IH]; intros buf; simpl.
  - by rewrite str_app_nil_r.
  - rewrite IH. unfold attrs_verbatim. simpl. by rewrite !str_app_assoc.
Qed.


(** *** Decimal numerals: [sprintf ("%u")] and [strtoul] *)

Lemma digit_of_digit_char (d : Z) :
  (0 ≤ d ≤ 9)%Z -> digit_of (digit_char d) = Some d.
Proof.
  intros Hd.
  assert (d = 0 ∨ d = 1 ∨ d = 2 ∨ d = 3 ∨ d = 4 ∨ d = 5 ∨ d = 6 ∨ d = 7
          ∨ d = 8 ∨ d = 9)%Z as Hcases by lia.
  repeat (destruct Hcases as [->|Hcases]; [done|]). by subst.
Qed.

Lemma scan_all_digits (s : string) (acc : Z) :
  all_digits s = true ->
  scan_digits s acc = (digits_value s acc, String.length s).
Proof.
  revert acc. induction s as [|c s IH]; intros acc Hs; simpl in *; [done|].
  apply andb_prop in Hs as [Hc Hs]. apply bool_decide_eq_true in Hc as [d Hd].
  by rewrite Hd, IH.
Qed.

Lemma scan_digits_garbage (d : string) (c : ascii) (r : string) (acc : Z) :
  all_digits d = true -> digit_of c = None ->
  scan_digits (d +:+ String c r) acc = (digits_value d acc, String.length d).
Proof.
  revert acc. induction d as [|x d IH]; intros acc Hd Hc; simpl in *.
  - by rewrite Hc.
  - apply andb_prop in Hd as [Hx Hd].
    apply bool_decide_eq_true in Hx as [v Hv].
    by rewrite Hv, IH.
Qed.

Lemma digits_value_mono (s : string) (a b : Z) :
  (a ≤ b)%Z -> (digits_value s a ≤ digits_value s b)%Z.
Proof.
  revert a b. induction s as [|c s IH]; intros a b Hab; simpl; [done|].
  apply IH. lia.
Qed.

Lemma digits_value_nonneg (s : string) (a : Z) :
  all_digits s = true -> (0 ≤ a)%Z -> (a ≤ digits_value s a)%Z.
Proof.
  revert a. induction s as [|c s IH]; intros a Hs Ha; simpl in *; [done|].
  apply andb_prop in Hs as [Hc Hs]. apply bool_decide_eq_true in Hc as [d Hd].
  rewrite Hd. simpl.
  assert (0 ≤ d)%Z
    by (destruct c as [[] [] [] [] [] [] [] []]; simpl in Hd;
        try discriminate Hd; injection Hd as <-; lia).
  etrans; [|apply IH; [done|lia]]. lia.
Qed.

Lemma format_digits_all (fuel : nat) (v : Z) (acc : string) :
  (0 ≤ v)%Z -> all_digits acc = true ->
  all_digits (format_digits fuel v acc) = true.
Proof.
  revert v acc. induction fuel as [|fuel IH]; intros v acc Hv Hacc; simpl.
  - rewrite digit_of_digit_char
      by (pose proof (Z.mod_pos_bound v 10); lia). done.
  - assert (all_digits (String (digit_char (v mod 10)) acc) = true) as Hacc'.
    { simpl. rewrite digit_of_digit_char
        by (pose proof (Z.mod_pos_bound v 10); lia). done. }
    destruct (v / 10 =? 0)%Z; [done|].
    apply IH; [|done]. apply Z.div_pos; lia.
Qed.

Lemma format_digits_value (fuel : nat) (v : Z) (acc : string) :
  (0 ≤ v < 10 ^ Z.of_nat (S fuel))%Z ->
  digits_value (format_digits fuel v acc) 0 = digits_value acc v.
Proof.
  revert v acc. induction fuel as [|fuel IH]; intros v acc Hv.
  - simpl. change (10 ^ Z.of_nat 1)%Z with 10%Z in Hv.
    rewrite Z.mod_small by lia. by rewrite digit_of_digit_char by lia.
  - cbn [format_digits].
    pose proof (Z.mod_pos_bound v 10 ltac:(lia)) as Hmod.
    pose proof (Z.div_mod v 10 ltac:(lia)) as Hdiv.
    destruct (Z.eqb_spec (v / 10) 0) as [Hz|Hnz].
    + simpl. rewrite digit_of_digit_char by lia. simpl.
      f_equal. lia.
    + rewrite IH.
      * simpl. rewrite digit_of_digit_char by lia. simpl. f_equal. lia.
      * split; [apply Z.div_pos; lia|].
        apply Z.div_lt_upper_bound; [lia|].
        rewrite Nat2Z.inj_succ, Z.pow_succ_r in Hv by lia. lia.
Qed.

Lemma sprintf_u_digits (V : Z) :
  (0 ≤ V ≤ UINT_MAX)%Z ->
  all_digits (sprintf_u V) = true ∧ digits_value (sprintf_u V) 0 = V
  ∧ sprintf_u V ≠ "".
Proof.
  intros HV. unfold sprintf_u, UINT_MAX in *.
  rewrite int_cast_unsigned_int, Z.mod_small by lia.
  split; [by apply format_digits_all; [lia|]|]. split.
  - rewrite format_digits_value; [done|].
    change (10 ^ Z.of_nat 10)%Z with 10000000000%Z. lia.
  - assert (∀ n v acc, format_digits n v acc ≠ "") as Hne; [|apply Hne].
    induction n as [|n IH]; intros v acc; simpl; [done|].
    by destruct (v / 10 =? 0)%Z.
Qed.

Lemma digit_not_space (c : ascii) :
  is_Some (digit_of c) -> isspace c = false ∧ g_ascii_isspace c = false.
Proof.
  intros [d Hd].
  by destruct c as [[] [] [] [] [] [] [] []]; simpl in Hd;
    try discriminate Hd.
Qed.

Lemma digit_not_special (c : ascii) :
  is_Some (digit_of c) ->
  xml_entity c = String c "" ∧ Ascii.eqb c "000" = false
  ∧ Ascii.eqb c "+" = false ∧ Ascii.eqb c "-" = false.
Proof.
  intros [d Hd].
  by destruct c as [[] [] [] [] [] [] [] []]; simpl in Hd;
    try discriminate Hd.
Qed.

Lemma g_strchomp_digits (s : string) :
  all_digits s = true -> g_strchomp s = s.
Proof.
  induction s as [|c s IH]; intros Hs; simpl in *; [done|].
  apply andb_prop in Hs as [Hc Hs]. apply bool_decide_eq_true in Hc.
  rewrite IH by done. destruct s; [|done].
  by rewrite (proj2 (digit_not_space c Hc)).
Qed.

Lemma g_strstrip_digits (s : string) :
  all_digits s = true -> g_strstrip s = s.
Proof.
  intros Hs. unfold g_strstrip.
  assert (g_strchug s = s) as ->; [|by apply g_strchomp_digits].
  destruct s as [|c s]; [done|]. simpl in *.
  apply andb_prop in Hs as [Hc _]. apply bool_decide_eq_true in Hc.
  by rewrite (proj2 (digit_not_space c Hc)).
Qed.

Lemma xml_escape_digits (s : string) :
  all_digits s = true -> xml_escape s = s ∧ is_c_string s = true.
Proof.
  induction s as [|c s IH]; intros Hs; simpl in *; [done|].
  apply andb_prop in Hs as [Hc Hs]. apply bool_decide_eq_true in Hc.
  destruct (digit_not_special c Hc) as (-> & -> & _).
  destruct (IH Hs) as [-> ->]. done.
Qed.

(** [strtoul] on a non-empty string of digits followed by [rest], which
    does not start with a digit. *)
Lemma strtoul_digits (d rest : string) :
  all_digits d = true -> d ≠ "" ->
  match rest with String c _ => digit_of c = None | EmptyString => True end ->
  strtoul (d +:+ rest)
  = (Z.min (digits_value d 0) ULONG_MAX, String.length d).
Proof.
  intros Hd Hne Hrest. unfold strtoul.
  destruct d as [|c d]; [done|]. clear Hne.
  pose proof Hd as Hd'. simpl in Hd'.
  apply andb_prop in Hd' as [Hc _]. apply bool_decide_eq_true in Hc.
  destruct (digit_not_space c Hc) as [Hsp _].
  destruct (digit_not_special c Hc) as (_ & _ & Hplus & Hminus).
  rewrite str_app_cons. cbn [skip_spaces]. rewrite Hsp. cbn [string_drop].
  assert (match String c (d +:+ rest) with
          | String "-" _ => (true, 1)
          | String "+" _ => (false, 1)
          | _ => (false, 0)
          end = (false, 0)) as ->.
  { by destruct c as [[] [] [] [] [] [] [] []]. }
  cbn [string_drop]. rewrite <- str_app_cons.
  assert (scan_digits (String c d +:+ rest) 0
          = (digits_value (String c d) 0, String.length (String c d))) as ->.
  { destruct rest as [|x r].
    - rewrite str_app_nil_r. by apply scan_all_digits.
    - by apply scan_digits_garbage. }
  cbn [String.length]. f_equal.
  destruct (Z.ltb_spec ULONG_MAX (digits_value (String c d) 0)); lia.
Qed.

Lemma strtoul_no_number (s : string) :
  no_number s = true -> strtoul s = (0%Z, 0).
Proof.
  intros Hs. unfold strtoul. destruct s as [|c s]; [done|].
  simpl in Hs. repeat (apply andb_prop in Hs as [Hs ?]).
  apply bool_decide_eq_true in Hs.
  cbn [skip_spaces]. destruct (isspace c); [done|]. cbn [string_drop].
  assert (match String c s with
          | String "-" _ => (true, 1)
          | String "+" _ => (false, 1)
          | _ => (false, 0)
          end = (false, 0)) as ->.
  { by destruct c as [[] [] [] [] [] [] [] []]. }
  cbn [string_drop scan_digits]. by rewrite Hs.
Qed.

(** *** Conversions to [SANE_Word] *)

Lemma int_cast_id (t : int_type) (n : Z) :
  (0 ≤ n ≤ int_max t)%Z -> int_cast t n = n.
Proof.
  unfold int_max, int_cast. intros Hn.
  destruct (it_signed t).
  - destruct (decide (it_bits t ≤ 0)%Z) as [Hb|Hb].
    { rewrite Z.pow_neg_r in Hn by lia. lia. }
    replace (it_bits t) with (Z.succ (it_bits t - 1)) at 1 2 3 by lia.
    rewrite Z.pow_succ_r by lia.
    set (h := (2 ^ (it_bits t - 1))%Z) in *.
    replace (2 * h / 2)%Z with h by (rewrite Z.mul_comm, Z.div_mul; lia).
    rewrite Z.mod_small; lia.
  - destruct (decide (it_bits t < 0)%Z) as [Hb|Hb].
    { rewrite Z.pow_neg_r in Hn by lia. lia. }
    apply Z.mod_small. lia.
Qed.

Lemma int_cast_unsigned_overflow (t : int_type) (v : Z) :
  it_signed t = false -> (0 ≤ it_bits t < 64)%Z ->
  (int_max t < v ≤ ULONG_MAX)%Z ->
  int_cast unsigned_long (int_cast t v) ≠ v.
Proof.
  unfold int_max, int_cast. intros -> Hb Hv. simpl.
  assert (0 < 2 ^ it_bits t)%Z as Hpos by (apply Z.pow_pos_nonneg; lia).
  pose proof (Z.mod_pos_bound v (2 ^ it_bits t) Hpos) as Hm.
  rewrite Z.mod_small; [lia|].
  assert (2 ^ it_bits t < 2 ^ 64)%Z by (apply Z.pow_lt_mono_r; lia). lia.
Qed.

(** *** The cached value *)

Lemma text_inv_none (xml : xml_rd) : rd_text xml = None -> text_inv xml.
Proof. intros H t. by rewrite H. Qed.

Lemma switched_text_inv (xml : xml_rd) : text_inv (switched xml).
Proof. apply text_inv_none, switched_frame. Qed.

Lemma deep_next_loop_text_inv (fuel : nat) (xml : xml_rd) (depth : Z) :
  text_inv xml -> text_inv (deep_next_loop fnmatch fuel xml depth).
Proof.
  revert xml. induction fuel as [|fuel IH]; intros xml Hinv; simpl.
  - by destruct (_ && _).
  - destruct (_ && _); [|done]. apply IH.
    unfold xml_rd_next. destruct (rd_node (rd_leave xml)) eqn:Hn.
    + apply switched_text_inv.
    + unfold xml_rd_leave in *. destruct (decide _); [|done].
      apply switched_text_inv.
Qed.

Lemma node_value_text_inv (xml : xml_rd) :
  text_inv xml -> text_inv (fst (xml_rd_node_value xml)).
Proof.
  intros Hinv. unfold xml_rd_node_value. simpl.
  destruct (rd_text xml) eqn:Ht; [done|].
  destruct (rd_node xml) as [p|] eqn:Hp; [|done].
  intros t. destruct xml; simpl in *. subst.
  destruct (xml_deref _ p) as [n|] eqn:Hn; [|done].
  intros [= <-]. eauto.
Qed.

Lemma rd_step_text_inv (xml : xml_rd) (op : rd_op) :
  text_inv xml -> text_inv (rd_step fnmatch xml op).
Proof.
  intros Hinv. destruct op; simpl.
  - unfold xml_rd_next. destruct (rd_node xml); [|done].
    apply switched_text_inv.
  - unfold xml_rd_enter. destruct (rd_node xml); [|done].
    apply switched_text_inv.
  - unfold xml_rd_leave. destruct (decide _); [|done].
    apply switched_text_inv.
  - apply deep_next_loop_text_inv.
    unfold xml_rd_enter. destruct (rd_node xml); [|done].
    apply switched_text_inv.
  - by apply node_value_text_inv.
  - rewrite node_value_uint_fst. by apply node_value_text_inv.
Qed.

Lemma reachable_text_inv (text : string) (len : nat)
    (rules : option (list xml_ns)) (xml0 : xml_rd) (ops : list rd_op) :
  rd_begin text len rules = inr xml0 -> text_inv (run xml0 ops).
Proof.
  intros Hbegin.
  assert (text_inv xml0) as Hinv.
  { unfold xml_rd_begin in Hbegin.
    destruct (xmlParseMemory text len); [|done].
    injection Hbegin as <-. apply switched_text_inv. }
  clear Hbegin. revert xml0 Hinv.
  induction ops as [|op ops IH]; intros xml0 Hinv; [done|].
  simpl. by apply IH, rd_step_text_inv.
Qed.

(** [xml_rd_node_value] on a node gives its stripped content. *)
Lemma node_value_content (xml : xml_rd) (p : xmlNodePtr) (n : xmlNode) :
  text_inv xml -> rd_node xml = Some p ->
  xml_deref (rd_doc xml) p = Some n ->
  snd (xml_rd_node_value xml) = Some (g_strstrip (xmlNodeGetContent n)).
Proof.
  intros Hinv Hp Hn. unfold xml_rd_node_value. simpl.
  destruct (rd_text xml) as [t|] eqn:Ht.
  - destruct (Hinv t Ht) as (p' & n' & Hp' & Hn' & ->).
    rewrite Ht. congruence.
  - rewrite Hp. destruct xml; simpl in *. by rewrite Hn.
Qed.

Lemma node_value_name (xml : xml_rd) :
  xml_rd_node_name (fst (xml_rd_node_value xml)) = xml_rd_node_name xml.
Proof.
  unfold xml_rd_node_value. simpl.
  destruct (rd_text xml); [done|]. by destruct (rd_node xml).
Qed.

(** [xml_rd_node_value_uint] in terms of the value and of [strtoul]. *)
Lemma node_value_uint_unfold (W : int_type) (xml : xml_rd) :
  snd (xml_rd_node_value_uint W xml)
  = match snd (xml_rd_node_value xml) with
    | None => Aborted
    | Some s =>
        if bool_decide (snd (strtoul s) = 0)
           || negb (String.eqb (string_drop (snd (strtoul s)) s) "")
           || negb (fst (strtoul s)
                    =? int_cast unsigned_long (int_cast W (fst (strtoul s))))%Z
        then Failed (invalid_numerical_value (xml_rd_node_name xml))
        else Done (int_cast W (fst (strtoul s)))
    end.
Proof.
  unfold xml_rd_node_value_uint.
  pose proof (node_value_name xml) as Hname.
  destruct (xml_rd_node_value xml) as [xml' [s|]]; [|done].
  simpl in *. destruct (strtoul s) as [v e]. simpl.
  destruct (_ || _); simpl; by rewrite ?Hname.
Qed.

(** The outcome for a text of digits only. *)
Lemma node_value_uint_digits (W : int_type) (xml : xml_rd) (s : string) :
  snd (xml_rd_node_value xml) = Some s ->
  all_digits s = true -> s ≠ "" ->
  let v := Z.min (digits_value s 0) ULONG_MAX in
  snd (xml_rd_node_value_uint W xml)
  = if (v =? int_cast unsigned_long (int_cast W v))%Z
    then Done (int_cast W v)
    else Failed (invalid_numerical_value (xml_rd_node_name xml)).
Proof.
  intros Hs Hd Hne v. rewrite node_value_uint_unfold, Hs.
  pose proof (strtoul_digits s "" Hd Hne I) as Hst.
  rewrite str_app_nil_r in Hst. rewrite Hst. simpl. fold v.
  assert (string_drop (String.length s) s = "") as ->.
  { pose proof (string_drop_app s "") as H. by rewrite str_app_nil_r in H. }
  rewrite bool_decide_eq_false_2 by (by destruct s).
  simpl. by destruct (_ =? _)%Z.
Qed.

(** C6 (as amended): [xml_rd_node_value_uint] asserts that the value is
    present: without a value (no current node) the call aborts on the
    assertion, it does not return a value error.  With a value: a text of
    decimal digits only yields its number when the number fits
    [SANE_Word]; it yields the value error when the number exceeds an
    unsigned [SANE_Word] narrower than [unsigned long]; a text that starts
    with no number (empty, or starting with a character that is neither a
    digit, a sign nor white space) and a number followed by anything else
    yield the value error. *)
Theorem xml_rd_node_value_uint_spec (W : int_type) (xml : xml_rd) :
  (snd (xml_rd_node_value xml) = None ->
   snd (xml_rd_node_value_uint W xml) = Aborted)
  ∧ (∀ s,
       snd (xml_rd_node_value xml) = Some s ->
       let value_error :=
         Failed (invalid_numerical_value (xml_rd_node_name xml)) in
       (all_digits s = true -> s ≠ "" ->
          ((digits_value s 0 ≤ Z.min (int_max W) ULONG_MAX)%Z ->
           snd (xml_rd_node_value_uint W xml) = Done (digits_value s 0))
          ∧ (it_signed W = false -> (0 ≤ it_bits W < 64)%Z ->
             (int_max W < digits_value s 0)%Z ->
             snd (xml_rd_node_value_uint W xml) = value_error))
       ∧ (no_number s = true ->
          snd (xml_rd_node_value_uint W xml) = value_error)
       ∧ (∀ d c r,
            s = d +:+ String c r -> all_digits d = true -> d ≠ "" ->
            digit_of c = None ->
            snd (xml_rd_node_value_uint W xml) = value_error)).
Proof.
  split.
  { intros Hs. by rewrite node_value_uint_unfold, Hs. }
  intros s Hs value_error. split; [|split].
  - intros Hd Hne.
    pose proof (digits_value_nonneg s 0 Hd ltac:(lia)) as Hpos.
    rewrite (node_value_uint_digits W xml s Hs Hd Hne). split.
    + intros Hfit. rewrite Z.min_l by lia.
      rewrite (int_cast_id W) by lia.
      rewrite (int_cast_id unsigned_long)
        by (unfold int_max, ULONG_MAX in *; simpl; lia).
      by rewrite Z.eqb_refl.
    + intros Hu Hb Hbig.
      set (v := Z.min (digits_value s 0) ULONG_MAX).
      assert (int_max W < ULONG_MAX)%Z as Hmax.
      { unfold int_max, ULONG_MAX. rewrite Hu.
        assert (2 ^ it_bits W < 2 ^ 64)%Z by (apply Z.pow_lt_mono_r; lia).
        lia. }
      pose proof (int_cast_unsigned_overflow W v Hu Hb ltac:(lia)) as Hne'.
      destruct (Z.eqb_spec v (int_cast unsigned_long (int_cast W v)));
        [congruence|done].
  - intros Hno. rewrite node_value_uint_unfold, Hs.
    by rewrite (strtoul_no_number s Hno).
  - intros d c r -> Hd Hne Hc. rewrite node_value_uint_unfold, Hs.
    rewrite (strtoul_digits d (String c r) Hd Hne Hc). simpl.
    rewrite string_drop_app. simpl. by rewrite orb_true_r.
Qed.

(** C1: a value [V] that [SANE_Word] can represent, written by
    [xml_wr_add_uint], is read back as [V]: the leaf carries the decimal
    digits of [V], the serializer writes them between the tags as they
    are, and on a reader over the rendered document, at a node whose
    content is that text, [xml_rd_node_value_uint] returns [V].  The text
    [-18446744073709551615] however, which denotes no representable value,
    is accepted as well and read as 1. *)
Theorem xml_wr_add_uint_read_back (W : int_type) :
  (∀ (V : Z) (wr : xml_wr) (name : string) (attrs : option (list xml_attr))
     (compact : bool) (rules : option (list xml_ns)) (xml0 : xml_rd)
     (ops : list rd_op) (p : xmlNodePtr) (n : xmlNode),
     let wr' := xml_wr_add_uint_attr wr name V attrs in
     let text := xml_wr_finish_internal wr' compact in
     (0 ≤ V ≤ Z.min UINT_MAX (int_max W))%Z ->
     rd_begin text (String.length text) rules = inr xml0 ->
     let xml := run xml0 ops in
     rd_node xml = Some p ->
     xml_deref (rd_doc xml) p = Some n ->
     wn_value <$> head (wn_children (wr_current wr'))
     = Some (Some (xmlNodeGetContent n)) ->
     xml_escape (xmlNodeGetContent n) = xmlNodeGetContent n
     ∧ snd (xml_rd_node_value_uint W xml) = Done V)
  ∧ ((1 ≤ int_max W)%Z ->
     snd (xml_rd_node_value negative_rd) = Some "-18446744073709551615"
     ∧ snd (xml_rd_node_value_uint W negative_rd) = Done 1%Z).
Proof.
  split.
  - intros V wr name attrs compact rules xml0 ops p n wr' text HV Hbegin xml
      Hp Hn Hleaf.
    subst xml.
    assert (xmlNodeGetContent n = sprintf_u V) as Hcontent.
    { subst wr'. unfold xml_wr_add_uint_attr, xml_wr_add_text_attr,
        xml_wr_add_node, wr_plug in Hleaf. simpl in Hleaf.
      destruct (wr_current wr). simpl in Hleaf. congruence. }
    destruct (sprintf_u_digits V ltac:(lia)) as (Hd & Hval & Hne).
    rewrite Hcontent. split; [by apply xml_escape_digits|].
    pose proof (reachable_text_inv _ _ _ _ ops Hbegin) as Htext.
    pose proof (node_value_content _ p n Htext Hp Hn) as Hs.
    rewrite Hcontent, g_strstrip_digits in Hs by done.
    rewrite (node_value_uint_digits W _ _ Hs Hd Hne), Hval.
    unfold UINT_MAX, ULONG_MAX in *. rewrite Z.min_l by lia.
    rewrite (int_cast_id W) by lia.
    rewrite (int_cast_id unsigned_long) by (unfold int_max; simpl; lia).
    by rewrite Z.eqb_refl.
  - intros HW. split; [done|].
    rewrite node_value_uint_unfold.
    change (snd (xml_rd_node_value negative_rd))
      with (Some "-18446744073709551615").
    cbn beta iota. set (st := strtoul _).
    assert (st = (1%Z, 21)) as -> by (by vm_compute).
    cbn [fst snd]. rewrite (int_cast_id W) by lia.
    by vm_compute.
Qed.


(** *** End of document *)

(** C10: with the cursor at end-of-document (no current node), [next] and
    [enter] return the reader unchanged: depth, current node, parent,
    name, path, path-length stack and cached value are all as before. *)
Theorem xml_rd_next_enter_at_end (xml : xml_rd) :
  rd_node xml = None ->
  rd_next xml = xml ∧ rd_enter xml = xml.
Proof.
  intros Hend. unfold xml_rd_next, xml_rd_enter. rewrite Hend. done.
Qed.

End Properties.

(** * The reader at work *)

Section Reader.

Context (fnmatch : string -> string -> Z -> Z).
Context (xmlParseMemory : string -> nat -> option xmlDoc).

(** *** Element pointers *)

Lemma elem_at_cons (doc : xmlDoc) (p : xmlNodePtr) :
  elem_at doc p -> ∃ i q, p = i :: q.
Proof. intros (n & Hn & _). destruct p as [|i q]; [done|eauto]. Qed.

Lemma elem_at_parent (doc : xmlDoc) (i j : nat) (q : xmlNodePtr) :
  elem_at doc (i :: j :: q) -> elem_at doc (j :: q).
Proof.
  intros (n & Hn & _). simpl in Hn. rewrite xml_children_cons in Hn.
  destruct (xml_children doc q !! j) as [c|] eqn:Hc; [|done].
  exists c. split; [done|].
  destruct c as [name ns cs|kind s]; [done|]. simpl in Hn.
  by rewrite lookup_nil in Hn.
Qed.

Lemma first_element_elem_at (doc : xmlDoc) (q : xmlNodePtr) (m j : nat) :
  first_element (drop m (xml_children doc q)) m = Some j ->
  elem_at doc (j :: q).
Proof.
  intros Hfirst.
  destruct (first_element_Some _ _ _ Hfirst) as (Hle & n & Hn & He & _).
  exists n. split; [|done]. simpl. rewrite lookup_drop in Hn.
  by replace (m + (j - m)) with j in Hn by lia.
Qed.

Lemma nav_skip_first (doc : xmlDoc) (q : xmlNodePtr) (m : nat) :
  nav_skip doc ((λ j, j :: q) <$> first_element (drop m (xml_children doc q)) m)
  = (λ j, j :: q) <$> first_element (drop m (xml_children doc q)) m.
Proof.
  destruct (first_element _ m) as [j|] eqn:Hfirst; [|done].
  destruct (first_element_elem_at _ _ _ _ Hfirst) as (n & Hn & He).
  by apply (nav_skip_element doc q j n).
Qed.

(** *** The cursor stays on element nodes *)

Lemma nav_next_ok (doc : xmlDoc) (c : cursor) :
  cur_ok doc c -> cur_ok doc (nav_next doc c).
Proof.
  intros [Hd Hn Hp]. unfold nav_next.
  destruct (cur_node c) as [p|] eqn:Hc; [|by split; [|rewrite Hc|]].
  destruct (Hn p eq_refl) as (He & Hlen & Hpar).
  destruct (elem_at_cons _ _ He) as (i & q & ->).
  rewrite nav_skip_next. split; simpl; [done| |done].
  intros p'. destruct (first_element _ _) as [j|] eqn:Hfirst; [|done].
  intros [= <-]. split; [by eapply first_element_elem_at|]. by split.
Qed.

Lemma nav_enter_ok (doc : xmlDoc) (c : cursor) :
  cur_ok doc c -> cur_ok doc (nav_enter doc c).
Proof.
  intros [Hd Hn Hp]. unfold nav_enter.
  destruct (cur_node c) as [p|] eqn:Hc; [|by split; [|rewrite Hc|]].
  destruct (Hn p eq_refl) as (He & Hlen & _).
  rewrite nav_skip_children.
  pose proof (nav_skip_first doc p 0) as Hskip. rewrite drop_0 in Hskip.
  rewrite Hskip. rewrite int_cast_unsigned_int.
  pose proof (Z.mod_pos_bound (cur_depth c + 1) (2 ^ 32) ltac:(lia)) as Hm.
  assert ((cur_depth c + 1) mod 2 ^ 32 ≤ cur_depth c + 1)%Z as Hle
    by (apply Z.mod_le; lia).
  split; simpl; [lia| |].
  - intros p'. destruct (first_element _ _) as [j|] eqn:Hfirst; [|done].
    intros [= <-]. split.
    + apply (first_element_elem_at doc p 0). by rewrite drop_0.
    + split; [simpl; lia|done].
  - intros _. exists p. split; [done|]. split; [done|lia].
Qed.

Lemma nav_leave_ok (doc : xmlDoc) (c : cursor) :
  cur_ok doc c -> cur_ok doc (nav_leave c).
Proof.
  intros Hok. unfold nav_leave.
  destruct (decide (0 < cur_depth c)%Z) as [Hpos|]; [|done].
  destruct Hok as [Hd Hn Hp].
  destruct (Hp Hpos) as (q & Hq & He & Hlen). rewrite Hq.
  split; simpl; [lia| |].
  - intros p [= <-]. split; [done|]. split; [lia|done].
  - intros Hpos'. destruct q as [|j [|j' q]]; simpl in *; try lia.
    exists (j' :: q). split; [done|]. split; [by eapply elem_at_parent|].
    simpl. lia.
Qed.

Lemma nav_deep_next_loop_ok (doc : xmlDoc) (fuel : nat) (c : cursor)
    (depth : Z) :
  cur_ok doc c -> cur_ok doc (nav_deep_next_loop doc fuel c depth).
Proof.
  revert c. induction fuel as [|fuel IH]; intros c Hok; simpl.
  - by destruct (_ && _).
  - destruct (_ && _); [|done]. by apply IH, nav_next_ok, nav_leave_ok.
Qed.

Lemma nav_deep_next_ok (doc : xmlDoc) (c : cursor) (depth : Z) :
  cur_ok doc c -> cur_ok doc (nav_deep_next doc c depth).
Proof. intros Hok. by apply nav_deep_next_loop_ok, nav_enter_ok. Qed.

(** *** The depth counter *)

Lemma elem_at_bound (doc : xmlDoc) (p : xmlNodePtr) :
  nesting_bound doc -> elem_at doc p -> (Z.of_nat (length p) ≤ UINT_MAX)%Z.
Proof. intros Hb He. by apply Hb, doc_elements_member. Qed.

Lemma nav_next_tight (doc : xmlDoc) (c : cursor) :
  cur_ok doc c -> cur_tight c -> cur_tight (nav_next doc c).
Proof.
  intros [Hd Hn Hp] [Hnode Hpar]. unfold nav_next.
  destruct (cur_node c) as [p|] eqn:Hc; [|by split; [rewrite Hc|]].
  destruct (Hn p eq_refl) as (He & _).
  destruct (elem_at_cons _ _ He) as (i & q & ->).
  rewrite nav_skip_next. split; simpl; [|done].
  intros p'. destruct (first_element _ _) as [j|]; [|done].
  intros [= <-]. by rewrite <- (Hnode (i :: q)).
Qed.

Lemma nav_enter_tight (doc : xmlDoc) (c : cursor) :
  nesting_bound doc ->
  cur_ok doc c -> cur_tight c -> cur_tight (nav_enter doc c).
Proof.
  intros Hb [Hd Hn Hp] [Hnode Hpar]. unfold nav_enter.
  destruct (cur_node c) as [p|] eqn:Hc; [|by split; [rewrite Hc|]].
  destruct (Hn p eq_refl) as (He & _).
  pose proof (elem_at_bound doc p Hb He) as Hmax.
  pose proof (Hnode p eq_refl) as Hlen.
  rewrite int_cast_unsigned_int, Z.mod_small
    by (unfold UINT_MAX in Hmax; lia).
  rewrite nav_skip_children.
  pose proof (nav_skip_first doc p 0) as Hskip. rewrite drop_0 in Hskip.
  rewrite Hskip. split; simpl.
  - intros p'. destruct (first_element _ _) as [j|]; [|done].
    intros [= <-]. simpl. lia.
  - intros _ q [= <-]. lia.
Qed.

Lemma nav_leave_tight (doc : xmlDoc) (c : cursor) :
  cur_ok doc c -> cur_tight c -> cur_tight (nav_leave c).
Proof.
  intros Hok [Hnode Hpar]. unfold nav_leave.
  destruct (decide (0 < cur_depth c)%Z) as [Hpos|]; [|done].
  destruct Hok as [Hd Hn Hp].
  destruct (Hp Hpos) as (q & Hq & He & _). rewrite Hq.
  pose proof (Hpar Hpos q Hq) as Hlen.
  split; simpl.
  - intros p [= <-]. lia.
  - intros Hpos' q'. destruct q as [|j q]; [done|]. simpl.
    intros [= <-]. simpl in Hlen. lia.
Qed.

Lemma nav_deep_next_loop_tight (doc : xmlDoc) (fuel : nat) (c : cursor)
    (depth : Z) :
  cur_ok doc c -> cur_tight c ->
  cur_tight (nav_deep_next_loop doc fuel c depth).
Proof.
  revert c. induction fuel as [|fuel IH]; intros c Hok Ht; simpl.
  - by destruct (_ && _).
  - destruct (_ && _); [|done]. apply IH.
    + by apply nav_next_ok, nav_leave_ok.
    + apply nav_next_tight; [by apply nav_leave_ok|].
      by apply (nav_leave_tight doc).
Qed.

(** *** Readers reached from [xml_rd_begin] *)

Lemma cursor_value (xml : xml_rd) :
  rd_cursor (fst (xml_rd_node_value xml)) = rd_cursor xml.
Proof.
  unfold xml_rd_node_value. simpl.
  destruct (rd_text xml); [done|]. by destruct (rd_node xml).
Qed.

Lemma rd_step_pos (b : bool) (xml : xml_rd) (op : rd_op) :
  rd_pos b xml -> rd_pos b (rd_step fnmatch xml op).
Proof.
  intros [Hok Ht]. unfold rd_pos.
  rewrite (proj1 (rd_step_frame fnmatch xml op)).
  assert (cur_ok (rd_doc xml) (rd_cursor (rd_step fnmatch xml op))
          ∧ (b = true -> cur_tight (rd_cursor (rd_step fnmatch xml op))))
    as [? ?]; [|by split; [|intros Hb; split; [apply Ht|auto]]].
  destruct op; cbn [rd_step].
  - rewrite cursor_next. split; [by apply nav_next_ok|].
    intros Hb. apply nav_next_tight; [done|by apply Ht].
  - rewrite cursor_enter. split; [by apply nav_enter_ok|].
    intros Hb. apply nav_enter_tight; [by apply Ht|done|by apply Ht].
  - rewrite cursor_leave. split; [by apply nav_leave_ok|].
    intros Hb. apply (nav_leave_tight (rd_doc xml)); [done|by apply Ht].
  - rewrite cursor_deep_next. split; [by apply nav_deep_next_ok|].
    intros Hb. apply nav_deep_next_loop_tight; [by apply nav_enter_ok|].
    apply nav_enter_tight; [by apply Ht|done|by apply Ht].
  - rewrite cursor_value. split; [done|]. intros Hb. by apply Ht.
  - rewrite node_value_uint_fst, cursor_value. split; [done|].
    intros Hb. by apply Ht.
Qed.

Lemma run_pos (b : bool) (xml : xml_rd) (ops : list rd_op) :
  rd_pos b xml -> rd_pos b (rd_run fnmatch xml ops).
Proof.
  revert xml. induction ops as [|op ops IH]; intros xml Hpos; [done|].
  simpl. by apply IH, rd_step_pos.
Qed.

Lemma begin_pos (b : bool) (text : string) (len : nat)
    (rules : option (list xml_ns)) (xml : xml_rd) :
  xml_rd_begin fnmatch xmlParseMemory text len rules = inr xml ->
  (b = true -> nesting_bound (rd_doc xml)) ->
  rd_pos b xml.
Proof.
  intros Hbegin Hb. unfold rd_pos.
  rewrite (begin_cursor _ _ _ _ _ _ Hbegin).
  assert (∀ p, (λ i, [i]) <$> first_element (doc_children (rd_doc xml)) 0
               = Some p -> elem_at (rd_doc xml) p ∧ length p = 1) as Hroot.
  { intros p. destruct (first_element _ _) as [i|] eqn:Hfirst; [|done].
    intros [= <-]. split; [|done].
    apply (first_element_elem_at _ [] 0). by rewrite drop_0. }
  split.
  - split; simpl; [done| |lia].
    intros p Hp. destruct (Hroot p Hp) as [He Hlen].
    split; [done|]. split; [lia|lia].
  - intros ->. split; [by apply Hb|]. split; simpl; [|lia].
    intros p Hp. destruct (Hroot p Hp) as [_ ->]. done.
Qed.

Lemma reachable_pos (b : bool) (text : string) (len : nat)
    (rules : option (list xml_ns)) (xml0 : xml_rd) (ops : list rd_op) :
  xml_rd_begin fnmatch xmlParseMemory text len rules = inr xml0 ->
  (b = true -> nesting_bound (rd_doc xml0)) ->
  rd_pos b (rd_run fnmatch xml0 ops).
Proof. intros Hbegin Hb. by apply run_pos, (begin_pos b text len rules). Qed.

(** *** The path buffer *)

Lemma dir_path_ext (x y : xml_rd) (q : xmlNodePtr) :
  rd_doc x = rd_doc y -> rd_subst_rules x = rd_subst_rules y ->
  dir_path fnmatch x q = dir_path fnmatch y q.
Proof.
  intros Hd Hr. induction q as [|i q IH]; [done|]. simpl.
  by rewrite IH, (qualified_name_ext fnmatch x y).
Qed.

Lemma base_len_dir (xml : xml_rd) :
  (0 ≤ rd_depth xml)%Z -> stack_inv fnmatch xml ->
  base_len xml = String.length (dir_path fnmatch xml (rd_dir xml)).
Proof.
  intros Hd Hs. unfold base_len.
  destruct (decide (rd_depth xml = 0%Z)) as [Hz|Hnz].
  - unfold rd_dir. by rewrite decide_True.
  - rewrite (Hs (Z.to_nat (rd_depth xml - 1))) by lia.
    by replace (Z.to_nat (rd_depth xml) - 1 - Z.to_nat (rd_depth xml - 1))
      with 0 by lia.
Qed.

Lemma take_base (xml : xml_rd) :
  (0 ≤ rd_depth xml)%Z -> path_inv fnmatch xml ->
  string_take (base_len xml) (rd_path xml)
  = dir_path fnmatch xml (rd_dir xml).
Proof.
  intros Hd [Hs Hp]. rewrite base_len_dir, Hp by done.
  apply string_take_app.
Qed.

(** [xml_rd_node_switched] rebuilds the path from the part that the stack
    of path lengths keeps. *)
Lemma switched_path_inv (x1 : xml_rd) :
  rd_pre fnmatch x1 -> stack_inv fnmatch x1 ->
  string_take (base_len x1) (rd_path x1) = dir_path fnmatch x1 (rd_dir x1) ->
  path_inv fnmatch (xml_rd_node_switched fnmatch x1).
Proof.
  intros Hpre Hs Htake.
  destruct (switched_frame fnmatch x1)
    as (Fd & Fn & Fp & Fdep & Fpl & _ & Fr & _).
  destruct (switched_path fnmatch x1 Hpre) as [Hpath _].
  assert (rd_dir (xml_rd_node_switched fnmatch x1) = rd_dir x1) as Hdir
    by (unfold rd_dir; by rewrite Fdep, Fp).
  split.
  - intros k Hk. rewrite Fdep in Hk. rewrite Fpl, Fdep, Hdir, (Hs k Hk).
    f_equal. by apply dir_path_ext.
  - rewrite Hpath, Htake, Hdir, Fn.
    rewrite (dir_path_ext (xml_rd_node_switched fnmatch x1) x1) by done.
    destruct (rd_node x1); simpl; [|done]. f_equal.
    by apply qualified_name_ext.
Qed.

Lemma stack_inv_ext (x y : xml_rd) :
  rd_doc x = rd_doc y -> rd_subst_rules x = rd_subst_rules y ->
  rd_depth x = rd_depth y -> rd_parent x = rd_parent y ->
  rd_pathlen x = rd_pathlen y ->
  stack_inv fnmatch x -> stack_inv fnmatch y.
Proof.
  intros Hd Hr Hdep Hpar Hpl Hs k Hk. rewrite <- Hdep in Hk.
  rewrite <- Hpl, (Hs k Hk), Hdep. unfold rd_dir. rewrite Hdep, Hpar.
  f_equal. by apply dir_path_ext.
Qed.

Lemma path_inv_set_text (xml : xml_rd) (t : option string) :
  path_inv fnmatch xml -> path_inv fnmatch (set_text t xml).
Proof.
  intros [Hs Hp]. split.
  - by apply (stack_inv_ext xml).
  - rewrite (dir_path_ext _ xml) by done. exact Hp.
Qed.

(** The current node is a child of the node whose children the reader
    iterates. *)
Lemma node_dir (xml : xml_rd) (p : xmlNodePtr) :
  rd_pos true xml -> rd_node xml = Some p -> ∃ i, p = i :: rd_dir xml.
Proof.
  intros [[Hd Hn Hp] Ht] Hnode. destruct (Ht eq_refl) as [_ [Hlen _]].
  destruct (Hn p Hnode) as (He & _ & Hpar).
  specialize (Hlen p Hnode).
  destruct (elem_at_cons _ _ He) as (i & q & ->). exists i. f_equal.
  unfold rd_dir. simpl in *.
  destruct (decide (rd_depth xml = 0%Z)) as [Hz|Hnz].
  - destruct q; [done|]. simpl in Hlen. lia.
  - by rewrite Hpar by lia.
Qed.

Lemma next_full (xml : xml_rd) :
  rd_full fnmatch xml -> rd_full fnmatch (xml_rd_next fnmatch xml).
Proof.
  intros (Hinv & Hpos & Hpath).
  split; [by apply next_inv|]. split; [apply (rd_step_pos true xml OpNext Hpos)|].
  unfold xml_rd_next. destruct (rd_node xml) as [p|]; [|done].
  pose proof (pre_depth _ _ (inv_pre _ _ Hinv)) as Hd.
  apply switched_path_inv.
  - apply rd_pre_skip_dummy, rd_pre_set_node, Hinv.
  - by apply (stack_inv_ext xml); [..|apply Hpath].
  - etrans; [apply (take_base xml); [lia|done]|].
    by apply dir_path_ext.
Qed.

Lemma enter_full (xml : xml_rd) :
  rd_full fnmatch xml -> rd_full fnmatch (xml_rd_enter fnmatch xml).
Proof.
  intros (Hinv & Hpos & Hpath).
  split; [by apply enter_inv|].
  split; [apply (rd_step_pos true xml OpEnter Hpos)|].
  destruct (rd_node xml) as [p|] eqn:Hp;
    [|unfold xml_rd_enter; by rewrite Hp].
  destruct Hpath as [Hs Hpath].
  destruct (enter_shape fnmatch xml p Hinv Hp)
    as (x1 & -> & Hpre1 & Hdoc1 & Hrules1 & Hpar1 & Hdep1 & Hpath1 & Hpl1
        & Hpls1).
  destruct (node_dir xml p Hpos Hp) as [i Hi].
  destruct Hpos as [[Hd Hn _] Ht]. destruct (Ht eq_refl) as [Hb [Hlen _]].
  destruct (Hn p Hp) as (He & _).
  pose proof (elem_at_bound _ _ Hb He) as Hmax.
  specialize (Hlen p Hp). simpl in Hd, Hlen.
  rewrite int_cast_unsigned_int, Z.mod_small in Hdep1
    by (unfold UINT_MAX in Hmax; lia).
  assert (rd_dir x1 = p) as Hdir1.
  { unfold rd_dir. rewrite Hdep1, decide_False by lia. by rewrite Hpar1. }
  assert (dir_path fnmatch x1 p = rd_path xml +:+ "/") as Hdp.
  { rewrite (dir_path_ext x1 xml) by done. rewrite Hi. simpl.
    rewrite Hpath, Hp. simpl. rewrite Hi. by rewrite str_app_assoc. }
  apply switched_path_inv; [done| |].
  - intros k Hk. rewrite Hdep1 in Hk |- *. rewrite Hdir1.
    destruct (decide (k = Z.to_nat (rd_depth xml))) as [->|Hne].
    + rewrite Hpl1.
      replace (Z.to_nat (rd_depth xml + 1) - 1 - Z.to_nat (rd_depth xml))
        with 0 by lia.
      by rewrite drop_0, Hdp.
    + rewrite Hpls1 by lia. rewrite (Hs k) by lia.
      replace (Z.to_nat (rd_depth xml + 1) - 1 - k)
        with (S (Z.to_nat (rd_depth xml) - 1 - k)) by lia.
      rewrite Hi. simpl. f_equal. by apply dir_path_ext.
  - assert (base_len x1 = String.length (rd_path x1)) as ->.
    { unfold base_len. rewrite Hdep1, decide_False by lia.
      replace (Z.to_nat (rd_depth xml + 1 - 1)) with (Z.to_nat (rd_depth xml))
        by lia.
      by rewrite Hpl1, Hpath1. }
    by rewrite string_take_all, Hdir1, Hdp.
Qed.

Lemma leave_full (xml : xml_rd) :
  rd_full fnmatch xml -> rd_full fnmatch (xml_rd_leave fnmatch xml).
Proof.
  intros (Hinv & Hpos & Hpath).
  split; [by apply leave_inv|].
  split; [apply (rd_step_pos true xml OpLeave Hpos)|].
  destruct (decide (0 < rd_depth xml)%Z) as [Hdpos|Hz];
    [|unfold xml_rd_leave; by rewrite decide_False].
  destruct Hpath as [Hs Hpath].
  pose proof (cursor_leave fnmatch xml) as Hcur.
  destruct (leave_shape fnmatch xml Hinv Hdpos)
    as (x1 & Hl & Hpre1 & Hdoc1 & Hrules1 & Hnode1 & Hdep1 & Hpath1 & Hpl1).
  rewrite Hl in Hcur |- *. rewrite cursor_switched in Hcur.
  destruct Hpos as [[Hd Hn Hp] Ht]. destruct (Ht eq_refl) as [_ [_ Hlen]].
  destruct (Hp Hdpos) as (q & Hq & He & _).
  specialize (Hlen Hdpos q Hq). simpl in Hq, Hlen, Hd.
  destruct (elem_at_cons _ _ He) as (j & q' & ->). simpl in Hlen.
  assert (rd_parent x1 = Some q') as Hpar1.
  { change (rd_parent x1) with (cur_parent (rd_cursor x1)). rewrite Hcur.
    unfold nav_leave. rewrite decide_True by done. simpl. by rewrite Hq. }
  assert (rd_dir xml = j :: q') as Hdir.
  { unfold rd_dir. rewrite decide_False by lia. by rewrite Hq. }
  assert (rd_dir x1 = q') as Hdir1.
  { unfold rd_dir. rewrite Hdep1, Hpar1.
    destruct (decide _); [|done]. destruct q'; [done|]. simpl in Hlen. lia. }
  assert (stack_inv fnmatch x1) as Hs1.
  { intros k Hk. rewrite Hdep1 in Hk |- *. rewrite Hdir1, Hpl1.
    rewrite (Hs k) by lia. rewrite Hdir.
    replace (Z.to_nat (rd_depth xml) - 1 - k)
      with (S (Z.to_nat (rd_depth xml - 1) - 1 - k)) by lia.
    simpl. f_equal. by apply dir_path_ext. }
  apply switched_path_inv; [done|done|].
  rewrite base_len_dir by (done || lia).
  rewrite Hdir1, Hpath1, Hpath, Hdir. simpl.
  rewrite (dir_path_ext x1 xml) by done.
  rewrite !str_app_assoc. apply string_take_app.
Qed.

Lemma value_full (xml : xml_rd) :
  rd_full fnmatch xml -> rd_full fnmatch (fst (xml_rd_node_value xml)).
Proof.
  intros (Hinv & Hpos & Hpath).
  split; [by apply node_value_inv|].
  split; [apply (rd_step_pos true xml OpValue Hpos)|].
  unfold xml_rd_node_value. simpl.
  destruct (rd_text xml); [done|]. destruct (rd_node xml); [|done].
  by apply path_inv_set_text.
Qed.

Lemma deep_next_loop_full (fuel : nat) (xml : xml_rd) (depth : Z) :
  rd_full fnmatch xml ->
  rd_full fnmatch (deep_next_loop fnmatch fuel xml depth).
Proof.
  revert xml. induction fuel as [|fuel IH]; intros xml Hfull; simpl.
  - by destruct (_ && _).
  - destruct (_ && _); [|done]. by apply IH, next_full, leave_full.
Qed.

Lemma rd_step_full (xml : xml_rd) (op : rd_op) :
  rd_full fnmatch xml -> rd_full fnmatch (rd_step fnmatch xml op).
Proof.
  destruct op; cbn [rd_step].
  - apply next_full.
  - apply enter_full.
  - apply leave_full.
  - intros Hfull. by apply deep_next_loop_full, enter_full.
  - apply value_full.
  - rewrite node_value_uint_fst. apply value_full.
Qed.

Lemma run_full (xml : xml_rd) (ops : list rd_op) :
  rd_full fnmatch xml -> rd_full fnmatch (rd_run fnmatch xml ops).
Proof.
  revert xml. induction ops as [|op ops IH]; intros xml Hfull; [done|].
  simpl. by apply IH, rd_step_full.
Qed.

Lemma begin_full (text : string) (len : nat) (rules : option (list xml_ns))
    (xml : xml_rd) :
  xml_rd_begin fnmatch xmlParseMemory text len rules = inr xml ->
  nesting_bound (rd_doc xml) -> rd_full fnmatch xml.
Proof.
  intros Hbegin Hb.
  split; [by eapply begin_inv|].
  split; [by apply (begin_pos true text len rules)|].
  unfold xml_rd_begin in Hbegin.
  destruct (xmlParseMemory text len) as [doc|]; [|done].
  injection Hbegin as <-. apply switched_path_inv.
  - apply rd_pre_skip_dummy. split; simpl.
    + unfold cache_valid. destruct rules; [constructor|done].
    + apply NoDup_nil_2.
    + split; [done|lia].
    + lia.
    + done.
    + intros i Hi. lia.
    + done.
  - intros k Hk. simpl in Hk. lia.
  - done.
Qed.

Lemma reachable_full (text : string) (len : nat)
    (rules : option (list xml_ns)) (xml0 : xml_rd) (ops : list rd_op) :
  xml_rd_begin fnmatch xmlParseMemory text len rules = inr xml0 ->
  nesting_bound (rd_doc xml0) -> rd_full fnmatch (rd_run fnmatch xml0 ops).
Proof. intros Hbegin Hb. by apply run_full, (begin_full text len rules). Qed.

(** *** What a reader reports *)

(** The name is the part of the path buffer after the kept prefix. *)
Lemma inv_node_name (xml : xml_rd) :
  rd_inv fnmatch xml ->
  xml_rd_node_name xml = qualified_name fnmatch xml <$> rd_node xml.
Proof.
  intros [Hpre Hpath Hname]. unfold xml_rd_node_name. rewrite Hname.
  destruct (rd_node xml) as [p|]; [|done]. simpl in *. f_equal.
  rewrite Hpath.
  rewrite <- (string_take_length (base_len xml) (rd_path xml)) at 1
    by apply Hpre.
  apply string_drop_app.
Qed.

(** On a document nested less than [2^32] deep, the depth, the name and
    the path are functions of the current node. *)
Lemma full_observe (xml : xml_rd) (p : xmlNodePtr) :
  rd_full fnmatch xml -> rd_node xml = Some p ->
  Z.of_nat (length p) = (rd_depth xml + 1)%Z
  ∧ xml_rd_node_name xml = Some (qualified_name fnmatch xml p)
  ∧ xml_rd_node_path xml = Some (node_path fnmatch xml p).
Proof.
  intros (Hinv & Hpos & Hs & Hpath) Hp.
  destruct (node_dir xml p Hpos Hp) as [i Hi].
  destruct Hpos as [_ Ht]. destruct (Ht eq_refl) as [_ [Hlen _]].
  split; [by apply Hlen|]. split.
  - by rewrite inv_node_name, Hp.
  - unfold xml_rd_node_path. rewrite Hp, Hpath, Hp. simpl.
    unfold node_path. by rewrite Hi.
Qed.

(** X1: the current node of a reader is never a text, comment, CDATA or
    processing-instruction node: after [xml_rd_begin] and any calls, the
    reader is at the end of its level or on an element node of the
    document. *)
Theorem xml_rd_node_is_element (text : string) (len : nat)
    (rules : option (list xml_ns)) (xml0 : xml_rd) (ops : list rd_op) :
  xml_rd_begin fnmatch xmlParseMemory text len rules = inr xml0 ->
  let xml := rd_run fnmatch xml0 ops in
  ∀ p, rd_node xml = Some p ->
       ∃ n, xml_deref (rd_doc xml0) p = Some n
            ∧ xmlNode_type n = XML_ELEMENT_NODE.
Proof.
  intros Hbegin xml p Hp.
  destruct (reachable_pos false text len rules xml0 ops Hbegin) as [Hok _];
    [done|].
  destruct (ok_node _ _ Hok p Hp) as ((n & Hn & He) & _).
  rewrite (proj1 (run_frame fnmatch xml0 ops)) in Hn.
  exists n. split; [done|]. by apply bool_decide_eq_true in He.
Qed.

(** X2: on a document nested less than [2^32] deep, [xml_rd_depth] is the
    number of ancestors of the current node, 0 for the root; below the
    root the reader's parent is the parent of the current node, and at
    the end of the children of a node it is that node. *)
Theorem xml_rd_depth_is_nesting (text : string) (len : nat)
    (rules : option (list xml_ns)) (xml0 : xml_rd) (ops : list rd_op) :
  xml_rd_begin fnmatch xmlParseMemory text len rules = inr xml0 ->
  nesting_bound (rd_doc xml0) ->
  let xml := rd_run fnmatch xml0 ops in
  (0 ≤ xml_rd_depth xml)%Z
  ∧ (∀ p, rd_node xml = Some p ->
          Z.of_nat (length p) = (xml_rd_depth xml + 1)%Z
          ∧ ((0 < xml_rd_depth xml)%Z -> rd_parent xml = xmlNode_parent p))
  ∧ ((0 < xml_rd_depth xml)%Z ->
     ∃ q n, rd_parent xml = Some q
            ∧ Z.of_nat (length q) = xml_rd_depth xml
            ∧ xml_deref (rd_doc xml0) q = Some n
            ∧ xmlNode_type n = XML_ELEMENT_NODE).
Proof.
  intros Hbegin Hb xml.
  destruct (reachable_pos true text len rules xml0 ops Hbegin) as [Hok Ht];
    [done|].
  destruct (Ht eq_refl) as [_ [Hnode Hpar]]. fold xml in Hok, Hnode, Hpar.
  unfold xml_rd_depth. split; [apply Hok|]. split.
  - intros p Hp. split; [by apply Hnode|].
    by apply (ok_node _ _ Hok p Hp).
  - intros Hpos. destruct (ok_parent _ _ Hok Hpos) as (q & Hq & He & _).
    destruct He as (n & Hn & He).
    unfold xml in Hn. rewrite (proj1 (run_frame fnmatch xml0 ops)) in Hn.
    exists q, n. split; [done|]. split; [by apply Hpar|].
    split; [done|]. by apply bool_decide_eq_true in He.
Qed.

(** X3: on a document nested less than [2^32] deep, [xml_rd_node_path] is
    the path from the root to the current node: the qualified names of
    the ancestors of the node, outermost first, and its own, separated by
    slashes, with no slash in front; whatever calls brought the reader to
    the node. *)
Theorem xml_rd_node_path_spec (text : string) (len : nat)
    (rules : option (list xml_ns)) (xml0 : xml_rd) (ops : list rd_op) :
  xml_rd_begin fnmatch xmlParseMemory text len rules = inr xml0 ->
  nesting_bound (rd_doc xml0) ->
  let xml := rd_run fnmatch xml0 ops in
  ∀ p, rd_node xml = Some p ->
       xml_rd_node_path xml = Some (node_path fnmatch xml0 p).
Proof.
  intros Hbegin Hb xml p Hp. subst xml.
  pose proof (reachable_full text len rules xml0 ops Hbegin Hb) as Hfull.
  destruct (full_observe _ p Hfull Hp) as (_ & _ & ->).
  unfold node_path. destruct p as [|i q]; [done|].
  destruct (run_frame fnmatch xml0 ops) as [Hd Hr].
  by rewrite (dir_path_ext _ xml0), (qualified_name_ext fnmatch _ xml0).
Qed.

(** X4: [xml_rd_node_name] is [NULL] at the end of a level and the
    qualified name of the current node otherwise: its local name, after
    the prefix and a colon when the node has a namespace with a prefix.
    The prefix is that of the first rule given to [xml_rd_begin] whose
    pattern matches the namespace URI, and the prefix of the document
    when no rule matches or no rules were given.  It does not depend on
    the calls that brought the reader to the node. *)
Theorem xml_rd_node_name_qualified (text : string) (len : nat)
    (rules : option (list xml_ns)) (xml0 : xml_rd) (ops : list rd_op) :
  xml_rd_begin fnmatch xmlParseMemory text len rules = inr xml0 ->
  let xml := rd_run fnmatch xml0 ops in
  (rd_node xml = None -> xml_rd_node_name xml = None)
  ∧ (∀ p n, rd_node xml = Some p -> xml_deref (rd_doc xml0) p = Some n ->
       xml_rd_node_name xml
       = Some (match xmlNode_ns n with
               | Some ns =>
                   match subst_prefix fnmatch rules (ns_prefix ns)
                           (ns_href ns) with
                   | Some pfx => pfx +:+ ":" +:+ xmlNode_name n
                   | None => xmlNode_name n
                   end
               | None => xmlNode_name n
               end)).
Proof.
  intros Hbegin xml.
  pose proof (reachable_inv fnmatch xmlParseMemory text len rules xml0 ops
                Hbegin) as Hinv.
  fold xml in Hinv. rewrite (inv_node_name xml Hinv).
  split; [by intros ->|].
  intros p n -> Hn. simpl. f_equal.
  unfold qualified_name, rd_node_ns, rd_node_name, xml.
  destruct (run_frame fnmatch xml0 ops) as [-> ->].
  rewrite (proj2 (begin_frame _ _ _ _ _ _ Hbegin)), Hn. simpl.
  destruct (xmlNode_ns n) as [ns|]; [|done].
  destruct (subst_prefix _ _ _ _); [|done]. by rewrite str_app_assoc.
Qed.

(** X5: a reader reports no name, no path and no value exactly when it is
    at the end of a level ([xml_rd_end]); there [xml_rd_node_name_match]
    is true of the [NULL] pattern only. *)
Theorem xml_rd_end_reports_nothing (text : string) (len : nat)
    (rules : option (list xml_ns)) (xml0 : xml_rd) (ops : list rd_op) :
  xml_rd_begin fnmatch xmlParseMemory text len rules = inr xml0 ->
  let xml := rd_run fnmatch xml0 ops in
  (xml_rd_end xml = true <-> xml_rd_node_name xml = None)
  ∧ (xml_rd_end xml = true <-> xml_rd_node_path xml = None)
  ∧ (xml_rd_end xml = true <-> snd (xml_rd_node_value xml) = None)
  ∧ (xml_rd_end xml = true ->
     ∀ pattern, xml_rd_node_name_match xml pattern
                = bool_decide (pattern = None)).
Proof.
  intros Hbegin xml.
  pose proof (reachable_inv fnmatch xmlParseMemory text len rules xml0 ops
                Hbegin) as Hinv.
  pose proof (reachable_text_inv fnmatch xmlParseMemory text len rules xml0
                ops Hbegin) as Htext.
  destruct (reachable_pos false text len rules xml0 ops Hbegin) as [Hok _];
    [done|].
  fold xml in Hinv, Htext, Hok.
  unfold xml_rd_end, xml_rd_node_name_match, xml_rd_node_path.
  rewrite (inv_node_name xml Hinv), bool_decide_eq_true.
  destruct (rd_node xml) as [p|] eqn:Hp.
  - destruct (ok_node _ _ Hok p Hp) as ((n & Hn & _) & _).
    rewrite (node_value_content xml p n Htext Hp Hn). done.
  - split; [done|]. split; [done|]. split.
    + split; [intros _|done]. unfold xml_rd_node_value. simpl.
      destruct (rd_text xml) as [t|] eqn:Ht; rewrite ?Hp; [|done].
      destruct (Htext t Ht) as (p & _ & Hp' & _). congruence.
    + intros _ pattern. simpl. apply bool_decide_ext. split; congruence.
Qed.

(** X6: the value of a node is never stale: on a node, after any calls,
    [xml_rd_node_value] returns the content of the current node without
    its leading and trailing white space, computed or cached; and a second
    call returns the same and changes nothing. *)
Theorem xml_rd_node_value_fresh (text : string) (len : nat)
    (rules : option (list xml_ns)) (xml0 : xml_rd) (ops : list rd_op) :
  xml_rd_begin fnmatch xmlParseMemory text len rules = inr xml0 ->
  let xml := rd_run fnmatch xml0 ops in
  ∀ p, rd_node xml = Some p ->
       ∃ n, xml_deref (rd_doc xml0) p = Some n
            ∧ snd (xml_rd_node_value xml)
              = Some (g_strstrip (xmlNodeGetContent n))
            ∧ xml_rd_node_value (fst (xml_rd_node_value xml))
              = xml_rd_node_value xml.
Proof.
  intros Hbegin xml p Hp.
  pose proof (reachable_text_inv fnmatch xmlParseMemory text len rules xml0
                ops Hbegin) as Htext.
  destruct (reachable_pos false text len rules xml0 ops Hbegin) as [Hok _];
    [done|].
  fold xml in Htext, Hok.
  destruct (ok_node _ _ Hok p Hp) as ((n & Hn & _) & _).
  exists n. split.
  { unfold xml in Hn. by rewrite (proj1 (run_frame fnmatch xml0 ops)) in Hn. }
  split; [by apply (node_value_content xml p n)|].
  clearbody xml. unfold xml_rd_node_value. simpl.
  destruct (rd_text xml) as [t|] eqn:Ht; [by rewrite !Ht|].
  rewrite !Hp. simpl. by rewrite !Hn.
Qed.

(** *** Iterating the children of a node *)

Lemma rd_scan_nav (fuel : nat) (xml : xml_rd) :
  rd_scan fnmatch fuel xml = nav_scan (rd_doc xml) fuel (rd_cursor xml).
Proof.
  revert xml. induction fuel as [|fuel IH]; intros xml; simpl; [done|].
  destruct (rd_node xml); [|done].
  by rewrite IH, cursor_next, (proj1 (next_frame fnmatch xml)).
Qed.

Lemma nav_scan_siblings (doc : xmlDoc) (q : xmlNodePtr)
    (parent : option xmlNodePtr) (d : Z) (l : list xmlNode) :
  ∀ (pre : list xmlNode) (fuel : nat),
    xml_children doc q = pre ++ l -> length l < fuel ->
    nav_scan doc fuel
      (Cursor ((λ j, j :: q) <$> first_element l (length pre)) parent d)
    = (λ j, j :: q) <$> element_indices l (length pre).
Proof.
  induction l as [|c l IH]; intros pre fuel Hcs Hfuel.
  - by destruct fuel.
  - assert (xml_children doc q = (pre ++ [c]) ++ l) as Hcs'
      by (by rewrite <- app_assoc).
    specialize (IH (pre ++ [c])).
    rewrite length_app, Nat.add_1_r in IH.
    cbn [first_element element_indices]. unfold is_element.
    destruct (decide (xmlNode_type c = XML_ELEMENT_NODE)) as [He|He].
    + rewrite bool_decide_eq_true_2 by done.
      destruct fuel as [|fuel]; [simpl in Hfuel; lia|].
      cbn [fmap option_fmap option_map list_fmap nav_scan cur_node]. f_equal.
      unfold nav_next. cbn [cur_node cur_parent cur_depth].
      rewrite nav_skip_next, Hcs'.
      rewrite drop_app_length' by (rewrite length_app; simpl; lia).
      apply IH; [done|simpl in Hfuel; lia].
    + rewrite bool_decide_eq_false_2 by done.
      apply IH; [done|simpl in Hfuel; lia].
Qed.

Lemma iter_next_frame (k : nat) (xml : xml_rd) :
  rd_doc (Nat.iter k (xml_rd_next fnmatch) xml) = rd_doc xml
  ∧ rd_subst_rules (Nat.iter k (xml_rd_next fnmatch) xml)
    = rd_subst_rules xml.
Proof.
  induction k as [|k [IHd IHr]]; [done|]. rewrite Nat.iter_succ.
  destruct (next_frame fnmatch (Nat.iter k (xml_rd_next fnmatch) xml))
    as [-> ->].
  done.
Qed.

Lemma iter_next_full (k : nat) (xml : xml_rd) :
  rd_full fnmatch xml -> rd_full fnmatch (Nat.iter k (xml_rd_next fnmatch) xml).
Proof.
  intros Hfull. induction k; [done|]. rewrite Nat.iter_succ.
  by apply next_full.
Qed.

Lemma iter_next_cursor (k : nat) (xml : xml_rd) :
  cur_parent (rd_cursor (Nat.iter k (xml_rd_next fnmatch) xml))
  = rd_parent xml
  ∧ cur_depth (rd_cursor (Nat.iter k (xml_rd_next fnmatch) xml))
    = rd_depth xml.
Proof.
  induction k as [|k [IHp IHd]]; [done|]. rewrite Nat.iter_succ.
  rewrite cursor_next. unfold nav_next.
  by destruct (cur_node _).
Qed.

Lemma node_path_ext (x y : xml_rd) (p : xmlNodePtr) :
  rd_doc x = rd_doc y -> rd_subst_rules x = rd_subst_rules y ->
  node_path fnmatch x p = node_path fnmatch y p.
Proof.
  intros Hd Hr. destruct p as [|i q]; [done|]. simpl.
  by rewrite (dir_path_ext x y), (qualified_name_ext fnmatch x y).
Qed.

(** [xml_rd_enter] on a node of a document nested less than [2^32]
    deep. *)
Lemma enter_cursor (xml : xml_rd) (p : xmlNodePtr) :
  rd_full fnmatch xml -> rd_node xml = Some p ->
  rd_cursor (xml_rd_enter fnmatch xml)
  = Cursor ((λ j, j :: p) <$> first_element (xml_children (rd_doc xml) p) 0)
      (Some p) (rd_depth xml + 1).
Proof.
  intros (_ & [Hok Ht] & _) Hp. destruct (Ht eq_refl) as [Hb [Hlen _]].
  destruct (ok_node _ _ Hok p Hp) as (He & _).
  pose proof (elem_at_bound _ _ Hb He) as Hmax.
  specialize (Hlen p Hp). pose proof (ok_depth _ _ Hok) as Hd.
  simpl in Hlen, Hd.
  rewrite cursor_enter. unfold nav_enter. simpl. rewrite Hp.
  rewrite nav_skip_children.
  pose proof (nav_skip_first (rd_doc xml) p 0) as Hskip.
  rewrite drop_0 in Hskip. rewrite Hskip.
  by rewrite int_cast_unsigned_int, Z.mod_small
    by (unfold UINT_MAX in Hmax; lia).
Qed.

(** X7: the usual loop over the children of a node.  On a document nested
    less than [2^32] deep, [xml_rd_enter] on a node followed by
    [xml_rd_next] until [xml_rd_end] stops at the element children of the
    node, each once, in document order, and at nothing else; and after
    any number of [xml_rd_next], at the end of the children or before it,
    [xml_rd_leave] brings the reader back to the node it entered, with
    the depth, the name and the path it had there. *)
Theorem xml_rd_children_loop (text : string) (len : nat)
    (rules : option (list xml_ns)) (xml0 : xml_rd) (ops : list rd_op) :
  xml_rd_begin fnmatch xmlParseMemory text len rules = inr xml0 ->
  nesting_bound (rd_doc xml0) ->
  let xml := rd_run fnmatch xml0 ops in
  ∀ p, rd_node xml = Some p ->
    (∀ fuel, length (xml_children (rd_doc xml0) p) < fuel ->
       rd_scan fnmatch fuel (xml_rd_enter fnmatch xml)
       = (λ j, j :: p) <$> element_indices (xml_children (rd_doc xml0) p) 0)
    ∧ ∀ k,
        let xml' :=
          xml_rd_leave fnmatch
            (Nat.iter k (xml_rd_next fnmatch) (xml_rd_enter fnmatch xml)) in
        rd_node xml' = Some p
        ∧ xml_rd_depth xml' = xml_rd_depth xml
        ∧ xml_rd_node_name xml' = xml_rd_node_name xml
        ∧ xml_rd_node_path xml' = xml_rd_node_path xml.
Proof.
  intros Hbegin Hb xml p Hp.
  pose proof (reachable_full text len rules xml0 ops Hbegin Hb) as Hfull.
  pose proof (proj1 (run_frame fnmatch xml0 ops)) as Hdoc.
  fold xml in Hfull, Hdoc. clearbody xml. rewrite <- Hdoc. clear Hdoc.
  pose proof (enter_cursor xml p Hfull Hp) as Hcur.
  split.
  - intros fuel Hfuel.
    rewrite rd_scan_nav, Hcur, (proj1 (enter_frame fnmatch xml)).
    by apply (nav_scan_siblings (rd_doc xml) p (Some p) _ _ []).
  - intros k xml'.
    set (y := Nat.iter k (xml_rd_next fnmatch) (xml_rd_enter fnmatch xml))
      in *.
    assert (rd_full fnmatch y) as Hy by (by apply iter_next_full, enter_full).
    destruct (iter_next_cursor k (xml_rd_enter fnmatch xml)) as [Hpar Hdep].
    fold y in Hpar, Hdep.
    change (rd_parent (xml_rd_enter fnmatch xml))
      with (cur_parent (rd_cursor (xml_rd_enter fnmatch xml))) in Hpar.
    change (rd_depth (xml_rd_enter fnmatch xml))
      with (cur_depth (rd_cursor (xml_rd_enter fnmatch xml))) in Hdep.
    rewrite Hcur in Hpar, Hdep. simpl in Hpar, Hdep.
    assert (0 ≤ rd_depth xml)%Z as Hd by apply Hfull.
    assert (rd_cursor xml' = Cursor (Some p) (xmlNode_parent p) (rd_depth xml))
      as Hcur'.
    { subst xml'. rewrite cursor_leave. unfold nav_leave. simpl.
      rewrite Hdep, Hpar, decide_True by lia. f_equal. lia. }
    assert (rd_node xml' = Some p) as Hp'
      by (change (rd_node xml') with (cur_node (rd_cursor xml'));
          by rewrite Hcur').
    assert (rd_depth xml' = rd_depth xml) as Hd'
      by (change (rd_depth xml') with (cur_depth (rd_cursor xml'));
          by rewrite Hcur').
    assert (rd_full fnmatch xml') as Hfull' by (by apply leave_full).
    destruct (full_observe xml p Hfull Hp) as (_ & -> & ->).
    destruct (full_observe xml' p Hfull' Hp') as (_ & -> & ->).
    assert (rd_doc xml' = rd_doc xml ∧ rd_subst_rules xml' = rd_subst_rules xml)
      as [Hdoc Hrules].
    { subst xml' y.
      destruct (leave_frame fnmatch
                  (Nat.iter k (xml_rd_next fnmatch) (xml_rd_enter fnmatch xml)))
        as [-> ->].
      destruct (iter_next_frame k (xml_rd_enter fnmatch xml)) as [-> ->].
      apply enter_frame. }
    split; [done|]. split; [done|].
    by rewrite (qualified_name_ext fnmatch xml' xml),
      (node_path_ext xml' xml).
Qed.

(** *** The subtree of a node *)

Lemma walk_app (l : list xmlNode) (a b : list nat) :
  a ≠ [] -> b ≠ [] ->
  walk l (a ++ b) = walk l a ≫= λ c, walk (xmlNode_kids c) b.
Proof.
  revert l. induction a as [|x a IH]; intros l Ha Hb; [done|].
  destruct a as [|y a].
  - destruct b as [|z b]; [done|]. simpl. by destruct (l !! x).
  - change ((x :: y :: a) ++ b) with (x :: y :: (a ++ b)).
    rewrite !walk_cons_cons. destruct (l !! x) as [c|]; [|done]. simpl.
    by apply (IH (xmlNode_kids c)).
Qed.

Lemma elements_of_doc (doc : xmlDoc) (p r : xmlNodePtr) (n : xmlNode) :
  xml_deref doc p = Some n -> r ∈ elements_of n p -> r ∈ doc_elements doc.
Proof.
  intros Hn Hr. apply doc_elements_member.
  destruct n as [name ns cs|kind s]; [|by apply elem_of_nil in Hr].
  rewrite elements_of_element in Hr.
  apply elem_of_cons in Hr as [->|Hr]; [by eauto|].
  apply elements_forest_member_all in Hr as (k & t & n' & -> & Hw & He).
  exists n'. split; [|done].
  rewrite xml_deref_walk in Hn |- *.
  rewrite rev_app_distr, rev_involutive. simpl. rewrite <- app_assoc.
  rewrite walk_app.
  - by rewrite Hn.
  - intros Hnil. by rewrite Hnil in Hn.
  - done.
Qed.

(** X8: what the depth argument of [xml_rd_deep_next] is for.  On a
    document nested less than [2^32] deep, the loop over
    [xml_rd_deep_next] that starts on a node and is given the depth of
    that node stops at the node and at the element nodes below it, each
    once, in document order, and then ends: it does not go on to the
    siblings of the node. *)
Theorem xml_rd_deep_next_subtree (text : string) (len : nat)
    (rules : option (list xml_ns)) (xml0 : xml_rd) (ops : list rd_op) :
  xml_rd_begin fnmatch xmlParseMemory text len rules = inr xml0 ->
  nesting_bound (rd_doc xml0) ->
  let xml := rd_run fnmatch xml0 ops in
  ∀ p n, rd_node xml = Some p -> xml_deref (rd_doc xml0) p = Some n ->
    ∀ fuel, length (elements_of n p) < fuel ->
      rd_visit fnmatch fuel xml (xml_rd_depth xml) = elements_of n p.
Proof.
  intros Hbegin Hb xml p n Hp Hn fuel Hfuel.
  destruct (reachable_pos true text len rules xml0 ops Hbegin) as [Hok Ht];
    [done|].
  destruct (Ht eq_refl) as [_ [Hlen _]].
  pose proof (proj1 (run_frame fnmatch xml0 ops)) as Hdoc.
  fold xml in Hok, Hlen, Hdoc. clearbody xml.
  rewrite rd_visit_nav, Hdoc. unfold rd_cursor, xml_rd_depth. rewrite Hp.
  destruct (ok_node _ _ Hok p Hp) as ((n' & Hn' & He) & _).
  rewrite Hdoc, Hn in Hn'. injection Hn' as <-.
  replace fuel
    with (length (elements_of n p) + (fuel - length (elements_of n p)))
    by lia.
  apply nav_visit_subtree; [done|done| |].
  - by rewrite (Hlen p Hp).
  - intros r Hr. apply Hb. by apply (elements_of_doc _ p r n).
Qed.

(** *** The arrays of the reader *)

Lemma lookup_cache_fits (xml : xml_rd) (prefix : option string)
    (href : string) :
  cache_fits xml ->
  cache_fits (fst (xml_rd_ns_subst_lookup fnmatch xml prefix href)).
Proof.
  unfold cache_fits, xml_rd_ns_subst_lookup. intros Hfits.
  destruct (rd_subst_rules xml); [|done].
  destruct (subst_cache_find _ _); [done|].
  destruct (subst_rules_find _ _ _); [|done]. simpl.
  rewrite length_app. simpl.
  destruct (decide (length (rd_subst_cache xml) = rd_subst_cache_cap xml));
    [|lia].
  destruct (decide (rd_subst_cache_cap xml = 0)); lia.
Qed.

Lemma switched_cache_fits (xml : xml_rd) :
  cache_fits xml -> cache_fits (xml_rd_node_switched fnmatch xml).
Proof.
  intros Hfits. unfold xml_rd_node_switched.
  destruct xml as [doc node parent name path pathlen cap text depth rules
                     cache ccap]; simpl.
  destruct node as [p|]; simpl; [|done].
  set (x0 := set_path _ (xml_rd_node_invalidate_value _)).
  destruct (rd_node_ns x0 p) as [ns|]; [|done].
  pose proof (lookup_cache_fits x0 (ns_prefix ns) (ns_href ns) Hfits) as Hl.
  destruct (lookup_frame fnmatch x0 (ns_prefix ns) (ns_href ns))
    as (c & cc & Hfr).
  destruct (xml_rd_ns_subst_lookup fnmatch x0 (ns_prefix ns) (ns_href ns))
    as [x1 [pfx|]]; simpl in Hfr, Hl; subst x1; done.
Qed.

Lemma rd_step_cache_fits (xml : xml_rd) (op : rd_op) :
  cache_fits xml -> cache_fits (rd_step fnmatch xml op).
Proof.
  assert (∀ x, cache_fits x -> cache_fits (xml_rd_next fnmatch x)) as Hnext.
  { intros x Hx. unfold xml_rd_next. destruct (rd_node x); [|done].
    by apply switched_cache_fits. }
  assert (∀ x, cache_fits x -> cache_fits (xml_rd_enter fnmatch x)) as Henter.
  { intros x Hx. unfold xml_rd_enter. destruct (rd_node x); [|done].
    apply switched_cache_fits. simpl. by destruct (decide _). }
  assert (∀ x, cache_fits x -> cache_fits (xml_rd_leave fnmatch x)) as Hleave.
  { intros x Hx. unfold xml_rd_leave. destruct (decide _); [|done].
    apply switched_cache_fits. simpl. by destruct (rd_parent x). }
  assert (∀ x, cache_fits x -> cache_fits (fst (xml_rd_node_value x)))
    as Hvalue.
  { intros x Hx. unfold xml_rd_node_value. simpl.
    destruct (rd_text x); [done|]. by destruct (rd_node x). }
  intros Hfits. destruct op; cbn [rd_step]; auto.
  - unfold xml_rd_deep_next.
    generalize (Z.to_nat (xml_rd_depth (xml_rd_enter fnmatch xml))).
    intros fuel. specialize (Henter xml Hfits).
    revert Henter. generalize (xml_rd_enter fnmatch xml).
    induction fuel as [|fuel IH]; intros x Hx; simpl.
    + by destruct (_ && _).
    + destruct (_ && _); [|done]. by apply IH, Hnext, Hleave.
  - rewrite node_value_uint_fst. auto.
Qed.

Lemma index_in_range (l : list nat) (i : nat) :
  l !!! i ≠ 0 -> i < length l.
Proof.
  intros Hne. destruct (decide (i < length l)) as [|Hge]; [done|].
  exfalso. apply Hne. rewrite list_lookup_total_alt.
  by rewrite lookup_ge_None_2 by lia.
Qed.

(** X9: the reader stays within its arrays.  After [xml_rd_begin] and any
    calls, the stack of path lengths has as many slots as its capacity
    says and the depth is not above that number, so that
    [xml_rd_node_switched] reads a slot that exists; the slot that
    [xml_rd_enter] writes exists after the growth it performs; the
    entries of the substitution cache fit its capacity; and the name
    points into the path buffer. *)
Theorem xml_rd_arrays_in_bounds (text : string) (len : nat)
    (rules : option (list xml_ns)) (xml0 : xml_rd) (ops : list rd_op) :
  xml_rd_begin fnmatch xmlParseMemory text len rules = inr xml0 ->
  let xml := rd_run fnmatch xml0 ops in
  length (rd_pathlen xml) = rd_pathlen_cap xml
  ∧ (0 ≤ xml_rd_depth xml ≤ Z.of_nat (rd_pathlen_cap xml))%Z
  ∧ length (rd_subst_cache xml) ≤ rd_subst_cache_cap xml
  ∧ (rd_node xml ≠ None ->
     Z.to_nat (xml_rd_depth xml)
     < length (rd_pathlen (xml_rd_enter fnmatch xml)))
  ∧ (∀ off, rd_name xml = Some off -> off ≤ String.length (rd_path xml)).
Proof.
  intros Hbegin xml.
  pose proof (reachable_inv fnmatch xmlParseMemory text len rules xml0 ops
                Hbegin) as Hinv.
  fold xml in Hinv.
  split; [apply Hinv|]. split; [apply Hinv|].
  split; [|split].
  - subst xml. clear Hinv.
    assert (cache_fits xml0) as Hfits.
    { unfold xml_rd_begin in Hbegin.
      destruct (xmlParseMemory text len); [|done].
      injection Hbegin as <-. apply switched_cache_fits.
      unfold cache_fits. simpl. lia. }
    clear Hbegin. revert xml0 Hfits.
    induction ops as [|op ops IH]; intros xml0 Hfits; [done|].
    simpl. by apply IH, rd_step_cache_fits.
  - intros Hnode. destruct (rd_node xml) as [p|] eqn:Hp; [|done].
    destruct (enter_shape fnmatch xml p Hinv Hp)
      as (x1 & -> & _ & _ & _ & _ & _ & _ & Hslot & _).
    destruct (switched_frame fnmatch x1) as (_ & _ & _ & _ & -> & _).
    apply index_in_range. unfold xml_rd_depth. rewrite Hslot.
    rewrite str_length_app. simpl. lia.
  - intros off. rewrite (inv_name _ _ Hinv).
    destruct (rd_node xml); [|done]. intros [= <-]. apply Hinv.
Qed.

(** *** White space around a number *)

Lemma g_strchug_spaces (w s : string) :
  all_space w = true -> g_strchug (w +:+ s) = g_strchug s.
Proof.
  induction w as [|c w IH]; intros Hw; [done|]. simpl in Hw.
  apply andb_prop in Hw as [Hc Hw]. rewrite str_app_cons. simpl.
  by rewrite Hc, IH.
Qed.

Lemma g_strchomp_spaces (w : string) :
  all_space w = true -> g_strchomp w = "".
Proof.
  induction w as [|c w IH]; intros Hw; [done|]. simpl in Hw.
  apply andb_prop in Hw as [Hc Hw]. simpl. by rewrite IH, Hc.
Qed.

Lemma g_strchomp_digits_spaces (d w : string) :
  all_digits d = true -> d ≠ "" -> all_space w = true ->
  g_strchomp (d +:+ w) = d.
Proof.
  induction d as [|c d IH]; intros Hd Hne Hw; [done|]. simpl in Hd.
  apply andb_prop in Hd as [Hc Hd]. apply bool_decide_eq_true in Hc.
  rewrite str_app_cons. simpl. destruct d as [|c' d].
  - rewrite str_app_nil_l, g_strchomp_spaces by done.
    by rewrite (proj2 (digit_not_space c Hc)).
  - by rewrite IH.
Qed.

Lemma g_strstrip_number (w1 d w2 : string) :
  all_space w1 = true -> all_digits d = true -> d ≠ "" ->
  all_space w2 = true ->
  g_strstrip (w1 +:+ d +:+ w2) = d.
Proof.
  intros Hw1 Hd Hne Hw2. unfold g_strstrip.
  rewrite g_strchug_spaces by done.
  assert (g_strchug (d +:+ w2) = d +:+ w2) as ->.
  { destruct d as [|c d]; [done|]. simpl in Hd.
    apply andb_prop in Hd as [Hc _]. apply bool_decide_eq_true in Hc.
    rewrite str_app_cons. simpl.
    by rewrite (proj2 (digit_not_space c Hc)). }
  by apply g_strchomp_digits_spaces.
Qed.

(** X10: white space around a number does not matter.  On a node whose
    content is a run of decimal digits between runs of spaces, tabs, line
    feeds, form feeds and carriage returns, [xml_rd_node_value] returns
    the digits alone, and [xml_rd_node_value_uint] returns the number they
    denote when [SANE_Word] can hold it. *)
Theorem xml_rd_node_value_uint_spaces (W : int_type) (text : string)
    (len : nat) (rules : option (list xml_ns)) (xml0 : xml_rd)
    (ops : list rd_op) :
  xml_rd_begin fnmatch xmlParseMemory text len rules = inr xml0 ->
  let xml := rd_run fnmatch xml0 ops in
  ∀ p n w1 d w2,
    rd_node xml = Some p -> xml_deref (rd_doc xml0) p = Some n ->
    xmlNodeGetContent n = w1 +:+ d +:+ w2 ->
    all_space w1 = true -> all_digits d = true -> d ≠ "" ->
    all_space w2 = true ->
    (digits_value d 0 ≤ Z.min (int_max W) ULONG_MAX)%Z ->
    snd (xml_rd_node_value xml) = Some d
    ∧ snd (xml_rd_node_value_uint W xml) = Done (digits_value d 0).
Proof.
  intros Hbegin xml p n w1 d w2 Hp Hn Hcontent Hw1 Hd Hne Hw2 Hfit.
  pose proof (reachable_text_inv fnmatch xmlParseMemory text len rules xml0
                ops Hbegin) as Htext.
  fold xml in Htext.
  assert (snd (xml_rd_node_value xml) = Some d) as Hs.
  { rewrite (node_value_content xml p n Htext Hp).
    - by rewrite Hcontent, g_strstrip_number.
    - unfold xml. by rewrite (proj1 (run_frame fnmatch xml0 ops)). }
  split; [done|].
  pose proof (digits_value_nonneg d 0 Hd ltac:(lia)) as Hpos.
  rewrite (node_value_uint_digits W xml d Hs Hd Hne).
  rewrite Z.min_l by lia.
  rewrite (int_cast_id W) by lia.
  rewrite (int_cast_id unsigned_long)
    by (unfold int_max, ULONG_MAX in *; simpl; lia).
  by rewrite Z.eqb_refl.
Qed.

(** *** The reader that [xml_rd_begin] returns *)

(** X15: [xml_rd_begin] fails, with the message [Failed to parse XML],
    exactly when the parser returns no document.  Otherwise the reader it
    returns is at depth 0 on the first element among the top-level nodes
    of the document, past the comments and processing instructions before
    it (at the end when there is none); no value is cached, and the path
    of the root is its name, with no slash. *)
Theorem xml_rd_begin_root (text : string) (len : nat)
    (rules : option (list xml_ns)) :
  (xmlParseMemory text len = None ->
   xml_rd_begin fnmatch xmlParseMemory text len rules
   = inl "Failed to parse XML")
  ∧ (∀ doc, xmlParseMemory text len = Some doc ->
       ∃ xml, xml_rd_begin fnmatch xmlParseMemory text len rules = inr xml
              ∧ rd_doc xml = doc
              ∧ rd_subst_rules xml = rules
              ∧ xml_rd_depth xml = 0%Z
              ∧ rd_node xml
                = (λ i, [i]) <$> first_element (doc_children doc) 0
              ∧ rd_text xml = None
              ∧ xml_rd_node_path xml = xml_rd_node_name xml).
Proof.
  split.
  { unfold xml_rd_begin. by intros ->. }
  intros doc Hdoc.
  destruct (xml_rd_begin fnmatch xmlParseMemory text len rules)
    as [e|xml] eqn:Hbegin.
  { unfold xml_rd_begin in Hbegin. by rewrite Hdoc in Hbegin. }
  exists xml. split; [done|].
  destruct (begin_frame _ _ _ _ _ _ Hbegin) as [Hd Hr].
  pose proof (begin_cursor _ _ _ _ _ _ Hbegin) as Hcur.
  pose proof (begin_inv _ _ _ _ _ _ Hbegin) as Hinv.
  assert (rd_doc xml = doc) as Hdoc' by congruence.
  split; [done|]. split; [done|].
  assert (rd_depth xml = 0%Z) as Hdepth
    by (change (rd_depth xml) with (cur_depth (rd_cursor xml));
        by rewrite Hcur).
  split; [done|]. split.
  { change (rd_node xml) with (cur_node (rd_cursor xml)).
    by rewrite Hcur, Hdoc'. }
  split.
  { unfold xml_rd_begin in Hbegin. rewrite Hdoc in Hbegin.
    injection Hbegin as <-. apply switched_frame. }
  rewrite (inv_node_name xml Hinv). unfold xml_rd_node_path.
  rewrite (inv_path _ _ Hinv). unfold base_len.
  rewrite decide_True by done.
  by destruct (rd_node xml).
Qed.

(** *** The cache holds what the rules say *)

(** X16: the substitution cache never holds a wrong answer.  Without
    rules it stays empty; with rules every entry pairs a URI with the
    prefix of the first rule, in declaration order, whose pattern matches
    the URI. *)
Theorem xml_rd_cache_sound (text : string) (len : nat)
    (rules : option (list xml_ns)) (xml0 : xml_rd) (ops : list rd_op) :
  xml_rd_begin fnmatch xmlParseMemory text len rules = inr xml0 ->
  let xml := rd_run fnmatch xml0 ops in
  (rules = None -> rd_subst_cache xml = [])
  ∧ (∀ rs e, rules = Some rs -> e ∈ rd_subst_cache xml ->
       ∃ i r, first_at (λ r, fnmatch (xn_uri r) (xn_uri e) 0 = 0%Z) rs i r
              ∧ xn_prefix e = xn_prefix r).
Proof.
  intros Hbegin xml.
  pose proof (reachable_inv fnmatch xmlParseMemory text len rules xml0 ops
                Hbegin) as Hinv.
  pose proof (pre_cache _ _ (inv_pre _ _ Hinv)) as Hc.
  rewrite (proj2 (run_frame fnmatch xml0 ops)) in Hc.
  rewrite (proj2 (begin_frame _ _ _ _ _ _ Hbegin)) in Hc.
  fold xml in Hc. unfold cache_valid in Hc. split.
  - by intros ->.
  - intros rs e -> He.
    destruct (proj1 (Forall_forall _ _) Hc e He) as (r & Hr & Hpfx).
    apply subst_rules_find_first in Hr as [i Hfirst]. eauto.
Qed.

(** *** Resuming a traversal *)

Lemma elem_at_children (doc : xmlDoc) (q : xmlNodePtr) (n : xmlNode) :
  xml_deref doc q = Some n -> xml_children doc q = xmlNode_kids n.
Proof.
  destruct q as [|j q]; [done|]. simpl. intros Hn.
  by rewrite xml_children_cons, Hn.
Qed.

Lemma forest_drop_sub (cs : list xmlNode) (m : nat) (q r : xmlNodePtr) :
  r ∈ elements_forest (drop m cs) m q -> r ∈ elements_forest cs 0 q.
Proof.
  intros Hr. destruct (decide (m ≤ length cs)) as [Hle|Hgt].
  - rewrite <- (take_drop m cs), elements_forest_app.
    apply elem_of_app. right. by rewrite length_take_le.
  - rewrite drop_ge in Hr by lia. by apply elem_of_nil in Hr.
Qed.

Lemma forest_in_doc (doc : xmlDoc) (q r : xmlNodePtr) (m : nat) :
  elem_at doc q ->
  r ∈ elements_forest (drop m (xml_children doc q)) m q ->
  r ∈ doc_elements doc.
Proof.
  intros (n & Hn & He) Hr. apply forest_drop_sub in Hr.
  apply (elements_of_doc doc q r n Hn).
  rewrite (elem_at_children doc q n Hn) in Hr.
  destruct n as [name ns cs|kind s]; [|by destruct kind].
  rewrite elements_of_element. by right.
Qed.

(** At the end of the children of the node at [q], the traversal goes on
    with what comes after the subtree of the node. *)
Lemma nav_visit_after (doc : xmlDoc) (f : Z) (q : xmlNodePtr) :
  nesting_bound doc -> (0 ≤ f < UINT_MAX)%Z -> elem_at doc q ->
  ∀ m,
    nav_visit doc (length (elements_after doc (Z.to_nat f) q) + m)
      (nav_unwind doc (Cursor None (Some q) (Z.of_nat (length q))) f) f
    = elements_after doc (Z.to_nat f) q.
Proof.
  intros Hb Hf. induction q as [|j q IH]; intros He m.
  { by destruct (elem_at_cons _ _ He) as (? & ? & ?). }
  pose proof (elem_at_bound _ _ Hb He) as Hmax.
  cbn [elements_after].
  destruct (decide (length q ≤ Z.to_nat f)) as [Hle|Hgt].
  - apply nav_visit_end. unfold nav_unwind. cbn [cur_depth length].
    rewrite Nat2Z.id. cbn [nav_deep_next_loop cur_node cur_depth].
    rewrite int_cast_unsigned_int, Z.mod_small
      by (unfold UINT_MAX in Hf; lia).
    rewrite (bool_decide_eq_false_2 (_ < _)%Z) by lia.
    by rewrite andb_false_r.
  - destruct q as [|j' q']; [simpl in Hgt; lia|].
    pose proof (elem_at_parent _ _ _ _ He) as He'.
    rewrite nav_unwind_end by (done || simpl length in *; lia).
    rewrite nav_skip_next.
    destruct He as (n & Hn & _). simpl in Hn.
    pose proof (lookup_lt_Some _ _ _ Hn) as Hj.
    set (cs := xml_children doc (j' :: q')) in *.
    pose proof (visits_forest_all doc f (drop (S j) cs) (j' :: q')
                  (take (S j) cs)) as Hvisit.
    rewrite length_take_le in Hvisit by lia.
    rewrite length_app, <- Nat.add_assoc.
    rewrite Hvisit.
    + f_equal. by apply IH.
    + by rewrite take_drop.
    + simpl length in *. lia.
    + intros r Hr. apply Hb. by apply (forest_in_doc doc (j' :: q') r (S j)).
Qed.

(** From an element node at depth [d], with a floor that is not below
    [d], the traversal stops at the element nodes of the subtree of the
    node and then at those that come after it, up to the floor. *)
Lemma nav_visit_from (doc : xmlDoc) (p : xmlNodePtr) (n : xmlNode)
    (parent : option xmlNodePtr) (d f : Z) (m : nat) :
  nesting_bound doc ->
  xml_deref doc p = Some n -> is_element n = true ->
  (d + 1 = Z.of_nat (length p))%Z -> (0 ≤ f ≤ d)%Z ->
  nav_visit doc
    (length (elements_of n p ++ elements_after doc (Z.to_nat f) p) + m)
    (Cursor (Some p) parent d) f
  = elements_of n p ++ elements_after doc (Z.to_nat f) p.
Proof.
  intros Hb Hn He Hd Hf.
  assert (elem_at doc p) as Hp by (by exists n).
  pose proof (elem_at_bound _ _ Hb Hp) as Hmax.
  destruct n as [name ns cs|kind content]; [clear He|by destruct kind].
  rewrite elements_of_element in *.
  cbn [app length Nat.add nav_visit cur_node]. f_equal.
  unfold nav_deep_next, nav_enter. cbn [cur_node cur_depth].
  assert (xml_children doc p = cs) as Hkids
    by apply (elem_at_children doc p _ Hn).
  rewrite nav_skip_children.
  pose proof (nav_skip_first doc p 0) as Hskip. rewrite drop_0 in Hskip.
  rewrite Hskip, Hkids.
  rewrite int_cast_unsigned_int, Z.mod_small
    by (unfold UINT_MAX in Hmax; lia).
  rewrite Hd.
  pose proof (visits_forest_all doc f cs p [] ) as Hvisit.
  simpl in Hvisit. rewrite length_app, <- Nat.add_assoc.
  rewrite Hvisit; [| done | lia |].
  - f_equal. apply nav_visit_after; [done|unfold UINT_MAX in *; lia|done].
  - intros r Hr. apply Hb. apply (forest_in_doc doc p r 0); [done|].
    by rewrite drop_0, Hkids.
Qed.

(** What comes after a node is the rest of the subtree of its ancestor at
    the floor. *)
Lemma elements_after_rest (doc : xmlDoc) (floor : nat) (p : xmlNodePtr) :
  ∀ n, xml_deref doc p = Some n -> is_element n = true ->
       floor < length p ->
       ∃ a na before,
         a = drop (length p - S floor) p
         ∧ xml_deref doc a = Some na
         ∧ elements_of na a
           = before ++ elements_of n p ++ elements_after doc floor p.
Proof.
  induction p as [|i q IH]; intros n Hn He Hfloor; [done|].
  cbn [elements_after].
  destruct (decide (length q ≤ floor)) as [Hle|Hgt].
  - exists (i :: q), n, []. simpl length in *.
    replace (S (length q) - S floor) with 0 by lia.
    by rewrite drop_0, app_nil_r.
  - assert (elem_at doc (i :: q)) as Hp by (by exists n).
    destruct q as [|j q']; [simpl in Hgt; lia|].
    destruct (elem_at_parent _ _ _ _ Hp) as (nq & Hnq & Heq).
    destruct (IH nq Hnq Heq ltac:(simpl in *; lia))
      as (a & na & before & Ha & Hna & Hrest).
    pose proof (elem_at_children doc (j :: q') nq Hnq) as Hkids.
    destruct nq as [name ns cs|kind s]; [|by destruct kind].
    simpl in Hkids. rewrite elements_of_element in Hrest.
    assert (cs !! i = Some n) as Hi by (by rewrite <- Hkids).
    exists a, na, (before ++ (j :: q') :: elements_forest (take i cs) 0 (j :: q')).
    split.
    { rewrite Ha. simpl length in *.
      replace (S (S (length q')) - S floor) with (S (S (length q') - S floor))
        by lia.
      done. }
    split; [done|]. rewrite Hrest, Hkids.
    rewrite <- (take_drop_middle cs i n Hi) at 1.
    rewrite elements_forest_app. cbn [elements_forest].
    rewrite length_take_le by (apply lookup_lt_Some in Hi; lia).
    rewrite Nat.add_0_l, Nat.add_1_r || rewrite Nat.add_0_l.
    rewrite <- !app_assoc. simpl. by rewrite <- !app_assoc.
Qed.

(** X19: a traversal can be resumed.  On a document nested less than
    [2^32] deep, the loop over [xml_rd_deep_next] that starts on a node
    at depth [d] and is given a depth [f] not above [d] stops at the
    node, at the element nodes below it and then at the element nodes
    that follow in document order, as far as the subtree of the ancestor
    of the node at depth [f] reaches, each once; then it ends.  What it
    stops at is the rest, from the node on, of the element nodes of that
    subtree. *)
Theorem xml_rd_deep_next_resumes (text : string) (len : nat)
    (rules : option (list xml_ns)) (xml0 : xml_rd) (ops : list rd_op) :
  xml_rd_begin fnmatch xmlParseMemory text len rules = inr xml0 ->
  nesting_bound (rd_doc xml0) ->
  let xml := rd_run fnmatch xml0 ops in
  ∀ p n (floor : nat),
    rd_node xml = Some p -> xml_deref (rd_doc xml0) p = Some n ->
    (Z.of_nat floor ≤ xml_rd_depth xml)%Z ->
    let visited := elements_of n p ++ elements_after (rd_doc xml0) floor p in
    (∀ fuel, length visited < fuel ->
             rd_visit fnmatch fuel xml (Z.of_nat floor) = visited)
    ∧ ∃ a na before,
        a = drop (length p - S floor) p
        ∧ xml_deref (rd_doc xml0) a = Some na
        ∧ elements_of na a = before ++ visited.
Proof.
  intros Hbegin Hb xml p n floor Hp Hn Hfloor visited.
  destruct (reachable_pos true text len rules xml0 ops Hbegin) as [Hok Ht];
    [done|].
  destruct (Ht eq_refl) as [_ [Hlen _]].
  pose proof (proj1 (run_frame fnmatch xml0 ops)) as Hdoc.
  fold xml in Hok, Hlen, Hdoc. clearbody xml.
  destruct (ok_node _ _ Hok p Hp) as ((n' & Hn' & He) & _).
  rewrite Hdoc, Hn in Hn'. injection Hn' as <-.
  specialize (Hlen p Hp). unfold xml_rd_depth in *. simpl in Hlen.
  split.
  - intros fuel Hfuel. rewrite rd_visit_nav, Hdoc. unfold rd_cursor.
    rewrite Hp.
    replace fuel with (length visited + (fuel - length visited)) by lia.
    subst visited.
    pose proof (nav_visit_from (rd_doc xml0) p n (rd_parent xml)
                  (rd_depth xml) (Z.of_nat floor)
                  (fuel - length (elements_of n p
                                  ++ elements_after (rd_doc xml0) floor p))
                  Hb Hn He ltac:(lia) ltac:(lia)) as Hvisit.
    by rewrite Nat2Z.id in Hvisit.
  - apply elements_after_rest; [done|done|lia].
Qed.
End Reader.

(** * The writer at work *)

Section Writer.

(** *** The document of a tree *)

Lemma format_indent_eq (buf : string) (level : nat) :
  xml_wr_format_indent buf (Z.of_nat level) = buf +:+ indent level.
Proof.
  unfold xml_wr_format_indent, indent. rewrite Nat2Z.id.
  induction level as [|level IH]; simpl.
  - by rewrite str_app_nil_r.
  - rewrite IH. unfold g_string_append_c. by rewrite !str_app_assoc.
Qed.

Lemma format_children_foldl (ns : list xml_ns) (level : Z) (compact : bool)
    (l : list xml_wr_node) (buf : string) :
  (fix loop (node2 : list xml_wr_node) (buf : string) : string :=
     match node2 with
     | [] => buf
     | n :: next =>
         loop next (xml_wr_format_node ns buf n level compact)
     end) l buf
  = foldl (λ b n, xml_wr_format_node ns b n level compact) buf l.
Proof. revert buf. induction l as [|n l IH]; intros buf; [done|]. apply IH. Qed.

Lemma str_concat_app (l1 l2 : list string) :
  str_concat (l1 ++ l2) = str_concat l1 +:+ str_concat l2.
Proof.
  induction l1 as [|s l1 IH]; [done|]. simpl. by rewrite IH, str_app_assoc.
Qed.

Lemma wn_height_pos (n : xml_wr_node) : 0 < wn_height n.
Proof. destruct n. simpl. lia. Qed.

Lemma wn_height_child (c : xml_wr_node) (cs : list xml_wr_node) :
  c ∈ cs -> wn_height c ≤ foldr Nat.max 0 (wn_height <$> cs).
Proof.
  induction 1 as [c cs|c c' cs Hin IH]; rewrite fmap_cons; cbn [foldr]; lia.
Qed.

Lemma forallb_child (f : xml_wr_node -> bool) (c : xml_wr_node)
    (cs : list xml_wr_node) :
  forallb f cs = true -> c ∈ cs -> f c = true.
Proof.
  intros Hall Hin. rewrite forallb_forall in Hall. apply Hall.
  by apply list_elem_of_In.
Qed.

Lemma children_render (compact : bool) (ns : list xml_ns) (level : nat)
    (cs : list xml_wr_node) :
  Forall (renders compact) cs ->
  (∀ c, c ∈ cs -> (Z.of_nat (S level + wn_height c) ≤ 2 ^ 32)%Z
                  ∧ wn_c_strings c = true) ->
  ∀ buf,
    foldl (λ b n, xml_wr_format_node ns b n (Z.of_nat (S level)) compact) buf
      (rev (xml_wr_revert_children <$> cs))
    = buf +:+ str_concat (rev (wn_render compact "" (S level) <$> cs)).
Proof.
  induction 1 as [|c cs Hc Hcs IH]; intros Hok buf.
  - simpl. by rewrite str_app_nil_r.
  - rewrite !fmap_cons. simpl rev. rewrite foldl_app. simpl foldl.
    rewrite IH by (intros c' Hc'; apply Hok; by right).
    destruct (Hok c ltac:(left)) as [Hh Hstr].
    rewrite (Hc ns _ (S level) Hh Hstr).
    rewrite str_concat_app. simpl. by rewrite str_app_nil_r, str_app_assoc.
Qed.

Lemma format_node_render (compact : bool) (n : xml_wr_node) :
  renders compact n.
Proof.
  induction n as [name value attrs cs IH] using xml_wr_node_forall.
  intros ns buf level Hh Hstr.
  cbn [xml_wr_revert_children]. rewrite revert_loop_rev, app_nil_r.
  cbn [wn_height] in Hh. cbn [wn_c_strings] in Hstr.
  apply andb_prop in Hstr as [Hval Hstr].
  cbn [xml_wr_format_node]. rewrite format_children_foldl.
  assert (int_cast unsigned_int (Z.of_nat level + 1) = Z.of_nat (S level)
          ∨ cs = []) as Hlevel.
  { destruct cs as [|c cs]; [by right|left].
    rewrite int_cast_unsigned_int, Z.mod_small; [lia|].
    pose proof (wn_height_pos c). simpl in Hh. lia. }
  assert ((if compact then buf else xml_wr_format_indent buf (Z.of_nat level))
          = buf +:+ (if compact then "" else indent level)) as ->.
  { destruct compact; [by rewrite str_app_nil_r|apply format_indent_eq]. }
  set (decl := if level is 0 then ns_verbatim ns else "").
  assert (∀ b, (if decide (Z.of_nat level = 0%Z) then xml_wr_format_ns b ns
                else b) = b +:+ decl) as Hdecl.
  { intros b. subst decl. destruct level as [|level].
    - rewrite decide_True by done. apply format_ns_verbatim.
    - rewrite decide_False by lia. by rewrite str_app_nil_r. }
  rewrite Hdecl.
  assert (∀ b, match attrs with
               | Some attrs => xml_wr_format_attrs b attrs
               | None => b
               end = b +:+ from_option attrs_verbatim "" attrs) as Hattrs.
  { intros b. destruct attrs as [attrs|]; simpl.
    - apply format_attrs_verbatim.
    - by rewrite str_app_nil_r. }
  rewrite Hattrs. unfold g_string_append_c.
  destruct cs as [|c cs].
  - simpl rev. cbn [wn_render].
    assert (∀ b, match value with
                 | Some value => xml_wr_format_value b value
                 | None => b
                 end = b +:+ from_option xml_escape "" value) as Hvalue.
    { intros b. destruct value as [value|]; simpl.
      - by apply format_value_escape.
      - by rewrite str_app_nil_r. }
    rewrite Hvalue. unfold line_end.
    destruct compact; rewrite ?str_app_nil_r, !str_app_assoc; reflexivity.
  - destruct Hlevel as [Hlevel|]; [|done]. rewrite Hlevel.
    destruct (rev (xml_wr_revert_children <$> c :: cs)) as [|c' cs'] eqn:Hrev.
    { apply (f_equal length) in Hrev.
      rewrite length_rev, length_fmap in Hrev. done. }
    rewrite <- Hrev. clear c' cs' Hrev.
    assert (∀ b, foldl (λ b n, xml_wr_format_node ns b n (Z.of_nat (S level))
                                 compact) b
                   (rev (xml_wr_revert_children <$> c :: cs))
                 = b +:+ str_concat
                           (rev (wn_render compact "" (S level) <$> c :: cs)))
      as Hkids.
    { intros b. apply children_render; [done|].
      intros c' Hc'. split.
      - pose proof (wn_height_child c' _ Hc'). lia.
      - by apply (forallb_child _ c' (c :: cs)). }
    cbn [wn_render]. unfold line_end.
    assert (bool_decide (Z.of_nat level ≠ 0%Z)
            = if level is 0 then false else true) as ->.
    { destruct level; [done|]. by apply bool_decide_eq_true_2. }
    destruct compact; cbn [negb andb].
    + rewrite Hkids. rewrite ?str_app_nil_r, !str_app_assoc.
      by destruct level.
    + rewrite Hkids, format_indent_eq.
      destruct level; rewrite ?str_app_nil_r, !str_app_assoc; reflexivity.
Qed.

(** X11: the document of a writer.  For a tree of at most [2^32] levels
    whose values are C strings, [xml_wr_finish] and
    [xml_wr_finish_compact] return the XML declaration followed by the
    text of the root: every node as its open tag with its attributes (the
    root's with the namespace declarations as well), then its escaped
    value or its children in the order in which they were added, then its
    closing tag; in the indented form each tag of a node with children
    and each childless node is on a line of its own, two spaces deeper
    per level, and the last line ends without a line feed unless the root
    is childless. *)
Theorem xml_wr_finish_renders (xml : xml_wr) (compact : bool) :
  (Z.of_nat (wn_height (wr_root xml)) ≤ 2 ^ 32)%Z ->
  wn_c_strings (wr_root xml) = true ->
  xml_wr_finish_internal xml compact
  = xml_declaration +:+ line_end compact
    +:+ wn_render compact (ns_verbatim (wr_ns xml)) 0 (wr_root xml).
Proof.
  intros Hh Hstr. unfold xml_wr_finish_internal.
  rewrite (format_node_render compact (wr_root xml) (wr_ns xml) _ 0)
    by done.
  unfold line_end, g_string_append_c.
  destruct compact; by rewrite ?str_app_nil_r, ?str_app_assoc.
Qed.


(** *** Entering and leaving *)

Lemma wn_set_children_id (n : xml_wr_node) :
  wn_set_children n (wn_children n) = n.
Proof. by destruct n. Qed.

Lemma enter_attr_eq (xml : xml_wr) (name : string)
    (attrs : option (list xml_attr)) :
  xml_wr_enter_attr xml name attrs
  = XmlWr (xml_wr_node_new name None attrs) (wr_current xml :: wr_parents xml)
      (wr_ns xml).
Proof.
  unfold xml_wr_enter_attr, wr_enter_first, xml_wr_add_node, wr_plug. simpl.
  destruct (wr_current xml) as [n v a cs]. done.
Qed.

Lemma add_nodes_eq (xml : xml_wr) (nodes : list xml_wr_node) :
  foldl xml_wr_add_node xml nodes
  = XmlWr (wn_set_children (wr_current xml)
             (rev nodes ++ wn_children (wr_current xml)))
      (wr_parents xml) (wr_ns xml).
Proof.
  revert xml. induction nodes as [|n nodes IH]; intros xml.
  - simpl. rewrite wn_set_children_id. by destruct xml.
  - simpl foldl. rewrite IH. unfold xml_wr_add_node, wr_plug. simpl.
    destruct (wr_current xml). simpl. by rewrite <- app_assoc.
Qed.

(** X12: entering a node, adding nodes and leaving is adding one node with
    these children: after [xml_wr_enter_attr], any number of additions to
    the new node and [xml_wr_leave], the writer is where it was, its
    current node has one more child, the new node, whose children are the
    added nodes; and the call of [xml_wr_leave] does not fail.  With no
    addition in between the new node is as [xml_wr_add_text_attr] makes it
    for a [NULL] value. *)
Theorem xml_wr_enter_add_leave (xml : xml_wr) (name : string)
    (attrs : option (list xml_attr)) (nodes : list xml_wr_node) :
  xml_wr_leave (foldl xml_wr_add_node (xml_wr_enter_attr xml name attrs) nodes)
  = Done (xml_wr_add_node xml (XmlWrNode name None attrs (rev nodes)))
  ∧ xml_wr_leave (xml_wr_enter_attr xml name attrs)
    = Done (xml_wr_add_text_attr xml name None attrs).
Proof.
  split.
  - rewrite add_nodes_eq, enter_attr_eq. unfold xml_wr_leave. simpl.
    by rewrite app_nil_r.
  - by rewrite enter_attr_eq.
Qed.

(** *** Leaving more often than entering *)

Lemma wr_step_parents (xml xml' : xml_wr) (op : wr_op) :
  wr_step xml op = Done xml' ->
  wr_depth (length (wr_parents xml)) [op] = Some (length (wr_parents xml')).
Proof.
  destruct op as [name value attrs|name attrs|]; simpl.
  - by intros [= <-].
  - intros [= <-]. by rewrite enter_attr_eq.
  - unfold xml_wr_leave. destruct (wr_parents xml) as [|p ps]; [done|].
    by intros [= <-].
Qed.

Lemma wr_run_depth (ops : list wr_op) (xml : xml_wr) :
  match wr_run xml ops with
  | Done xml' =>
      wr_depth (length (wr_parents xml)) ops = Some (length (wr_parents xml'))
  | Failed _ => False
  | Aborted => wr_depth (length (wr_parents xml)) ops = None
  end.
Proof.
  revert xml. induction ops as [|op ops IH]; intros xml; [done|].
  cbn [wr_run].
  destruct op as [name value attrs|name attrs|]; cbn [wr_step outcome_bind].
  - apply (IH (xml_wr_add_text_attr xml name value attrs)).
  - specialize (IH (xml_wr_enter_attr xml name attrs)).
    rewrite enter_attr_eq in IH |- *. apply IH.
  - unfold xml_wr_leave. destruct (wr_parents xml) as [|p ps] eqn:Hps; [done|].
    cbn [outcome_bind].
    apply (IH (XmlWr (wr_plug (wr_current xml) p) ps (wr_ns xml))).
Qed.

(** X13: [xml_wr_leave] asserts that the current node is not the root.  A
    sequence of additions, [xml_wr_enter_attr] and [xml_wr_leave] after
    [xml_wr_begin] fails the assertion exactly when one of its calls of
    [xml_wr_leave] comes with no entered node left open; otherwise all
    calls return, and the nodes that are open at the end are those
    entered and not left. *)
Theorem xml_wr_leave_asserts (root : string) (ns : list xml_ns)
    (ops : list wr_op) :
  (wr_run (xml_wr_begin root ns) ops = Aborted <-> wr_depth 0 ops = None)
  ∧ (∀ d, wr_depth 0 ops = Some d <->
          ∃ xml, wr_run (xml_wr_begin root ns) ops = Done xml
                 ∧ length (wr_parents xml) = d)
  ∧ ∀ e, wr_run (xml_wr_begin root ns) ops ≠ Failed e.
Proof.
  pose proof (wr_run_depth ops (xml_wr_begin root ns)) as H. simpl in H.
  destruct (wr_run (xml_wr_begin root ns) ops) as [xml|e|].
  - rewrite H. split; [done|]. split; [|done]. intros d. split.
    + intros [= <-]. eauto.
    + by intros (xml' & [= <-] & <-).
  - done.
  - rewrite H. split; [done|]. split; [|done]. intros d. split; [done|].
    by intros (xml' & ? & _).
Qed.

(** *** Values and children *)

Lemma wn_wf_plug (child parent : xml_wr_node) :
  wn_wf child = true -> wn_wf parent = true -> wn_value parent = None ->
  wn_wf (wr_plug child parent) = true.
Proof.
  destruct parent as [n v a cs]. simpl. intros -> Hp ->. simpl in *.
  done.
Qed.

Lemma wr_step_wf (xml xml' : xml_wr) (op : wr_op) :
  wr_wf xml -> wr_step xml op = Done xml' -> wr_wf xml'.
Proof.
  intros (Hc & Hv & Hps).
  destruct op as [name value attrs|name attrs|]; simpl.
  - intros [= <-]. split; [|split; [|done]]; simpl.
    + apply wn_wf_plug; [|done|done]. simpl. by destruct value.
    + by destruct (wr_current xml).
  - intros [= <-]. rewrite enter_attr_eq. split; [done|]. split; [done|].
    simpl. by constructor.
  - unfold xml_wr_leave. destruct (wr_parents xml) as [|p ps]; [done|].
    intros [= <-]. apply Forall_cons in Hps as [[Hp Hpv] Hps].
    split; [|split; [|done]]; simpl.
    + by apply wn_wf_plug.
    + by destruct p.
Qed.

Lemma wr_root_wf (xml : xml_wr) : wr_wf xml -> wn_wf (wr_root xml) = true.
Proof.
  destruct xml as [c ps ns]. unfold wr_wf, wr_root. simpl.
  revert c. induction ps as [|p ps IH]; intros c (Hc & Hv & Hps); [done|].
  apply Forall_cons in Hps as [[Hp Hpv] Hps]. simpl. apply IH.
  split; [by apply wn_wf_plug|]. split; [by destruct p|done].
Qed.

(** X14: the writer loses no value.  [xml_wr_format_node] writes the
    value of a node only when the node has no children; in the tree that
    [xml_wr_begin] and any additions, [xml_wr_enter_attr] and
    [xml_wr_leave] build, no node has both a value and children: the nodes
    with a value are those added with one, and nothing is ever added
    below them. *)
Theorem xml_wr_value_or_children (root : string) (ns : list xml_ns)
    (ops : list wr_op) (xml : xml_wr) :
  wr_run (xml_wr_begin root ns) ops = Done xml ->
  wn_wf (wr_root xml) = true.
Proof.
  intros Hrun. apply wr_root_wf.
  assert (wr_wf (xml_wr_begin root ns)) as Hwf by (by split).
  revert Hrun Hwf. generalize (xml_wr_begin root ns).
  induction ops as [|op ops IH]; intros x Hrun Hwf.
  - by injection Hrun as <-.
  - cbn [wr_run] in Hrun.
    destruct (wr_step x op) as [x'|e|] eqn:Hstep; [|done|done].
    apply (IH x'); [done|]. by apply (wr_step_wf x x' op).
Qed.


(** *** Escaped text *)

Lemma escape_char (c : ascii) (rest : string) :
  str_mem "<" (xml_entity c +:+ rest) = str_mem "<" rest
  ∧ str_mem ">" (xml_entity c +:+ rest) = str_mem ">" rest
  ∧ str_mem dquote (xml_entity c +:+ rest) = str_mem dquote rest
  ∧ str_mem "'" (xml_entity c +:+ rest) = str_mem "'" rest
  ∧ amp_ok (xml_entity c +:+ rest) = amp_ok rest.
Proof.
  destruct c as [[] [] [] [] [] [] [] []]; cbn; try done;
    repeat split; reflexivity.
Qed.

Lemma escape_no_markup (value : string) :
  str_mem "<" (xml_escape value) = false
  ∧ str_mem ">" (xml_escape value) = false
  ∧ str_mem dquote (xml_escape value) = false
  ∧ str_mem "'" (xml_escape value) = false
  ∧ amp_ok (xml_escape value) = true.
Proof.
  induction value as [|c value IH]; [done|]. cbn [xml_escape].
  destruct (escape_char c (xml_escape value)) as (-> & -> & -> & -> & ->).
  done.
Qed.

(** X17: a text value cannot break out of its element.  What
    [xml_wr_format_value] appends for a C string holds no angle bracket,
    no double quote and no apostrophe, and each of its ampersands begins
    one of the entities [&amp;], [&lt;], [&gt;], [&quot;] and [&apos;];
    what was in the buffer stays in front as it was. *)
Theorem xml_wr_value_has_no_markup (buf value : string) :
  is_c_string value = true ->
  ∃ out, xml_wr_format_value buf value = buf +:+ out
         ∧ str_mem "<" out = false ∧ str_mem ">" out = false
         ∧ str_mem dquote out = false ∧ str_mem "'" out = false
         ∧ amp_ok out = true.
Proof.
  intros Hc. exists (xml_escape value).
  split; [by apply format_value_escape|]. apply escape_no_markup.
Qed.

(** *** The text of a number *)

Lemma format_digits_length (fuel : nat) (v : Z) (acc : string) :
  String.length (format_digits fuel v acc) ≤ S fuel + String.length acc.
Proof.
  revert v acc. induction fuel as [|fuel IH]; intros v acc; simpl; [done|].
  destruct (v / 10 =? 0)%Z; simpl; [lia|].
  etrans; [apply IH|]. simpl. lia.
Qed.

Lemma digit_char_nonzero (d : Z) :
  (1 ≤ d ≤ 9)%Z -> digit_char d ≠ "0"%char.
Proof.
  intros Hd.
  assert (d = 1 ∨ d = 2 ∨ d = 3 ∨ d = 4 ∨ d = 5 ∨ d = 6 ∨ d = 7 ∨ d = 8
          ∨ d = 9)%Z as Hcases by lia.
  repeat (destruct Hcases as [->|Hcases]; [done|]). by subst.
Qed.

Lemma format_digits_head (fuel : nat) (v : Z) (acc : string) :
  (0 < v < 10 ^ Z.of_nat (S fuel))%Z ->
  ∃ c rest, format_digits fuel v acc = String c rest ∧ c ≠ "0"%char.
Proof.
  revert v acc. induction fuel as [|fuel IH]; intros v acc Hv.
  - change (10 ^ Z.of_nat 1)%Z with 10%Z in Hv. simpl.
    eexists _, _. split; [done|]. rewrite Z.mod_small by lia.
    apply digit_char_nonzero. lia.
  - cbn [format_digits].
    pose proof (Z.div_mod v 10 ltac:(lia)) as Hdiv.
    pose proof (Z.mod_pos_bound v 10 ltac:(lia)) as Hmod.
    destruct (Z.eqb_spec (v / 10) 0) as [Hz|Hnz].
    + eexists _, _. split; [done|]. apply digit_char_nonzero. lia.
    + apply IH. split.
      * assert (0 ≤ v / 10)%Z by (apply Z.div_pos; lia). lia.
      * apply Z.div_lt_upper_bound; [lia|].
        rewrite Nat2Z.inj_succ, Z.pow_succ_r in Hv by lia. lia.
Qed.

(** X18: [xml_wr_add_uint_attr] adds the node that
    [xml_wr_add_text_attr] adds for the decimal numeral of the value: one
    to ten digits that denote the value, with no zero in front unless the
    value is 0; with its terminator the numeral fits the 64 bytes of the
    local buffer. *)
Theorem xml_wr_add_uint_text (xml : xml_wr) (name : string) (value : Z)
    (attrs : option (list xml_attr)) :
  (0 ≤ value ≤ UINT_MAX)%Z ->
  ∃ d, xml_wr_add_uint_attr xml name value attrs
       = xml_wr_add_text_attr xml name (Some d) attrs
       ∧ all_digits d = true ∧ digits_value d 0 = value
       ∧ 0 < String.length d ≤ 10 ∧ String.length d + 1 ≤ 64
       ∧ (value = 0%Z -> d = "0")
       ∧ ((0 < value)%Z -> ∃ c rest, d = String c rest ∧ c ≠ "0"%char).
Proof.
  intros Hv. exists (sprintf_u value). split; [done|].
  destruct (sprintf_u_digits value Hv) as (Hd & Hval & Hne).
  split; [done|]. split; [done|].
  assert (String.length (sprintf_u value) ≤ 10) as Hlen.
  { unfold sprintf_u. etrans; [apply format_digits_length|]. done. }
  split; [|split; [lia|split]].
  - split; [|done]. destruct (sprintf_u value); [done|simpl; lia].
  - by intros ->.
  - intros Hpos. unfold sprintf_u, UINT_MAX in *.
    rewrite int_cast_unsigned_int, Z.mod_small by lia.
    apply format_digits_head.
    change (10 ^ Z.of_nat 10)%Z with 10000000000%Z. lia.
Qed.
End Writer.


Lemma xml_rd_next_enter_at_end_witness :
  let xml :=
    XmlRd foo_bar_doc None (Some [0]) None "scan:Foo/" (replicate 8 10) 8
      None 1 (Some scan_rules) [XmlNsRule "scan" "urn:x:1"] 4 in
  xml_rd_next sample_fnmatch xml = xml ∧ xml_rd_enter sample_fnmatch xml = xml.
Proof.
  apply (xml_rd_next_enter_at_end sample_fnmatch). reflexivity.
Defined.

(** C2 on [<a:Foo><a:Bar>42</a:Bar></a:Foo>], at [Bar], which has no
    element children. *)
Lemma xml_rd_enter_leave_witness :
  let xml := rd_run sample_fnmatch foo_bar_rd [OpEnter] in
  let xml' := xml_rd_leave sample_fnmatch (xml_rd_enter sample_fnmatch xml) in
  xml_rd_node_name xml = Some "scan:Bar"
  ∧ xml_rd_end (xml_rd_enter sample_fnmatch xml) = true
  ∧ xml_rd_depth xml' = xml_rd_depth xml
  ∧ rd_node xml' = rd_node xml
  ∧ xml_rd_node_name xml' = xml_rd_node_name xml
  ∧ xml_rd_node_path xml' = xml_rd_node_path xml.
Proof.
  split; [reflexivity|]. split; [reflexivity|].
  apply (xml_rd_enter_leave sample_fnmatch sample_parse foo_bar_text
           (String.length foo_bar_text) (Some scan_rules) foo_bar_rd
           [OpEnter]).
  - reflexivity.
  - vm_compute. discriminate.
  - vm_compute. reflexivity.
Defined.

(** C5 on the four cases: no rules; a cached URI; a URI that the first
    rule matches; a URI that no rule matches. *)
Lemma xml_rd_ns_subst_lookup_spec_witness :
  xml_rd_ns_subst_lookup sample_fnmatch negative_rd (Some "a") "urn:x:1"
  = (negative_rd, Some "a")
  ∧ xml_rd_ns_subst_lookup sample_fnmatch foo_bar_rd (Some "a") "urn:x:1"
    = (foo_bar_rd, Some "scan")
  ∧ (snd (xml_rd_ns_subst_lookup sample_fnmatch two_prefix_rd (Some "a")
            "urn:x:2") = Some "scan"
     ∧ ∃ cap,
         fst (xml_rd_ns_subst_lookup sample_fnmatch two_prefix_rd (Some "a")
                "urn:x:2")
         = set_subst_cache
             (rd_subst_cache two_prefix_rd ++ [XmlNsRule "scan" "urn:x:2"])
             cap two_prefix_rd)
  ∧ xml_rd_ns_subst_lookup sample_fnmatch two_prefix_rd (Some "b") "urn:y"
    = (two_prefix_rd, Some "b").
Proof.
  split; [|split; [|split]].
  - apply (xml_rd_ns_subst_lookup_spec sample_fnmatch negative_rd).
    reflexivity.
  - apply (proj2 (xml_rd_ns_subst_lookup_spec sample_fnmatch foo_bar_rd
                    (Some "a") "urn:x:1") scan_rules eq_refl)
      with (i := 0) (e := XmlNsRule "scan" "urn:x:1").
    split; [reflexivity|]. split; [reflexivity|]. intros j y Hj. lia.
  - apply (proj2 (xml_rd_ns_subst_lookup_spec sample_fnmatch two_prefix_rd
                    (Some "a") "urn:x:2") scan_rules eq_refl)
      with (i := 0) (r := XmlNsRule "scan" "urn:x:*").
    + intros e He. vm_compute in He. inversion He.
    + split; [reflexivity|]. split; [reflexivity|]. intros j y Hj. lia.
  - apply (proj2 (xml_rd_ns_subst_lookup_spec sample_fnmatch two_prefix_rd
                    (Some "b") "urn:y") scan_rules eq_refl).
    + intros e He. vm_compute in He. inversion He.
    + intros r Hr. apply list_elem_of_singleton in Hr as ->.
      vm_compute. discriminate.
Defined.

(** C8 on a text that parses and on one that does not. *)
Lemma xml_format_atomic_witness :
  xml_format sample_parse sample_dump "" "<a><b></a>" 10 = ("", false)
  ∧ xml_format sample_parse sample_dump "" foo_bar_text
      (String.length foo_bar_text)
    = ("<node/>", true).
Proof.
  split.
  - apply (xml_format_atomic sample_parse sample_dump "" "<a><b></a>" 10).
    reflexivity.
  - apply (proj2 (xml_format_atomic sample_parse sample_dump "" foo_bar_text
                    (String.length foo_bar_text)) foo_bar_doc "<node/>");
      reflexivity.
Defined.

(** C9, the claim as it stands: in
    [<a:x xmlns:a="urn:y"><b:y xmlns:b="urn:y"/></a:x>] the namespace
    [urn:y], which no rule matches, resolves to [a] on the outer node and
    to [b] on the inner one. *)
Lemma same_uri_two_prefixes :
  let lookup := xml_rd_ns_subst_lookup sample_fnmatch in
  xml_rd_begin sample_fnmatch sample_parse two_prefix_text
    (String.length two_prefix_text) (Some scan_rules) = inr two_prefix_rd
  ∧ snd (lookup two_prefix_rd (Some "a") "urn:y")
    ≠ snd (lookup (fst (lookup two_prefix_rd (Some "a") "urn:y")) (Some "b")
             "urn:y")
  ∧ xml_rd_node_name two_prefix_rd = Some "a:x"
  ∧ xml_rd_node_name (xml_rd_enter sample_fnmatch two_prefix_rd)
    = Some "b:y".
Proof.
  split; [reflexivity|]. split; [|split; reflexivity].
  vm_compute. discriminate.
Defined.

Lemma subst_cache_unique_uri_witness :
  let lookup := xml_rd_ns_subst_lookup sample_fnmatch in
  let xml := rd_run sample_fnmatch foo_bar_rd [OpEnter] in
  NoDup (xn_uri <$> rd_subst_cache xml)
  ∧ snd (lookup xml (Some "a") "urn:x:1")
    = snd (lookup
             (rd_run sample_fnmatch (fst (lookup xml (Some "a") "urn:x:1"))
                [OpLeave])
             (Some "b") "urn:x:1").
Proof.
  destruct (subst_cache_unique_uri sample_fnmatch sample_parse foo_bar_text
              (String.length foo_bar_text) (Some scan_rules) foo_bar_rd
              [OpEnter] eq_refl) as [Hnodup Hsame].
  split; [exact Hnodup|].
  apply (Hsame [OpLeave] (Some "a") (Some "b") "urn:x:1" scan_rules
           (XmlNsRule "scan" "urn:x:*")).
  - reflexivity.
  - left.
  - reflexivity.
Defined.



(** C6, the claim as it stands: past the last node there is no value, and
    the call aborts on its assertion instead of returning an error. *)
Lemma absent_value_aborts :
  let xml := xml_rd_next sample_fnmatch foo_bar_rd in
  xml_rd_end xml = true
  ∧ snd (xml_rd_node_value xml) = None
  ∧ snd (xml_rd_node_value_uint int32 xml) = Aborted
  ∧ ∀ e, snd (xml_rd_node_value_uint int32 xml) ≠ Failed e.
Proof.
  repeat split; try reflexivity. intros e. vm_compute. discriminate.
Defined.

Lemma xml_rd_node_value_uint_spec_witness :
  snd (xml_rd_node_value_uint int32 (xml_rd_next sample_fnmatch foo_bar_rd))
  = Aborted
  ∧ snd (xml_rd_node_value_uint int32 (leaf_rd "42")) = Done 42%Z
  ∧ snd (xml_rd_node_value_uint uint32 (leaf_rd "4294967296"))
    = Failed "n: invalid numerical value"
  ∧ snd (xml_rd_node_value_uint int32 (leaf_rd "abc"))
    = Failed "n: invalid numerical value"
  ∧ snd (xml_rd_node_value_uint int32 (leaf_rd "12a"))
    = Failed "n: invalid numerical value".
Proof.
  split; [|split; [|split; [|split]]].
  - apply (xml_rd_node_value_uint_spec int32). reflexivity.
  - destruct (proj2 (xml_rd_node_value_uint_spec int32 (leaf_rd "42")) "42"
                eq_refl) as (Hdigits & _ & _).
    apply Hdigits; [reflexivity|discriminate|].
    vm_compute. discriminate.
  - destruct (proj2 (xml_rd_node_value_uint_spec uint32
                       (leaf_rd "4294967296")) "4294967296" eq_refl)
      as (Hdigits & _ & _).
    apply Hdigits; [reflexivity|discriminate|reflexivity| |].
    + vm_compute. split; [discriminate|reflexivity].
    + vm_compute. reflexivity.
  - destruct (proj2 (xml_rd_node_value_uint_spec int32 (leaf_rd "abc")) "abc"
                eq_refl) as (_ & Hnone & _).
    apply Hnone. reflexivity.
  - destruct (proj2 (xml_rd_node_value_uint_spec int32 (leaf_rd "12a")) "12a"
                eq_refl) as (_ & _ & Hgarbage).
    apply (Hgarbage "12" "a"%char "");
      [reflexivity|reflexivity|discriminate|reflexivity].
Defined.

(** C1 on [addUint ("n", 42)]: the compact document
    [<root><n>42</n></root>], read at [n]; and the negative text. *)
Lemma xml_wr_add_uint_read_back_witness :
  xml_wr_finish_compact uint_42_wr
  = xml_declaration +:+ "<root><n>42</n></root>"
  ∧ snd (xml_rd_node_value_uint int32
           (rd_run sample_fnmatch uint_42_rd [OpEnter])) = Done 42%Z
  ∧ snd (xml_rd_node_value_uint int32 negative_rd) = Done 1%Z.
Proof.
  destruct (xml_wr_add_uint_read_back sample_fnmatch sample_parse int32)
    as [Hback Hneg].
  split; [reflexivity|]. split.
  - apply (Hback 42%Z (xml_wr_begin "root" []) "n" None true None uint_42_rd
             [OpEnter] [0; 0] (xmlElement "n" None [xmlLeaf LeafText "42"])).
    + vm_compute. split; discriminate.
    + reflexivity.
    + reflexivity.
    + reflexivity.
    + reflexivity.
  - apply Hneg. vm_compute. discriminate.
Defined.

(** C4, the claim as it stands: on [<r><a><b/></a><!-- --><c/></r>] with
    floor depth 1 the traversal from the root never reaches [c], and the
    root it starts at has depth 0, below the floor. *)
Lemma deep_next_floor_1_misses_c :
  xml_rd_begin sample_fnmatch sample_parse r_a_b_c_text
    (String.length r_a_b_c_text) None = inr r_a_b_c_rd
  ∧ doc_elements (rd_doc r_a_b_c_rd) = [[0]; [0; 0]; [0; 0; 0]; [2; 0]]
  ∧ (∀ fuel, 3 ≤ fuel ->
       rd_visit sample_fnmatch fuel r_a_b_c_rd 1 = [[0]; [0; 0]; [0; 0; 0]])
  ∧ (xml_rd_depth r_a_b_c_rd < 1)%Z.
Proof.
  split; [reflexivity|]. split; [reflexivity|]. split; [|reflexivity].
  intros fuel Hfuel.
  do 3 (destruct fuel as [|fuel]; [lia|]).
  by destruct fuel.
Defined.

Lemma xml_rd_deep_next_document_order_witness :
  rd_visit sample_fnmatch 5 r_a_b_c_rd 0 = [[0]; [0; 0]; [0; 0; 0]; [2; 0]]
  ∧ (1 ≤ xml_rd_depth (xml_rd_deep_next sample_fnmatch
                          (rd_run sample_fnmatch r_a_b_c_rd
                             [OpEnter; OpEnter]) 1))%Z.
Proof.
  destruct (xml_rd_deep_next_document_order sample_fnmatch sample_parse
              r_a_b_c_text (String.length r_a_b_c_text) None r_a_b_c_rd)
    as (Hvisit & _ & _ & _ & Hfloor).
  - reflexivity.
  - vm_compute. lia.
  - intros p Hp. vm_compute in Hp.
    repeat (apply elem_of_cons in Hp as [->|Hp]; [vm_compute; discriminate|]).
    by apply elem_of_nil in Hp.
  - split.
    + apply (Hvisit 5). vm_compute. lia.
    + apply Hfloor; vm_compute; [split; discriminate|reflexivity].
Defined.

(** * The properties on sample documents *)

(** The nesting bound of a given document, by enumeration. *)
Lemma nesting_bound_check (doc : xmlDoc) :
  forallb (λ p, (Z.of_nat (length p) <=? UINT_MAX)%Z) (doc_elements doc) = true
  -> nesting_bound doc.
Proof.
  intros Hall p Hp. rewrite forallb_forall in Hall.
  apply Z.leb_le, Hall. by apply list_elem_of_In.
Qed.

Lemma foo_bar_nesting : nesting_bound (rd_doc foo_bar_rd).
Proof. by apply nesting_bound_check. Qed.

Lemma r_a_b_c_nesting : nesting_bound (rd_doc r_a_b_c_rd).
Proof. by apply nesting_bound_check. Qed.

(** X1 on [<r><a><b/></a><!-- --><c/></r>]: from [a], [xml_rd_next] goes
    past the comment to [c]. *)
Lemma xml_rd_node_is_element_witness :
  rd_node (rd_run sample_fnmatch r_a_b_c_rd [OpEnter; OpNext]) = Some [2; 0]
  ∧ ∃ n, xml_deref (rd_doc r_a_b_c_rd) [2; 0] = Some n
         ∧ xmlNode_type n = XML_ELEMENT_NODE.
Proof.
  split; [reflexivity|].
  apply (xml_rd_node_is_element sample_fnmatch sample_parse r_a_b_c_text
           (String.length r_a_b_c_text) None r_a_b_c_rd [OpEnter; OpNext]).
  - reflexivity.
  - reflexivity.
Defined.

(** X2 on the same document, at [b]. *)
Lemma xml_rd_depth_is_nesting_witness :
  let xml := rd_run sample_fnmatch r_a_b_c_rd [OpEnter; OpEnter] in
  rd_node xml = Some [0; 0; 0] ∧ xml_rd_depth xml = 2%Z
  ∧ rd_parent xml = Some [0; 0].
Proof.
  intros xml. split; [reflexivity|].
  destruct (xml_rd_depth_is_nesting sample_fnmatch sample_parse r_a_b_c_text
              (String.length r_a_b_c_text) None r_a_b_c_rd [OpEnter; OpEnter])
    as (_ & Hnode & _).
  - reflexivity.
  - apply r_a_b_c_nesting.
  - destruct (Hnode [0; 0; 0]) as [Hlen Hpar]; [reflexivity|].
    split.
    + apply (proj1 (Z.add_cancel_r _ _ 1)). symmetry. exact Hlen.
    + apply Hpar. reflexivity.
Defined.

(** X3 on [<a:Foo xmlns:a="urn:x:1"><a:Bar>42</a:Bar></a:Foo>] with the
    rule that gives [urn:x:*] the prefix [scan]. *)
Lemma xml_rd_node_path_spec_witness :
  xml_rd_node_path (rd_run sample_fnmatch foo_bar_rd [OpEnter])
  = Some "scan:Foo/scan:Bar".
Proof.
  etrans.
  - apply (xml_rd_node_path_spec sample_fnmatch sample_parse foo_bar_text
             (String.length foo_bar_text) (Some scan_rules) foo_bar_rd
             [OpEnter]) with (p := [0; 0]).
    + reflexivity.
    + apply foo_bar_nesting.
    + reflexivity.
  - reflexivity.
Defined.

(** X4 on the same document. *)
Lemma xml_rd_node_name_qualified_witness :
  xml_rd_node_name (rd_run sample_fnmatch foo_bar_rd [OpEnter])
  = Some "scan:Bar"
  ∧ xml_rd_node_name (rd_run sample_fnmatch foo_bar_rd [OpEnter; OpEnter])
    = None.
Proof.
  split.
  - destruct (xml_rd_node_name_qualified sample_fnmatch sample_parse
                foo_bar_text (String.length foo_bar_text) (Some scan_rules)
                foo_bar_rd [OpEnter]) as [_ Hname]; [reflexivity|].
    etrans.
    + apply (Hname [0; 0]
               (xmlElement "Bar" (Some urn_x_1) [xmlLeaf LeafText "42"]));
        reflexivity.
    + reflexivity.
  - apply (xml_rd_node_name_qualified sample_fnmatch sample_parse
             foo_bar_text (String.length foo_bar_text) (Some scan_rules)
             foo_bar_rd [OpEnter; OpEnter]); reflexivity.
Defined.

(** X5 on the same document, below [Bar], which has no element child. *)
Lemma xml_rd_end_reports_nothing_witness :
  let xml := rd_run sample_fnmatch foo_bar_rd [OpEnter; OpEnter] in
  xml_rd_end xml = true
  ∧ xml_rd_node_name xml = None
  ∧ xml_rd_node_path xml = None
  ∧ snd (xml_rd_node_value xml) = None
  ∧ xml_rd_node_name_match xml (Some "scan:Bar") = false
  ∧ xml_rd_node_name_match xml None = true.
Proof.
  intros xml.
  destruct (xml_rd_end_reports_nothing sample_fnmatch sample_parse
              foo_bar_text (String.length foo_bar_text) (Some scan_rules)
              foo_bar_rd [OpEnter; OpEnter]) as (Hname & Hpath & Hvalue & Hm);
    [reflexivity|].
  fold xml in Hname, Hpath, Hvalue, Hm.
  assert (xml_rd_end xml = true) as Hend by reflexivity.
  split; [done|]. split; [by apply Hname|]. split; [by apply Hpath|].
  split; [by apply Hvalue|]. split; by rewrite Hm.
Defined.

(** X6 on the same document, at [Bar]. *)
Lemma xml_rd_node_value_fresh_witness :
  let xml := rd_run sample_fnmatch foo_bar_rd [OpEnter] in
  snd (xml_rd_node_value xml) = Some "42"
  ∧ xml_rd_node_value (fst (xml_rd_node_value xml)) = xml_rd_node_value xml.
Proof.
  intros xml.
  destruct (xml_rd_node_value_fresh sample_fnmatch sample_parse
              foo_bar_text (String.length foo_bar_text) (Some scan_rules)
              foo_bar_rd [OpEnter]) with (p := [0; 0])
    as (n & Hn & Hvalue & Hagain); [reflexivity|reflexivity|].
  fold xml in Hvalue, Hagain. split; [|done].
  rewrite Hvalue. vm_compute in Hn. by injection Hn as <-.
Defined.

(** X7 on [<r><a><b/></a><!-- --><c/></r>], at the root: its element
    children are [a] and [c]. *)
Lemma xml_rd_children_loop_witness :
  rd_scan sample_fnmatch 4 (xml_rd_enter sample_fnmatch r_a_b_c_rd)
  = [[0; 0]; [2; 0]]
  ∧ rd_node (xml_rd_leave sample_fnmatch
               (Nat.iter 2 (xml_rd_next sample_fnmatch)
                  (xml_rd_enter sample_fnmatch r_a_b_c_rd))) = Some [0].
Proof.
  destruct (xml_rd_children_loop sample_fnmatch sample_parse r_a_b_c_text
              (String.length r_a_b_c_text) None r_a_b_c_rd [])
    with (p := [0]) as [Hscan Hleave].
  - reflexivity.
  - apply r_a_b_c_nesting.
  - reflexivity.
  - split.
    + etrans; [apply (Hscan 4); vm_compute; lia|reflexivity].
    + apply (Hleave 2).
Defined.

(** X8 on the same document: from [a], at depth 1, with depth 1, the loop
    stops at [a] and [b] and not at [c]. *)
Lemma xml_rd_deep_next_subtree_witness :
  let xml := rd_run sample_fnmatch r_a_b_c_rd [OpEnter] in
  xml_rd_depth xml = 1%Z
  ∧ rd_visit sample_fnmatch 3 xml (xml_rd_depth xml) = [[0; 0]; [0; 0; 0]].
Proof.
  intros xml. split; [reflexivity|].
  etrans.
  - apply (xml_rd_deep_next_subtree sample_fnmatch sample_parse r_a_b_c_text
             (String.length r_a_b_c_text) None r_a_b_c_rd [OpEnter])
      with (p := [0; 0]) (n := xmlElement "a" None [xmlElement "b" None []]).
    + reflexivity.
    + apply r_a_b_c_nesting.
    + reflexivity.
    + reflexivity.
    + vm_compute. lia.
  - reflexivity.
Defined.

(** X9 on [<a:Foo xmlns:a="urn:x:1"><a:Bar>42</a:Bar></a:Foo>], at
    [Bar]. *)
Lemma xml_rd_arrays_in_bounds_witness :
  let xml := rd_run sample_fnmatch foo_bar_rd [OpEnter] in
  length (rd_pathlen xml) = rd_pathlen_cap xml
  ∧ (0 ≤ xml_rd_depth xml ≤ Z.of_nat (rd_pathlen_cap xml))%Z
  ∧ length (rd_subst_cache xml) ≤ rd_subst_cache_cap xml
  ∧ Z.to_nat (xml_rd_depth xml)
    < length (rd_pathlen (xml_rd_enter sample_fnmatch xml)).
Proof.
  intros xml.
  destruct (xml_rd_arrays_in_bounds sample_fnmatch sample_parse foo_bar_text
              (String.length foo_bar_text) (Some scan_rules) foo_bar_rd
              [OpEnter]) as (Hlen & Hdepth & Hcache & Hslot & _);
    [reflexivity|].
  fold xml in Hlen, Hdepth, Hcache, Hslot.
  split; [done|]. split; [done|]. split; [done|].
  apply Hslot. vm_compute. discriminate.
Defined.

(** X10 on [<n> 42 </n>]. *)
Lemma xml_rd_node_value_uint_spaces_witness :
  snd (xml_rd_node_value spaced_rd) = Some "42"
  ∧ snd (xml_rd_node_value_uint int32 spaced_rd) = Done 42%Z.
Proof.
  apply (xml_rd_node_value_uint_spaces sample_fnmatch spaced_parse int32
           spaced_text (String.length spaced_text) None spaced_rd [])
    with (p := [0]) (n := xmlElement "n" None [xmlLeaf LeafText " 42 "])
         (w1 := " ") (w2 := " ").
  - reflexivity.
  - reflexivity.
  - reflexivity.
  - reflexivity.
  - reflexivity.
  - reflexivity.
  - discriminate.
  - reflexivity.
  - vm_compute. discriminate.
Defined.

(** X11 on the writer of [begin ("root", [])], [enter ("a")],
    [addLeaf ("b", "x")], [leave ()], [addLeaf ("c", "y")]. *)
Lemma xml_wr_finish_renders_witness :
  xml_wr_finish wr_sample
  = xml_declaration +:+ line_end false
    +:+ wn_render false (ns_verbatim (wr_ns wr_sample)) 0 (wr_root wr_sample)
  ∧ wn_render true "" 0 (wr_root wr_sample)
    = "<root><a><b>x</b></a><c>y</c></root>".
Proof.
  split; [|reflexivity].
  apply (xml_wr_finish_renders wr_sample false).
  - vm_compute. discriminate.
  - reflexivity.
Defined.

(** X14 on the same writer. *)
Lemma xml_wr_value_or_children_witness : wn_wf (wr_root wr_sample) = true.
Proof.
  apply (xml_wr_value_or_children "root" [] wr_sample_ops wr_sample).
  reflexivity.
Defined.

(** X16 on [<a:Foo xmlns:a="urn:x:1"><a:Bar>42</a:Bar></a:Foo>]: the entry
    that the root left in the cache. *)
Lemma xml_rd_cache_sound_witness :
  rd_subst_cache foo_bar_rd = [XmlNsRule "scan" "urn:x:1"]
  ∧ ∃ i r, first_at (λ r, sample_fnmatch (xn_uri r) "urn:x:1" 0 = 0%Z)
             scan_rules i r
           ∧ "scan" = xn_prefix r.
Proof.
  split; [reflexivity|].
  destruct (xml_rd_cache_sound sample_fnmatch sample_parse foo_bar_text
              (String.length foo_bar_text) (Some scan_rules) foo_bar_rd [])
    as [_ Hsound]; [reflexivity|].
  apply (Hsound scan_rules (XmlNsRule "scan" "urn:x:1")); [reflexivity|].
  apply list_elem_of_singleton. reflexivity.
Defined.

(** X17 on the text [<a&b>] followed by a double quote and an
    apostrophe. *)
Lemma xml_wr_value_has_no_markup_witness :
  ∃ out, xml_wr_format_value "" five_special = "" +:+ out
         ∧ str_mem "<" out = false ∧ str_mem ">" out = false
         ∧ str_mem dquote out = false ∧ str_mem "'" out = false
         ∧ amp_ok out = true.
Proof.
  apply (xml_wr_value_has_no_markup "" five_special). reflexivity.
Defined.

(** X18 on the value 42. *)
Lemma xml_wr_add_uint_text_witness :
  ∃ d, xml_wr_add_uint_attr (xml_wr_begin "root" []) "n" 42 None
       = xml_wr_add_text_attr (xml_wr_begin "root" []) "n" (Some d) None
       ∧ all_digits d = true ∧ digits_value d 0 = 42%Z
       ∧ 0 < String.length d ≤ 10 ∧ String.length d + 1 ≤ 64
       ∧ (42%Z = 0%Z -> d = "0")
       ∧ ((0 < 42)%Z -> ∃ c rest, d = String c rest ∧ c ≠ "0"%char).
Proof.
  apply (xml_wr_add_uint_text (xml_wr_begin "root" []) "n" 42 None).
  vm_compute. split; discriminate.
Defined.

(** X19 on [<r><a><b/></a><!-- --><c/></r>]: from [b], with depth 0, the
    loop stops at [b] and then at [c], the rest of the subtree of the
    root. *)
Lemma xml_rd_deep_next_resumes_witness :
  let xml := rd_run sample_fnmatch r_a_b_c_rd [OpEnter; OpEnter] in
  rd_visit sample_fnmatch 3 xml 0 = [[0; 0; 0]; [2; 0]]
  ∧ ∃ before,
      doc_elements (rd_doc r_a_b_c_rd) = before ++ [[0; 0; 0]; [2; 0]].
Proof.
  intros xml.
  destruct (xml_rd_deep_next_resumes sample_fnmatch sample_parse r_a_b_c_text
              (String.length r_a_b_c_text) None r_a_b_c_rd [OpEnter; OpEnter])
    with (p := [0; 0; 0]) (n := xmlElement "b" None []) (floor := 0)
    as [Hvisit (a & na & before & Ha & Hna & Hrest)].
  - reflexivity.
  - apply r_a_b_c_nesting.
  - reflexivity.
  - reflexivity.
  - vm_compute. discriminate.
  - split.
    + etrans; [apply (Hvisit 3); vm_compute; lia|reflexivity].
    + exists before. subst a. vm_compute in Hna. injection Hna as <-.
      exact Hrest.
Defined.
